(** * Metadata retrieval for eBPF maps and programs (info.go)

    A shallow embedding of [info.go]: the two retrievers
    [newMapInfoFromFd] and [newProgramInfoFromFd], their fallbacks over
    /proc/self/fdinfo, the field scanner [scanFdInfoReader] and the
    accessors of [MapInfo] and [ProgramInfo].

    Conventions.
    - A Go [string] is a sequence of bytes: Rocq's [string].
    - Unsigned machine integers are [Z]; the one conversion that changes
      the value (uint64 to the signed [time.Duration]) is written out.
    - A Go [error] is a value of the inductive [error]; the [nil] error is
      [None] of [option error].
    - The system calls and the /proc file system are a [World]: a state
      that every external call may read and change.  The retrievers run in
      a small monad over that state which also records the external calls
      made, and which can panic (slicing out of range).
    - The parts of the Go standard library the scanner relies on
      ([bufio.Scanner] with its default line splitting, [strings.SplitN],
      [strings.TrimSuffix], [fmt.Sscanln] into a [*uint32]-kinded or
      [*string] destination, [strconv.ParseUint], UTF-8 decoding) are
      modelled after their Go implementation (Go 1.13 and later). *)

From Stdlib Require Import ZArith String Ascii List Lia Bool DecimalString.
From stdpp Require Import gmap strings.
Import ListNotations.

Open Scope string_scope.
Open Scope list_scope.
Open Scope Z_scope.

(** ** Errors *)

(** The error values that can reach the code of [info.go].  Package-level
    error variables ([errMissingFields], [bufio.ErrTooLong], [io.EOF], the
    two of [strconv]) are compared by identity in Go and get a constructor
    each; [errorString] stands for an error made on the spot by
    [errors.New].  The two [fmt.Errorf] calls of [info.go] get a
    constructor each, holding the arguments that determine the message. *)
Inductive error : Type :=
| Errno (n : Z)                                   (* syscall.Errno *)
| errMissingFields                                (* var errMissingFields *)
| ErrTooLong                                      (* bufio.ErrTooLong *)
| EOF                                             (* io.EOF *)
| ErrSyntax                                       (* strconv.ErrSyntax *)
| ErrRange                                        (* strconv.ErrRange *)
| errorString (s : string)                        (* errors.New(s) *)
| NumError (Func Num : string) (Err : error)      (* *strconv.NumError *)
| PathError (Op Path : string) (Err : error)      (* *os.PathError *)
| cantParseField (name : string) (cause : error)
    (* fmt.Errorf("can't parse field %s: %v", name, err), err non-nil *)
| cantParseFieldNil (name : string)
    (* the same call with a nil err *)
| wrapError (prefix : string) (err : error)
    (* fmt.Errorf("%s: %w", prefix, err), as in scanFdInfo, and
       fmt.Errorf(prefix + ": %w", err) *)
| UnsupportedFeatureError (Name : string) (MinimumVersion : Z * Z * Z).
    (* *internal.UnsupportedFeatureError *)

Definition EINVAL : error := Errno 22.

Definition error_eq_dec (a b : error) : {a = b} + {a <> b}.
Proof.
  decide equality;
    try apply string_dec; try apply Z.eq_dec.
  decide equality; try apply Z.eq_dec.
  decide equality; apply Z.eq_dec.
Defined.

Definition error_eqb (a b : error) : bool :=
  if error_eq_dec a b then true else false.

(** [errors.Is(err, target)] for a non-nil [err] and a comparable
    [target]: compare, and follow [Unwrap] where the error has one.  The [Is] methods of
    [syscall.Errno] and of [UnsupportedFeatureError] answer true only for
    targets of the packages [os] and [internal], which are not among the
    targets used here ([EINVAL] and [errMissingFields]). *)
Fixpoint errors_Is (err target : error) : bool :=
  error_eqb err target ||
  match err with
  | NumError _ _ e => errors_Is e target
  | PathError _ _ e => errors_Is e target
  | wrapError _ e => errors_Is e target
  | _ => false
  end.

(** [errors.Is] on a possibly nil error. *)
Definition Is (err : option error) (target : error) : bool :=
  match err with
  | None => false
  | Some e => errors_Is e target
  end.

(** ** Bytes, runes and UTF-8 *)

Definition rune := Z.

Definition byteval (c : ascii) : Z := Z.of_N (N_of_ascii c).
Definition bytechr (b : Z) : ascii := ascii_of_N (Z.to_N (b mod 256)).

Definition TAB : string := String (bytechr 9) "".
Definition LF : string := String (bytechr 10) "".
Definition CR : string := String (bytechr 13) "".

Module utf8.

Definition RuneError : rune := 0xFFFD.

(** The [first] table and [acceptRanges] of unicode/utf8: for a leading
    byte of a multi-byte encoding, the size of the encoding and the range
    the second byte must lie in. *)
Definition lead (b0 : Z) : option (nat * Z * Z) :=
  if b0 <? 0xC2 then None
  else if b0 <=? 0xDF then Some (2%nat, 0x80, 0xBF)
  else if b0 =? 0xE0 then Some (3%nat, 0xA0, 0xBF)
  else if b0 =? 0xED then Some (3%nat, 0x80, 0x9F)
  else if b0 <=? 0xEF then Some (3%nat, 0x80, 0xBF)
  else if b0 =? 0xF0 then Some (4%nat, 0x90, 0xBF)
  else if b0 <=? 0xF3 then Some (4%nat, 0x80, 0xBF)
  else if b0 =? 0xF4 then Some (4%nat, 0x80, 0x8F)
  else None.

Definition within (lo hi b : Z) : bool := (lo <=? b) && (b <=? hi).
Definition cont (b : Z) : bool := within 0x80 0xBF b.
Definition low6 (b : Z) : Z := Z.land b 0x3F.

(** [utf8.DecodeRuneInString]: the first rune of [s] and its width in
    bytes; an invalid or incomplete encoding is [RuneError] of width 1. *)
Definition DecodeRune (s : string) : rune * nat :=
  match s with
  | EmptyString => (RuneError, 0%nat)
  | String c0 t =>
    let b0 := byteval c0 in
    if b0 <? 0x80 then (b0, 1%nat) else
    match lead b0, t with
    | Some (2%nat, lo, hi), String c1 _ =>
      let b1 := byteval c1 in
      if within lo hi b1
      then (Z.lor (Z.shiftl (Z.land b0 0x1F) 6) (low6 b1), 2%nat)
      else (RuneError, 1%nat)
    | Some (3%nat, lo, hi), String c1 (String c2 _) =>
      let b1 := byteval c1 in
      let b2 := byteval c2 in
      if within lo hi b1 && cont b2
      then (Z.lor (Z.shiftl (Z.land b0 0x0F) 12)
              (Z.lor (Z.shiftl (low6 b1) 6) (low6 b2)), 3%nat)
      else (RuneError, 1%nat)
    | Some (4%nat, lo, hi), String c1 (String c2 (String c3 _)) =>
      let b1 := byteval c1 in
      let b2 := byteval c2 in
      let b3 := byteval c3 in
      if within lo hi b1 && cont b2 && cont b3
      then (Z.lor (Z.shiftl (Z.land b0 0x07) 18)
              (Z.lor (Z.shiftl (low6 b1) 12)
                 (Z.lor (Z.shiftl (low6 b2) 6) (low6 b3))), 4%nat)
      else (RuneError, 1%nat)
    | _, _ => (RuneError, 1%nat)
    end
  end.

(** The runes a reader of [s] sees, one [DecodeRune] after the other.
    [skip] counts the bytes that still belong to the rune decoded last. *)
Fixpoint decodeFrom (skip : nat) (s : string) : list rune :=
  match s with
  | EmptyString => []
  | String _ t =>
    match skip with
    | S k => decodeFrom k t
    | O => let (r, size) := DecodeRune s in r :: decodeFrom (size - 1) t
    end
  end.

Definition runes (s : string) : list rune := decodeFrom 0 s.

(** [utf8.AppendRune] on an empty buffer: the encoding of [r]. *)
Definition EncodeRune (r : rune) : string :=
  let tx b := bytechr (Z.lor 0x80 (low6 b)) in
  let three r :=
    String (bytechr (Z.lor 0xE0 (Z.shiftr r 12)))
      (String (tx (Z.shiftr r 6)) (String (tx r) "")) in
  if (0 <=? r) && (r <=? 0x7F) then String (bytechr r) ""
  else if (0 <=? r) && (r <=? 0x7FF) then
    String (bytechr (Z.lor 0xC0 (Z.shiftr r 6))) (String (tx r) "")
  else if (r <? 0) || (0x10FFFF <? r) || within 0xD800 0xDFFF r then
    three RuneError
  else if r <=? 0xFFFF then three r
  else
    String (bytechr (Z.lor 0xF0 (Z.shiftr r 18)))
      (String (tx (Z.shiftr r 12))
         (String (tx (Z.shiftr r 6)) (String (tx r) ""))).

(** A buffer of runes written with [WriteRune], read back as a string. *)
Definition encode (rs : list rune) : string :=
  fold_right (fun r acc => EncodeRune r +:+ acc) "" rs.

End utf8.

(** ** strconv.ParseUint *)

Module strconv.

Definition lower (c : Z) : Z := Z.lor c 0x20.

Definition isDigit (c : Z) : bool := (48 <=? c) && (c <=? 57).     (* '0'..'9' *)
Definition isHexLetter (c : Z) : bool :=
  (97 <=? lower c) && (lower c <=? 102).                            (* 'a'..'f' *)

(** The digits of a number token are ASCII: the token is kept as the list
    of its bytes and turned into a string where Go needs one. *)
Definition tokenString (tok : list Z) : string :=
  fold_right (fun c acc => String (bytechr c) acc) "" tok.

Definition syntaxError (s0 : list Z) : error :=
  NumError "ParseUint" (tokenString s0) ErrSyntax.
Definition rangeError (s0 : list Z) : error :=
  NumError "ParseUint" (tokenString s0) ErrRange.

(** The state of [underscoreOK]: ['^'], ['0'], ['_'] or ['!']. *)
Inductive ustate := UStart | UDigit | UUnder | UOther.

Fixpoint underscoreLoop (hex : bool) (i : ustate) (s : list Z) : bool :=
  match s with
  | [] => match i with UUnder => false | _ => true end
  | c :: t =>
    if isDigit c || (hex && isHexLetter c) then underscoreLoop hex UDigit t
    else if c =? 95 then                                            (* '_' *)
      match i with
      | UDigit => underscoreLoop hex UUnder t
      | _ => false
      end
    else
      match i with
      | UUnder => false
      | _ => underscoreLoop hex UOther t
      end
  end.

(** [underscoreOK(s)]: underscores only between digits or between the
    base prefix and a digit. *)
Definition underscoreOK (s : list Z) : bool :=
  let s :=
    match s with
    | c :: t => if (c =? 45) || (c =? 43) then t else s             (* '-' '+' *)
    | [] => s
    end in
  match s with
  | 48 :: c :: t =>
    if (lower c =? 98) || (lower c =? 111) || (lower c =? 120)      (* b o x *)
    then underscoreLoop (lower c =? 120) UDigit t
    else underscoreLoop false UStart s
  | _ => underscoreLoop false UStart s
  end.

Definition maxUint64 : Z := 2 ^ 64 - 1.

(** The digit loop of [ParseUint] with [base0] set and bitSize 64:
    [n] is the value so far, [underscores] whether one was seen. *)
Fixpoint digitLoop (s0 : list Z) (base : Z) (s : list Z)
    (n : Z) (underscores : bool) : Z * option error :=
  match s with
  | [] =>
    if underscores && negb (underscoreOK s0) then (0, Some (syntaxError s0))
    else (n, None)
  | c :: t =>
    if c =? 95 then digitLoop s0 base t n true
    else
      let d :=
        if isDigit c then Some (c - 48)
        else if (97 <=? lower c) && (lower c <=? 122) then Some (lower c - 97 + 10)
        else None in
      match d with
      | None => (0, Some (syntaxError s0))
      | Some d =>
        if base <=? d then (0, Some (syntaxError s0))
        else if maxUint64 / base + 1 <=? n then (maxUint64, Some (rangeError s0))
        else
          let n0 := (n * base) mod 2 ^ 64 in
          let n1 := (n0 + d) mod 2 ^ 64 in
          if (n1 <? n0) || (maxUint64 <? n1) then (maxUint64, Some (rangeError s0))
          else digitLoop s0 base t n1 underscores
      end
  end.

(** [strconv.ParseUint(s, 0, 64)]: base taken from the prefix of [s]. *)
Definition ParseUint (s : list Z) : Z * option error :=
  match s with
  | [] => (0, Some (syntaxError s))
  | 48 :: rest =>
    match rest with
    | c :: _ :: _ =>
      if lower c =? 98 then digitLoop s 2 (tl rest) 0 false
      else if lower c =? 111 then digitLoop s 8 (tl rest) 0 false
      else if lower c =? 120 then digitLoop s 16 (tl rest) 0 false
      else digitLoop s 8 rest 0 false
    | _ => digitLoop s 8 rest 0 false
    end
  | _ => digitLoop s 10 s 0 false
  end.

End strconv.

(** ** fmt.Sscanln *)

(** A destination handed to the scanner as [interface{}]: a pointer to an
    unsigned 32-bit value ([*uint32], [*MapType], [*ProgramType]) or to a
    string, with the value the pointer currently points at. *)
Inductive dest :=
| PtrUint32 (v : Z)
| PtrString (s : string).

Module fmt.

(** The table [space] of fmt/scan.go. *)
Definition space : list (Z * Z) :=
  [ (0x0009, 0x000d); (0x0020, 0x0020); (0x0085, 0x0085); (0x00a0, 0x00a0);
    (0x1680, 0x1680); (0x2000, 0x200a); (0x2028, 0x2029); (0x202f, 0x202f);
    (0x205f, 0x205f); (0x3000, 0x3000) ].

Fixpoint inRanges (rx : Z) (ranges : list (Z * Z)) : bool :=
  match ranges with
  | [] => false
  | (lo, hi) :: rest =>
    if rx <? lo then false
    else if rx <=? hi then true
    else inRanges rx rest
  end.

Definition isSpace (r : rune) : bool :=
  if 0x10000 <=? r then false else inRanges r space.

Definition notSpace (r : rune) : bool := negb (isSpace r).

Definition indexRune (ok : list rune) (r : rune) : bool :=
  existsb (Z.eqb r) ok.

(** [s.peek(ok)]: is the next rune one of [ok]? *)
Definition peek (ok : list rune) (input : list rune) : bool :=
  match input with
  | [] => false
  | r :: _ => indexRune ok r
  end.

(** [s.SkipSpace()] of a scan where a newline ends the input
    ([nlIsSpace] false): the input left, or the error raised. *)
Fixpoint SkipSpace (input : list rune) : error + list rune :=
  match input with
  | [] => inr []
  | r :: t =>
    if (r =? 13) && peek [10] t then SkipSpace t
    else if r =? 10 then inl (errorString "unexpected newline")
    else if isSpace r then SkipSpace t
    else inr input
  end.

(** [for s.accept(digits) {}]: move the leading runes that are in
    [digits] from the input to the end of the buffer. *)
Fixpoint acceptAll (digits : list rune) (buf input : list rune)
    : list rune * list rune :=
  match input with
  | r :: t =>
    if indexRune digits r then acceptAll digits (buf ++ [r]) t
    else (buf, input)
  | [] => (buf, input)
  end.

Definition binaryDigits : list rune := [48; 49].
Definition octalDigits : list rune := [48; 49; 50; 51; 52; 53; 54; 55].
Definition decimalDigits : list rune := octalDigits ++ [56; 57].
Definition hexadecimalDigits : list rune :=
  decimalDigits ++ [97; 65; 98; 66; 99; 67; 100; 68; 101; 69; 102; 70].
Definition underscore : list rune := [95].

(** [s.scanBasePrefix()]: the digits allowed after the prefix, whether a
    digit was already found, the buffer and the input left. *)
Definition scanBasePrefix (input : list rune)
    : list rune * bool * list rune * list rune :=
  match input with
  | 48 :: t =>
    match t with
    | c :: t' =>
      if indexRune [98; 66] c then (binaryDigits ++ underscore, true, [48; c], t')
      else if indexRune [111; 79] c then (octalDigits ++ underscore, true, [48; c], t')
      else if indexRune [120; 88] c then (hexadecimalDigits ++ underscore, true, [48; c], t')
      else (octalDigits ++ underscore, true, [48], t)
    | [] => (octalDigits ++ underscore, true, [48], t)
    end
  | _ => (decimalDigits ++ underscore, false, [], input)
  end.

(** [s.scanNumber(digits, haveDigits)] on the buffer left by the prefix. *)
Definition scanNumber (digits : list rune) (haveDigits : bool)
    (buf input : list rune) : error + (list rune * list rune) :=
  if haveDigits then inr (acceptAll digits buf input)
  else
    match input with
    | [] => inl EOF
    | r :: t =>
      if indexRune digits r then inr (acceptAll digits (buf ++ [r]) t)
      else inl (errorString "expected integer")
    end.

(** [s.scanUint('v', 32)]. *)
Definition scanUint (input : list rune) : error + (Z * list rune) :=
  match SkipSpace input with
  | inl e => inl e
  | inr [] => inl EOF                                   (* s.notEOF() *)
  | inr input =>
    let '(digits, haveDigits, buf, input) := scanBasePrefix input in
    match scanNumber digits haveDigits buf input with
    | inl e => inl e
    | inr (tok, rest) =>
      match strconv.ParseUint tok with
      | (_, Some e) => inl e
      | (i, None) =>
        if i mod 2 ^ 32 =? i then inr (i, rest)
        else inl (errorString
               ("unsigned integer overflow on token " +:+ strconv.tokenString tok))
      end
    end
  end.

(** [s.token(true, notSpace)] after the space was skipped: the leading
    runes that are not space, and the input left. *)
Fixpoint token (input : list rune) : list rune * list rune :=
  match input with
  | r :: t =>
    if notSpace r then let (tok, rest) := token t in (r :: tok, rest)
    else ([], input)
  | [] => ([], [])
  end.

(** [s.convertString('v')]. *)
Definition convertString (input : list rune) : error + (string * list rune) :=
  match SkipSpace input with
  | inl e => inl e
  | inr [] => inl EOF                                   (* s.notEOF() *)
  | inr input =>
    match SkipSpace input with                          (* token skips again *)
    | inl e => inl e
    | inr input => let (tok, rest) := token input in inr (utf8.encode tok, rest)
    end
  end.

(** [s.scanOne('v', arg)]: scan one value into the destination. *)
Definition scanOne (arg : dest) (input : list rune) : error + (dest * list rune) :=
  match arg with
  | PtrUint32 _ =>
    match scanUint input with
    | inl e => inl e
    | inr (i, rest) => inr (PtrUint32 i, rest)
    end
  | PtrString _ =>
    match convertString input with
    | inl e => inl e
    | inr (str, rest) => inr (PtrString str, rest)
    end
  end.

(** The check of [doScan] after the last operand of a [Scanln]: only
    space may follow, up to a newline or the end of the input. *)
Fixpoint expectNewline (input : list rune) : option error :=
  match input with
  | [] => None
  | r :: t =>
    if r =? 10 then None
    else if isSpace r then expectNewline t
    else Some (errorString "expected newline")
  end.

(** [s.doScan] of a [Scanln] with one operand: the number of operands
    scanned, the error, and the destination afterwards. *)
Definition doScan (arg : dest) (input : list rune) : Z * option error * dest :=
  match scanOne arg input with
  | inl e => (0, Some e, arg)
  | inr (arg', rest) => (1, expectNewline rest, arg')
  end.

(** [fmt.Sscanln(str, arg)]. *)
Definition Sscanln (str : string) (arg : dest) : Z * option error * dest :=
  doScan arg (utf8.runes str).

End fmt.

(** ** strings.SplitN, strings.TrimSuffix *)

Module strings.

(** The text before and after the first byte [sep] of [s], if any. *)
Fixpoint cut (sep : ascii) (s : string) : option (string * string) :=
  match s with
  | EmptyString => None
  | String c t =>
    if Ascii.eqb c sep then Some ("", t)
    else
      match cut sep t with
      | Some (before, after) => Some (String c before, after)
      | None => None
      end
  end.

(** [strings.SplitN(s, sep, 2)] for a separator of one byte. *)
Definition SplitN2 (s : string) (sep : ascii) : list string :=
  match cut sep s with
  | Some (before, after) => [before; after]
  | None => [s]
  end.

(** [strings.TrimSuffix(s, suffix)] for a suffix of one byte. *)
Fixpoint TrimSuffix (s : string) (suffix : ascii) : string :=
  match s with
  | EmptyString => ""
  | String c EmptyString => if Ascii.eqb c suffix then "" else s
  | String c t => String c (TrimSuffix t suffix)
  end.

End strings.

(** ** bufio.Scanner *)

(** An [io.Reader] as the scanner sees it: [Read] hands out the bytes of
    [data] and then stops, at the end of the stream ([readErr = None],
    or [io.EOF] itself as [readErr = Some EOF]) or with a read error.
    That is the behaviour of [*os.File] and of [strings.Reader]. *)
Record Reader := { data : string; readErr : option error }.

Module bufio.

Definition MaxScanTokenSize : Z := 64 * 1024.

(** [dropCR]: drop one trailing carriage return. *)
Definition dropCR (line : string) : string := strings.TrimSuffix line (bytechr 13).

(** A line can be delivered if it fits the buffer before the buffer,
    grown to [MaxScanTokenSize], is full. *)
Definition fits (line : string) : bool :=
  Z.of_nat (String.length line) <? MaxScanTokenSize.

(** The calls of [Scan] with the default split function [ScanLines]:
    the lines [Text] delivers while [Scan] is true, and the error the
    scanner has recorded afterwards (its field [err]).  [cur] is the
    part of the current line read so far.  A line that does not fit
    stops the scan with [ErrTooLong]; the last line needs no newline; an
    empty last line is not delivered. *)
Fixpoint scanFrom (cur : string) (rest : string) (readErr : option error)
    : list string * option error :=
  match rest with
  | EmptyString =>
    if String.eqb cur "" then ([], readErr)
    else if fits cur then ([dropCR cur], readErr)
    else ([], Some ErrTooLong)
  | String c t =>
    if Ascii.eqb c (bytechr 10) then
      if fits cur then
        let (lines, err) := scanFrom "" t readErr in (dropCR cur :: lines, err)
      else ([], Some ErrTooLong)
    else scanFrom (cur +:+ String c "") t readErr
  end.

(** [s.Err()]: the recorded error, unless it is [io.EOF] itself
    ([s.err == io.EOF], a comparison of the values, not [errors.Is]):
    the end of the stream is no error. *)
Definition Err (err : option error) : option error :=
  match err with
  | Some EOF => None
  | _ => err
  end.

(** The lines of the loop [for scanner.Scan()] and the result of
    [scanner.Err()] after it. *)
Definition Scan (r : Reader) : list string * option error :=
  let (lines, err) := scanFrom "" (data r) (readErr r) in (lines, Err err).

End bufio.

(** ** The field scanner *)

(** The loop body of [scanFdInfoReader] over the lines the scanner
    delivers.  [fields] maps a field name to its destination; writing
    through the pointer is an update of the map entry, which keeps
    [len(fields)].  [scanned] counts the lines scanned into a
    destination.  The result is the error of the first line that does not
    parse, or the count, with the destinations as they are then. *)
Fixpoint scanLines (lines : list string) (fields : gmap string dest)
    (scanned : nat) : gmap string dest * (error + nat) :=
  match lines with
  | [] => (fields, inr scanned)
  | text :: rest =>
    match strings.SplitN2 text (bytechr 9) with
    | [part0; part1] =>
      let name := strings.TrimSuffix part0 ":" in
      match fields !! name with
      | None => scanLines rest fields scanned
      | Some field =>
        match fmt.Sscanln part1 field with
        | (n, Some err, field') =>
          (<[name := field']> fields, inl (cantParseField name err))
        | (n, None, field') =>
          if negb (n =? 1) then (<[name := field']> fields, inl (cantParseFieldNil name))
          else scanLines rest (<[name := field']> fields) (S scanned)
        end
      end
    | _ => scanLines rest fields scanned
    end
  end.

(** [scanFdInfoReader(r, fields)]: the error returned ([None] for nil) and
    the destinations afterwards. *)
Definition scanFdInfoReader (r : Reader) (fields : gmap string dest)
    : option error * gmap string dest :=
  let (lines, scanErr) := bufio.Scan r in
  match scanLines lines fields 0 with
  | (fields', inl err) => (Some err, fields')
  | (fields', inr scanned) =>
    match scanErr with
    | Some err => (Some err, fields')
    | None =>
      if negb (Nat.eqb scanned (size fields)) then (Some errMissingFields, fields')
      else (None, fields')
    end
  end.

(** ** The raw records of the structured query *)

(** The fields of [bpfMapInfo] and [bpfProgInfo] that [info.go] reads.
    Integers are the unsigned values of the fields, byte arrays are
    strings. *)
Module bpfMapInfo.
Record t := {
  map_type : Z;
  id : Z;
  key_size : Z;
  value_size : Z;
  max_entries : Z;
  map_flags : Z;
  name : string
}.
End bpfMapInfo.

Module bpfProgInfo.
Record t := {
  prog_type : Z;
  id : Z;
  tag : string;
  nr_map_ids : Z;
  name : string;
  btf_id : Z;
  run_time_ns : Z;
  run_cnt : Z
}.
End bpfProgInfo.

(** ** The metadata records and their accessors *)

(** [time.Duration(x)] of a uint64 [x]: the same 64 bits read as a signed
    integer. *)
Definition Duration (x : Z) : Z := (x + 2 ^ 63) mod 2 ^ 64 - 2 ^ 63.

Module MapInfo.

Record t := {
  Type_ : Z;
  id : Z;
  KeySize : Z;
  ValueSize : Z;
  MaxEntries : Z;
  Flags : Z;
  Name : string
}.

(** [(mi *MapInfo) ID()]. *)
Definition ID (mi : t) : Z * bool := (id mi, 0 <? id mi).

End MapInfo.

Record programStats := {
  runtime : Z;          (* time.Duration, a signed 64-bit integer *)
  runCount : Z          (* uint64 *)
}.

Module ProgramInfo.

(** [ids] is a slice and [stats] a pointer: [None] is Go's [nil]. *)
Record t := {
  Type_ : Z;
  id : Z;
  Tag : string;
  Name : string;
  btf : Z;
  ids : option (list Z);
  stats : option programStats
}.

Definition ID (pi : t) : Z * bool := (id pi, 0 <? id pi).

Definition BTFID (pi : t) : Z * bool := (btf pi, 0 <? btf pi).

Definition RunCount (pi : t) : Z * bool :=
  match stats pi with
  | Some st => (runCount st, true)
  | None => (0, false)
  end.

Definition Runtime (pi : t) : Z * bool :=
  match stats pi with
  | Some st => (runtime st, true)
  | None => (0, false)
  end.

(** [MapIDs()]: the slice, and whether it is not nil. *)
Definition MapIDs (pi : t) : option (list Z) * bool :=
  (ids pi, match ids pi with Some _ => true | None => false end).

End ProgramInfo.

(** ** encoding/hex *)

Module hex.

Definition hextable : list ascii :=
  list_ascii_of_string "0123456789abcdef".

Definition digit (v : Z) : ascii := nth (Z.to_nat v) hextable "0"%char.

(** [hex.EncodeToString]: two digits per byte, high half first. *)
Fixpoint EncodeToString (src : string) : string :=
  match src with
  | EmptyString => ""
  | String c t =>
    let v := byteval c in
    String (digit (Z.shiftr v 4)) (String (digit (Z.land v 0x0f)) (EncodeToString t))
  end.

End hex.

(** ** The world outside *)

(** The calls that leave the process. *)
Inductive event {FD : Type} :=
| CallMapInfo (fd : FD)                       (* bpfGetMapInfoByFD(fd) *)
| CallProgInfo (fd : FD) (len : nat)          (* bpfGetProgInfoByFD(fd, ids), len(ids) *)
| CallOpen (path : string)                    (* os.Open(path) *)
| CallClose (path : string).                  (* fh.Close() *)
Arguments event : clear implicits.

(** What [info.go] takes from elsewhere: the handle type with its
    [Value] method, the two structured queries of syscalls.go, [os.Open]
    and the helper [internal.CString].  The answer of a call to the kernel
    or to the file system may depend on everything that happened before:
    it is a function of the calls made so far.  A program query answers
    with the record and the identifiers the kernel copied out. *)
Record World {FD : Type} := {
  FD_Value : FD -> error + Z;
  bpfGetMapInfoByFD : list (event FD) -> FD -> error + bpfMapInfo.t;
  bpfGetProgInfoByFD :
    list (event FD) -> FD -> nat -> error + (bpfProgInfo.t * list Z);
  os_Open : list (event FD) -> string -> error + Reader;
  CString : string -> string
}.
Arguments World : clear implicits.

(** A Go function returning [(T, error)]. *)
Inductive result (T : Type) :=
| Ok (v : T)
| Err (e : error).
Arguments Ok {T} v.
Arguments Err {T} e.

(** The end of a run: a return value or a panic, with the calls made. *)
Inductive outcome {FD : Type} (A : Type) :=
| Returns (a : A) (calls : list (event FD))
| Panics (msg : string) (calls : list (event FD)).
Arguments Returns {FD A} a calls.
Arguments Panics {FD A} msg calls.

Definition callsOf {FD A} (o : @outcome FD A) : list (event FD) :=
  match o with
  | Returns _ calls => calls
  | Panics _ calls => calls
  end.

(** A computation: from the calls made so far to its outcome. *)
Definition M (FD A : Type) : Type := list (event FD) -> @outcome FD A.

Definition ret {FD A} (a : A) : M FD A := fun calls => Returns a calls.

Definition bind {FD A B} (m : M FD A) (k : A -> M FD B) : M FD B :=
  fun calls =>
    match m calls with
    | Returns a calls' => k a calls'
    | Panics msg calls' => Panics msg calls'
    end.

Definition panic {FD A} (msg : string) : M FD A := fun calls => Panics msg calls.

(** An external call: its answer is computed from the calls before it,
    and the call is recorded. *)
Definition call {FD A} (ev : event FD) (answer : list (event FD) -> A) : M FD A :=
  fun calls => Returns (answer calls) (calls ++ [ev]).

Notation "x <- m ;; k" := (bind m (fun x => k))
  (at level 100, m at next level, right associativity).

(** Decimal text of a descriptor, as [%d] prints it. *)
Definition itoa (n : Z) : string :=
  DecimalString.NilZero.string_of_uint (N.to_uint (Z.to_N n)).

(** [make([]MapID, n)]. *)
Definition make (n : nat) : list Z := repeat 0 n.

(** The buffer after the kernel copied [written] into it: a slice keeps
    its length. *)
Definition fill (buf written : list Z) : list Z :=
  firstn (length buf) (written ++ skipn (length written) buf).

(** [s[:n]]: panics when [n] exceeds the capacity, which for a slice made
    by [make([]MapID, n)] is its length. *)
Definition sliceTo {FD} (s : list Z) (n : Z) : M FD (list Z) :=
  if (n <? 0) || (Z.of_nat (length s) <? n)
  then panic "runtime error: slice bounds out of range"
  else ret (firstn (Z.to_nat n) s).

Section Retrieval.

Context {FD : Type}.
Variable W : World FD.

(** *** scanFdInfo *)

Definition fdinfoPath (raw : Z) : string := "/proc/self/fdinfo/" +:+ itoa raw.

(** [scanFdInfo(fd, fields)]: the error and the destinations afterwards.
    The deferred [fh.Close()] runs on every way out once the file is
    open. *)
Definition scanFdInfo (fd : FD) (fields : gmap string dest)
    : M FD (option error * gmap string dest) :=
  match FD_Value W fd with
  | inl err => ret (Some err, fields)
  | inr raw =>
    let path := fdinfoPath raw in
    opened <- call (CallOpen path) (fun calls => os_Open W calls path) ;;
    match opened with
    | inl err => ret (Some err, fields)
    | inr fh =>
      let (err, fields') := scanFdInfoReader fh fields in
      _ <- call (CallClose path) (fun _ => tt) ;;
      match err with
      | Some err => ret (Some (wrapError path err), fields')
      | None => ret (None, fields')
      end
    end
  end.

(** Reading a struct field back after the scan wrote through the pointer
    to it. *)
Definition uintAt (fields : gmap string dest) (name : string) : Z :=
  match fields !! name with
  | Some (PtrUint32 v) => v
  | _ => 0
  end.

Definition stringAt (fields : gmap string dest) (name : string) : string :=
  match fields !! name with
  | Some (PtrString s) => s
  | _ => ""
  end.

(** *** MapInfo *)

(** The destinations of [newMapInfoFromProc]: pointers to five fields of
    the zero [MapInfo]. *)
Definition mapFields : gmap string dest :=
  {[ "map_type" := PtrUint32 0;
     "key_size" := PtrUint32 0;
     "value_size" := PtrUint32 0;
     "max_entries" := PtrUint32 0;
     "map_flags" := PtrUint32 0 ]}.

Definition newMapInfoFromProc (fd : FD) : M FD (result MapInfo.t) :=
  scan <- scanFdInfo fd mapFields ;;
  let (err, fields) := scan : option error * gmap string dest in
  match err with
  | Some err => ret (Err err)
  | None =>
    ret (Ok {| MapInfo.Type_ := uintAt fields "map_type";
               MapInfo.id := 0;
               MapInfo.KeySize := uintAt fields "key_size";
               MapInfo.ValueSize := uintAt fields "value_size";
               MapInfo.MaxEntries := uintAt fields "max_entries";
               MapInfo.Flags := uintAt fields "map_flags";
               MapInfo.Name := "" |})
  end.

Definition newMapInfoFromFd (fd : FD) : M FD (result MapInfo.t) :=
  answer <- call (CallMapInfo fd) (fun calls => bpfGetMapInfoByFD W calls fd) ;;
  match answer with
  | inl err =>
    if errors_Is err EINVAL then newMapInfoFromProc fd
    else ret (Err err)
  | inr info =>
    ret (Ok {| MapInfo.Type_ := bpfMapInfo.map_type info;
               MapInfo.id := bpfMapInfo.id info;
               MapInfo.KeySize := bpfMapInfo.key_size info;
               MapInfo.ValueSize := bpfMapInfo.value_size info;
               MapInfo.MaxEntries := bpfMapInfo.max_entries info;
               MapInfo.Flags := bpfMapInfo.map_flags info;
               MapInfo.Name := CString W (bpfMapInfo.name info) |})
  end.

(** *** ProgramInfo *)

Definition defaultNumMaps : Z := 10.

(** [bpfGetProgInfoByFD(fd, mapIds)]: the record, and the buffer as the
    kernel left it. *)
Definition progQuery (fd : FD) (mapIds : list Z)
    : M FD (error + (bpfProgInfo.t * list Z)) :=
  answer <- call (CallProgInfo fd (length mapIds))
              (fun calls => bpfGetProgInfoByFD W calls fd (length mapIds)) ;;
  match answer with
  | inl err => ret (inl err)
  | inr (info, written) => ret (inr (info, fill mapIds written))
  end.

Definition progFields : gmap string dest :=
  {[ "prog_type" := PtrUint32 0;
     "prog_tag" := PtrString "" ]}.

Definition newProgramInfoFromProc (fd : FD) : M FD (result ProgramInfo.t) :=
  scan <- scanFdInfo fd progFields ;;
  let (err, fields) := scan : option error * gmap string dest in
  if Is err errMissingFields then
    ret (Err (UnsupportedFeatureError
                "reading program info from /proc/self/fdinfo" (4, 10, 0)))
  else
    match err with
    | Some err => ret (Err err)
    | None =>
      ret (Ok {| ProgramInfo.Type_ := uintAt fields "prog_type";
                 ProgramInfo.id := 0;
                 ProgramInfo.Tag := stringAt fields "prog_tag";
                 ProgramInfo.Name := "";
                 ProgramInfo.btf := 0;
                 ProgramInfo.ids := None;
                 ProgramInfo.stats := None |})
    end.

(** The record built by the struct literal at the end of
    [newProgramInfoFromFd] from the record of the last query, once the
    buffer is sliced. *)
Definition builtFrom (info : bpfProgInfo.t) (sliced : list Z) : ProgramInfo.t :=
  {| ProgramInfo.Type_ := bpfProgInfo.prog_type info;
     ProgramInfo.id := bpfProgInfo.id info;
     ProgramInfo.Tag := hex.EncodeToString (bpfProgInfo.tag info);
     ProgramInfo.Name := CString W (bpfProgInfo.name info);
     ProgramInfo.btf := bpfProgInfo.btf_id info;
     ProgramInfo.ids := Some sliced;
     ProgramInfo.stats :=
       Some {| runtime := Duration (bpfProgInfo.run_time_ns info);
               runCount := bpfProgInfo.run_cnt info |} |}.

(** The struct literal, with its slice expression
    [mapIds[:info.nr_map_ids]]. *)
Definition programInfoOf (info : bpfProgInfo.t) (mapIds : list Z)
    : M FD (result ProgramInfo.t) :=
  sliced <- sliceTo mapIds (bpfProgInfo.nr_map_ids info) ;;
  ret (Ok (builtFrom info sliced)).

Definition newProgramInfoFromFd (fd : FD) : M FD (result ProgramInfo.t) :=
  answer <- progQuery fd (make (Z.to_nat defaultNumMaps)) ;;
  match answer with
  | inl err =>
    if errors_Is err EINVAL then newProgramInfoFromProc fd
    else ret (Err err)
  | inr (info, mapIds) =>
    if defaultNumMaps <? bpfProgInfo.nr_map_ids info then
      answer <- progQuery fd (make (Z.to_nat (bpfProgInfo.nr_map_ids info))) ;;
      match answer with
      | inl err => ret (Err err)
      | inr (info, mapIds) => programInfoOf info mapIds
      end
    else programInfoOf info mapIds
  end.

End Retrieval.

(** ** Worlds used in the examples *)

Module Examples.

(** [internal.CString]: the bytes before the first NUL, and the empty
    string when there is none. *)
Definition cstring (s : string) : string :=
  match strings.cut (bytechr 0) s with
  | Some (before, _) => before
  | None => ""
  end.

(** A kernel without the structured queries: both fail with [EINVAL],
    wrapped as syscalls.go does, and the fdinfo file of every descriptor
    holds [text]. *)
Definition procWorld (text : string) : World Z := {|
  FD_Value := fun fd => inr fd;
  bpfGetMapInfoByFD := fun _ _ => inl (wrapError "can't get map info" EINVAL);
  bpfGetProgInfoByFD := fun _ _ _ => inl (wrapError "can't get program info" EINVAL);
  os_Open := fun _ _ => inr {| data := text; readErr := None |};
  CString := cstring
|}.

Definition progRecord (nr runtime : Z) : bpfProgInfo.t := {|
  bpfProgInfo.prog_type := 6;
  bpfProgInfo.id := 17;
  bpfProgInfo.tag := "abcdefgh";
  bpfProgInfo.nr_map_ids := nr;
  bpfProgInfo.name := "prog" +:+ String (bytechr 0) "";
  bpfProgInfo.btf_id := 0;
  bpfProgInfo.run_time_ns := runtime;
  bpfProgInfo.run_cnt := 0
|}.

Definition isProgCall (ev : event Z) : bool :=
  match ev with
  | CallProgInfo _ _ => true
  | _ => false
  end.

(** The identifiers 1, 2, ..., n. *)
Definition idsUpTo (n : Z) : list Z := map Z.of_nat (seq 1 (Z.to_nat n)).

(** A kernel with the structured queries whose k-th program query
    reports the k-th count of [counts] and copies out as many of the
    identifiers 1, 2, ... as the buffer holds. *)
Definition progWorld (counts : list Z) (runtime : Z) : World Z := {|
  FD_Value := fun fd => inr fd;
  bpfGetMapInfoByFD := fun _ _ => inl (Errno 9);
  bpfGetProgInfoByFD := fun calls _ len =>
    let nr := nth (length (filter isProgCall calls)) counts 0 in
    inr (progRecord nr runtime, firstn len (idsUpTo nr));
  os_Open := fun _ path => inl (PathError "open" path (Errno 2));
  CString := cstring
|}.

End Examples.

(** ** Notions used in the statements about the scanner *)

(** The field name and the value side of a line, as the loop body of
    [scanFdInfoReader] takes them from it; [None] for a line without a
    tab. *)
Definition lineField (text : string) : option (string * string) :=
  match strings.SplitN2 text (bytechr 9) with
  | [part0; part1] => Some (strings.TrimSuffix part0 ":", part1)
  | _ => None
  end.

(** Does the line carry the field [name]? *)
Definition carries (name : string) (text : string) : bool :=
  match lineField text with
  | Some (key, _) => String.eqb key name
  | None => false
  end.

(** The names of the requested fields the lines carry, line by line. *)
Fixpoint requestedNames (fields : gmap string dest) (lines : list string)
    : list string :=
  match lines with
  | [] => []
  | text :: rest =>
    match lineField text with
    | Some (name, _) =>
      match fields !! name with
      | Some _ => name :: requestedNames fields rest
      | None => requestedNames fields rest
      end
    | None => requestedNames fields rest
    end
  end.

(** The value side scans into the destination without an error. *)
Definition parses (value : string) (field : dest) : bool :=
  match fmt.Sscanln value field with
  | (_, None, _) => true
  | (_, Some _, _) => false
  end.

(** A line is well formed for the requested fields if it carries none of
    them or its value scans into the destination of the one it carries. *)
Definition wellFormed (fields : gmap string dest) (text : string) : bool :=
  match lineField text with
  | Some (name, value) =>
    match fields !! name with
    | Some field => parses value field
    | None => true
    end
  | None => true
  end.

(** A pointer to an unsigned integer, or to a string? *)
Definition isUint (field : dest) : bool :=
  match field with
  | PtrUint32 _ => true
  | PtrString _ => false
  end.

(** Two maps of destinations with the same names and kinds. *)
Definition sameKinds (fields1 fields2 : gmap string dest) : Prop :=
  forall name, isUint <$> (fields1 !! name) = isUint <$> (fields2 !! name).

(** White space other than the newline. *)
Definition blank (r : rune) : bool := fmt.isSpace r && negb (r =? 10).

(** The input after a token ends, or goes on with white space. *)
Definition stops (input : list rune) : bool :=
  match input with
  | [] => true
  | c :: _ => fmt.isSpace c
  end.

(** A set of digits without white space in it. *)
Definition noSpaceIn (digits : list rune) : bool :=
  forallb fmt.notSpace digits.

(** A plain decimal numeral: digits only, and no leading zero unless it
    is the numeral 0. *)
Definition isDecimal (digits : list rune) : bool :=
  forallb strconv.isDigit digits
  && match digits with
     | [] => false
     | [_] => true
     | first :: _ => negb (first =? 48)
     end.

(** The number a decimal numeral stands for, after the digits that gave
    [n], and from the start. *)
Definition decimalFrom (n : Z) (digits : list rune) : Z :=
  fold_left (fun n d => n * 10 + (d - 48)) digits n.

Definition decimalValue (digits : list rune) : Z := decimalFrom 0 digits.

(** The field of a [MapInfo] that the fallback fills from the line named
    [name]. *)
Definition mapInfoField (mi : MapInfo.t) (name : string) : option Z :=
  if String.eqb name "map_type" then Some (MapInfo.Type_ mi)
  else if String.eqb name "key_size" then Some (MapInfo.KeySize mi)
  else if String.eqb name "value_size" then Some (MapInfo.ValueSize mi)
  else if String.eqb name "max_entries" then Some (MapInfo.MaxEntries mi)
  else if String.eqb name "map_flags" then Some (MapInfo.Flags mi)
  else None.

(** ** Notions used in the statements about the calls and the values *)

(** The calls [scanFdInfo] makes after [calls]: none without a
    descriptor value, the open alone when it fails, the open and the
    close otherwise. *)
Definition fileCalls {FD : Type} (W : World FD) (fd : FD)
    (calls : list (event FD)) : list (event FD) :=
  match FD_Value W fd with
  | inl _ => []
  | inr raw =>
    match os_Open W calls (fdinfoPath raw) with
    | inl _ => [CallOpen (fdinfoPath raw)]
    | inr _ => [CallOpen (fdinfoPath raw); CallClose (fdinfoPath raw)]
    end
  end.

(** Is the outcome a panic? *)
Definition panicked {FD A : Type} (o : @outcome FD A) : bool :=
  match o with
  | Panics _ _ => true
  | Returns _ _ => false
  end.

(** The value of a digit of a number in a base up to 36, as
    [strconv.ParseUint] takes it. *)
Definition digitValue (c : Z) : Z :=
  if strconv.isDigit c then c - 48 else strconv.lower c - 97 + 10.

(** The number that digits stand for in a base, after the digits that
    gave [n]. *)
Definition valueFrom (base n : Z) (digits : list rune) : Z :=
  fold_left (fun n c => n * base + digitValue c) digits n.

(** Digits of the base: letters or decimal digits of a value below the
    base, no underscore. *)
Definition digitsBelow (base : Z) (digits : list rune) : bool :=
  forallb (fun c =>
             negb (c =? 95)
             && (strconv.isDigit c
                 || ((97 <=? strconv.lower c) && (strconv.lower c <=? 122)))
             && (0 <=? digitValue c) && (digitValue c <? base)) digits.

(** * Properties *)

(** ** Running computations *)

Section Run.

Context {FD : Type}.
Implicit Types calls : list (event FD).

Lemma run_ret {A} (a : A) calls : @ret FD A a calls = Returns a calls.
Proof. reflexivity. Qed.

Lemma run_call {A} (ev : event FD) (answer : list (event FD) -> A) calls :
  call ev answer calls = Returns (answer calls) (calls ++ [ev]).
Proof. reflexivity. Qed.

Lemma run_bind_call {A B} (ev : event FD) (answer : list (event FD) -> A)
    (k : A -> M FD B) calls :
  bind (call ev answer) k calls = k (answer calls) (calls ++ [ev]).
Proof. reflexivity. Qed.

Lemma length_make n : length (make n) = n.
Proof. apply repeat_length. Qed.

Lemma length_fill (buf written : list Z) : length (fill buf written) = length buf.
Proof.
  unfold fill. rewrite length_take, length_app, length_drop. lia.
Qed.

(** A slice expression within the capacity returns the prefix and makes
    no call; beyond the capacity it panics. *)
Lemma sliceTo_ok (s : list Z) (n : Z) calls :
  0 <= n <= Z.of_nat (length s) ->
  sliceTo s n calls = Returns (firstn (Z.to_nat n) s) calls.
Proof.
  intros Hn. unfold sliceTo.
  destruct (n <? 0) eqn:E1; [lia|].
  destruct (Z.of_nat (length s) <? n) eqn:E2; [lia|]. reflexivity.
Qed.

Lemma sliceTo_panics (s : list Z) (n : Z) calls :
  Z.of_nat (length s) < n ->
  sliceTo s n calls = Panics "runtime error: slice bounds out of range" calls.
Proof.
  intros Hn. unfold sliceTo.
  destruct (Z.of_nat (length s) <? n) eqn:E2; [|lia].
  rewrite orb_true_r. reflexivity.
Qed.

End Run.

(** ** Errors *)

Lemma error_eqb_refl (e : error) : error_eqb e e = true.
Proof. unfold error_eqb. destruct (error_eq_dec e e); congruence. Qed.

Lemma error_eqb_eq (a b : error) : error_eqb a b = true <-> a = b.
Proof. unfold error_eqb. destruct (error_eq_dec a b); split; congruence. Qed.

Lemma errors_Is_refl (e : error) : errors_Is e e = true.
Proof. destruct e; cbn [errors_Is]; rewrite error_eqb_refl; reflexivity. Qed.

Lemma errors_Is_wrap (prefix : string) (e target : error) :
  errors_Is e target = true -> errors_Is (wrapError prefix e) target = true.
Proof. intros H. simpl. rewrite H. apply orb_true_r. Qed.

(** The unsupported-feature error is not the missing-fields error, also
    for [errors.Is]. *)
Lemma unsupported_is_not_missing (name : string) (v : Z * Z * Z) :
  errors_Is (UnsupportedFeatureError name v) errMissingFields = false.
Proof. reflexivity. Qed.

(** ** The retrievers and their fallback *)

Section RetrievalFacts.

Context {FD : Type}.
Variable W : World FD.
Implicit Types calls : list (event FD).

(** Without a descriptor value the scan ends before any file is opened. *)
Lemma scanFdInfo_no_descriptor fd fields calls err :
  FD_Value W fd = inl err ->
  scanFdInfo W fd fields calls = Returns (Some err, fields) calls.
Proof. intros H. unfold scanFdInfo. rewrite H. reflexivity. Qed.

(** With a descriptor value the scan opens the fdinfo file of that
    descriptor first. *)
Lemma scanFdInfo_opens fd fields calls raw :
  FD_Value W fd = inr raw ->
  exists more,
    callsOf (scanFdInfo W fd fields calls)
    = calls ++ CallOpen (fdinfoPath raw) :: more.
Proof.
  intros H. unfold scanFdInfo. rewrite H, run_bind_call.
  destruct (os_Open W calls (fdinfoPath raw)) as [err|fh].
  - exists []. reflexivity.
  - destruct (scanFdInfoReader fh fields) as [err fields'].
    rewrite run_bind_call.
    exists [CallClose (fdinfoPath raw)].
    destruct err; simpl; rewrite <- app_assoc; reflexivity.
Qed.

(** What a scan that got as far as the file returns. *)
Lemma scanFdInfo_scanned fd fields calls raw fh :
  FD_Value W fd = inr raw ->
  os_Open W calls (fdinfoPath raw) = inr fh ->
  scanFdInfo W fd fields calls
  = Returns
      (match fst (scanFdInfoReader fh fields) with
       | Some err => Some (wrapError (fdinfoPath raw) err)
       | None => None
       end, snd (scanFdInfoReader fh fields))
      (calls ++ [CallOpen (fdinfoPath raw); CallClose (fdinfoPath raw)]).
Proof.
  intros Hv Ho. unfold scanFdInfo. rewrite Hv, run_bind_call, Ho.
  destruct (scanFdInfoReader fh fields) as [err fields'].
  rewrite run_bind_call, <- app_assoc. destruct err; reflexivity.
Qed.

Lemma newMapInfoFromProc_run fd calls :
  newMapInfoFromProc W fd calls
  = match scanFdInfo W fd mapFields calls with
    | Returns (Some err, _) calls' => Returns (Err err) calls'
    | Returns (None, fields) calls' =>
      Returns (Ok {| MapInfo.Type_ := uintAt fields "map_type";
                     MapInfo.id := 0;
                     MapInfo.KeySize := uintAt fields "key_size";
                     MapInfo.ValueSize := uintAt fields "value_size";
                     MapInfo.MaxEntries := uintAt fields "max_entries";
                     MapInfo.Flags := uintAt fields "map_flags";
                     MapInfo.Name := "" |}) calls'
    | Panics msg calls' => Panics msg calls'
    end.
Proof.
  unfold newMapInfoFromProc, bind.
  destruct (scanFdInfo W fd mapFields calls) as [[[err|] fields] calls'|];
    reflexivity.
Qed.

Lemma newProgramInfoFromProc_run fd calls :
  newProgramInfoFromProc W fd calls
  = match scanFdInfo W fd progFields calls with
    | Returns (err, fields) calls' =>
      if Is err errMissingFields then
        Returns (Err (UnsupportedFeatureError
                        "reading program info from /proc/self/fdinfo" (4, 10, 0)))
                calls'
      else
        match err with
        | Some err => Returns (Err err) calls'
        | None =>
          Returns (Ok {| ProgramInfo.Type_ := uintAt fields "prog_type";
                         ProgramInfo.id := 0;
                         ProgramInfo.Tag := stringAt fields "prog_tag";
                         ProgramInfo.Name := "";
                         ProgramInfo.btf := 0;
                         ProgramInfo.ids := None;
                         ProgramInfo.stats := None |}) calls'
        end
    | Panics msg calls' => Panics msg calls'
    end.
Proof.
  unfold newProgramInfoFromProc, bind.
  destruct (scanFdInfo W fd progFields calls) as [[err fields] calls'|];
    [|reflexivity].
  destruct (Is err errMissingFields); [reflexivity|].
  destruct err; reflexivity.
Qed.

Lemma progQuery_run fd mapIds calls :
  progQuery W fd mapIds calls
  = Returns
      (match bpfGetProgInfoByFD W calls fd (length mapIds) with
       | inl err => inl err
       | inr (info, written) => inr (info, fill mapIds written)
       end)
      (calls ++ [CallProgInfo fd (length mapIds)]).
Proof.
  unfold progQuery. rewrite run_bind_call.
  destruct (bpfGetProgInfoByFD W calls fd (length mapIds)) as [err|[info written]];
    reflexivity.
Qed.

(** The struct literal makes no call. *)
Lemma programInfoOf_calls info mapIds calls :
  callsOf (programInfoOf W info mapIds calls) = calls.
Proof.
  unfold programInfoOf, bind, sliceTo.
  destruct ((bpfProgInfo.nr_map_ids info <? 0)
            || (Z.of_nat (length mapIds) <? bpfProgInfo.nr_map_ids info));
    reflexivity.
Qed.

(** The first query of [newProgramInfoFromFd] hands over ten slots. *)
Lemma newProgramInfoFromFd_run fd calls :
  newProgramInfoFromFd W fd calls
  = let calls1 := calls ++ [CallProgInfo fd 10] in
    match bpfGetProgInfoByFD W calls fd 10 with
    | inl err =>
      if errors_Is err EINVAL then newProgramInfoFromProc W fd calls1
      else Returns (Err err) calls1
    | inr (info, written) =>
      if defaultNumMaps <? bpfProgInfo.nr_map_ids info then
        let n := Z.to_nat (bpfProgInfo.nr_map_ids info) in
        let calls2 := calls1 ++ [CallProgInfo fd n] in
        match bpfGetProgInfoByFD W calls1 fd n with
        | inl err => Returns (Err err) calls2
        | inr (info2, written2) =>
          programInfoOf W info2 (fill (make n) written2) calls2
        end
      else programInfoOf W info (fill (make 10) written) calls1
    end.
Proof.
  unfold newProgramInfoFromFd.
  unfold bind at 1. rewrite progQuery_run, length_make.
  change (Z.to_nat defaultNumMaps) with 10%nat.
  destruct (bpfGetProgInfoByFD W calls fd 10) as [err|[info written]].
  - destruct (errors_Is err EINVAL); reflexivity.
  - destruct (defaultNumMaps <? bpfProgInfo.nr_map_ids info); [|reflexivity].
    unfold bind at 1. rewrite progQuery_run, length_make.
    cbv zeta.
    destruct (bpfGetProgInfoByFD W (calls ++ [CallProgInfo fd 10]) fd
                (Z.to_nat (bpfProgInfo.nr_map_ids info))) as [err|[info2 written2]];
      reflexivity.
Qed.

End RetrievalFacts.

(** C1. Both retrievers fall back to the fdinfo file exactly when the
    structured query (for a program: the first one, with the default
    buffer of ten) fails with an error that is [EINVAL] for [errors.Is]:
    the run is then the run of the fallback after the query, and the
    fallback opens /proc/self/fdinfo/<descriptor> whenever the handle has
    a descriptor value.  Any other failure comes back as the very same
    error after the query alone, and a successful query is followed by
    no call other than, for a program, further queries. *)
Theorem C1_fallback_exactly_on_EINVAL {FD : Type} (W : World FD) (fd : FD)
    (calls : list (event FD)) :
  (let after := calls ++ [CallMapInfo fd] in
   match bpfGetMapInfoByFD W calls fd with
   | inl err =>
     if errors_Is err EINVAL then
       newMapInfoFromFd W fd calls = newMapInfoFromProc W fd after
       /\ match FD_Value W fd with
          | inr raw =>
            exists more, callsOf (newMapInfoFromFd W fd calls)
                         = after ++ CallOpen (fdinfoPath raw) :: more
          | inl noValue => newMapInfoFromFd W fd calls = Returns (Err noValue) after
          end
     else newMapInfoFromFd W fd calls = Returns (Err err) after
   | inr info => exists mi, newMapInfoFromFd W fd calls = Returns (Ok mi) after
   end)
  /\
  (let after := calls ++ [CallProgInfo fd 10] in
   match bpfGetProgInfoByFD W calls fd 10 with
   | inl err =>
     if errors_Is err EINVAL then
       newProgramInfoFromFd W fd calls = newProgramInfoFromProc W fd after
       /\ match FD_Value W fd with
          | inr raw =>
            exists more, callsOf (newProgramInfoFromFd W fd calls)
                         = after ++ CallOpen (fdinfoPath raw) :: more
          | inl noValue =>
            exists e, newProgramInfoFromFd W fd calls = Returns (Err e) after
          end
     else newProgramInfoFromFd W fd calls = Returns (Err err) after
   | inr _ =>
     exists more,
       callsOf (newProgramInfoFromFd W fd calls) = after ++ more
       /\ Forall (fun ev => exists len, ev = CallProgInfo fd len) more
   end).
Proof.
  split; cbv zeta.
  - unfold newMapInfoFromFd. rewrite run_bind_call.
    destruct (bpfGetMapInfoByFD W calls fd) as [err|info].
    + destruct (errors_Is err EINVAL); [|reflexivity].
      split; [reflexivity|].
      rewrite newMapInfoFromProc_run.
      destruct (FD_Value W fd) as [noValue|raw] eqn:Hv.
      * rewrite (scanFdInfo_no_descriptor W _ _ _ _ Hv). reflexivity.
      * destruct (scanFdInfo_opens W fd mapFields (calls ++ [CallMapInfo fd]) raw Hv)
          as [more Hmore].
        exists more. rewrite <- Hmore.
        destruct (scanFdInfo W fd mapFields (calls ++ [CallMapInfo fd]))
          as [[[e|] fields] calls'|]; reflexivity.
    + eexists. reflexivity.
  - rewrite newProgramInfoFromFd_run. cbv zeta.
    destruct (bpfGetProgInfoByFD W calls fd 10) as [err|[info written]].
    + destruct (errors_Is err EINVAL); [|reflexivity].
      split; [reflexivity|].
      rewrite newProgramInfoFromProc_run.
      destruct (FD_Value W fd) as [noValue|raw] eqn:Hv.
      * rewrite (scanFdInfo_no_descriptor W _ _ _ _ Hv).
        destruct (Is (Some noValue) errMissingFields); eexists; reflexivity.
      * destruct (scanFdInfo_opens W fd progFields (calls ++ [CallProgInfo fd 10]) raw Hv)
          as [more Hmore].
        exists more. rewrite <- Hmore.
        destruct (scanFdInfo W fd progFields (calls ++ [CallProgInfo fd 10]))
          as [[e fields] calls'|]; [|reflexivity].
        destruct (Is e errMissingFields); [reflexivity|].
        destruct e; reflexivity.
    + destruct (defaultNumMaps <? bpfProgInfo.nr_map_ids info).
      * destruct (bpfGetProgInfoByFD W (calls ++ [CallProgInfo fd 10]) fd
                    (Z.to_nat (bpfProgInfo.nr_map_ids info)))
          as [err|[info2 written2]].
        -- eexists. split; [reflexivity|]. constructor; [eexists; reflexivity|constructor].
        -- rewrite programInfoOf_calls.
           eexists. split; [reflexivity|]. constructor; [eexists; reflexivity|constructor].
      * rewrite programInfoOf_calls. exists []. split; [now rewrite app_nil_r|constructor].
Qed.

(** C4. Let the structured query fail with [EINVAL], so that the fdinfo
    file is scanned.  If the scan for a program ends with an error that
    is [errMissingFields] for [errors.Is], [newProgramInfoFromFd] returns
    the unsupported-feature error with minimum version 4.10, which is not
    [errMissingFields] for [errors.Is].  Whatever error the scan for a map
    ends with, [newMapInfoFromFd] returns that same error: a
    missing-fields error stays one and is no unsupported-feature error. *)
Theorem C4_missing_fields_translation {FD : Type} (W : World FD) (fd : FD)
    (calls : list (event FD)) (progErr mapErr : error)
    (HprogQuery : bpfGetProgInfoByFD W calls fd 10 = inl progErr)
    (HprogEINVAL : errors_Is progErr EINVAL = true)
    (HmapQuery : bpfGetMapInfoByFD W calls fd = inl mapErr)
    (HmapEINVAL : errors_Is mapErr EINVAL = true) :
  (forall err fields calls',
      scanFdInfo W fd progFields (calls ++ [CallProgInfo fd 10])
      = Returns (Some err, fields) calls' ->
      errors_Is err errMissingFields = true ->
      newProgramInfoFromFd W fd calls
      = Returns (Err (UnsupportedFeatureError
                        "reading program info from /proc/self/fdinfo" (4, 10, 0)))
                calls'
      /\ errors_Is (UnsupportedFeatureError
                      "reading program info from /proc/self/fdinfo" (4, 10, 0))
                   errMissingFields = false)
  /\
  (forall err fields calls',
      scanFdInfo W fd mapFields (calls ++ [CallMapInfo fd])
      = Returns (Some err, fields) calls' ->
      newMapInfoFromFd W fd calls = Returns (Err err) calls'
      /\ (errors_Is err errMissingFields = true ->
          forall name v, err <> UnsupportedFeatureError name v)).
Proof.
  split.
  - intros err fields calls' Hscan Hmissing.
    split; [|reflexivity].
    rewrite newProgramInfoFromFd_run. cbv zeta.
    rewrite HprogQuery, HprogEINVAL, newProgramInfoFromProc_run, Hscan.
    simpl. rewrite Hmissing. reflexivity.
  - intros err fields calls' Hscan.
    split.
    + unfold newMapInfoFromFd. rewrite run_bind_call, HmapQuery, HmapEINVAL.
      rewrite newMapInfoFromProc_run, Hscan. reflexivity.
    + intros Hmissing name v ->. discriminate Hmissing.
Qed.

Lemma C4_witness :
  newProgramInfoFromFd (Examples.procWorld "") 3 []
  = Returns (Err (UnsupportedFeatureError
                    "reading program info from /proc/self/fdinfo" (4, 10, 0)))
      [CallProgInfo 3 10; CallOpen "/proc/self/fdinfo/3";
       CallClose "/proc/self/fdinfo/3"]
  /\ newMapInfoFromFd (Examples.procWorld "") 3 []
     = Returns (Err (wrapError "/proc/self/fdinfo/3" errMissingFields))
         [CallMapInfo 3; CallOpen "/proc/self/fdinfo/3";
          CallClose "/proc/self/fdinfo/3"].
Proof.
  destruct (C4_missing_fields_translation (Examples.procWorld "") 3 []
              (wrapError "can't get program info" EINVAL)
              (wrapError "can't get map info" EINVAL)
              eq_refl eq_refl eq_refl eq_refl) as [Hprog Hmap].
  split.
  - apply (Hprog (wrapError "/proc/self/fdinfo/3" errMissingFields) progFields).
    + vm_compute. reflexivity.
    + reflexivity.
  - apply (Hmap (wrapError "/proc/self/fdinfo/3" errMissingFields) mapFields).
    vm_compute. reflexivity.
Defined.

(** C5. [RunCount] and [Runtime] report (0, false) when the stats
    sub-record is absent, and (value, true) when it is present, whatever
    the counters hold: in particular (0, true) for counters that are
    zero.  The flag is decided by the presence of the sub-record alone. *)
Theorem C5_stats_availability (pi : ProgramInfo.t) :
  (ProgramInfo.stats pi = None ->
   ProgramInfo.RunCount pi = (0, false) /\ ProgramInfo.Runtime pi = (0, false))
  /\
  (forall st, ProgramInfo.stats pi = Some st ->
   ProgramInfo.RunCount pi = (runCount st, true)
   /\ ProgramInfo.Runtime pi = (runtime st, true))
  /\
  (ProgramInfo.stats pi = Some {| runtime := 0; runCount := 0 |} ->
   ProgramInfo.RunCount pi = (0, true) /\ ProgramInfo.Runtime pi = (0, true))
  /\
  (snd (ProgramInfo.RunCount pi) = true <-> ProgramInfo.stats pi <> None)
  /\
  (snd (ProgramInfo.Runtime pi) = true <-> ProgramInfo.stats pi <> None).
Proof.
  unfold ProgramInfo.RunCount, ProgramInfo.Runtime.
  destruct (ProgramInfo.stats pi) as [st|]; simpl;
    (split; [|split; [|split; [|split]]]).
  - discriminate.
  - intros st' [= <-]. split; reflexivity.
  - intros [= ->]. split; reflexivity.
  - split; [discriminate|reflexivity].
  - split; [discriminate|reflexivity].
  - split; reflexivity.
  - discriminate.
  - discriminate.
  - split; [discriminate|congruence].
  - split; [discriminate|congruence].
Qed.

Lemma C5_witness :
  let absent := {| ProgramInfo.Type_ := 6; ProgramInfo.id := 17;
                   ProgramInfo.Tag := "6162636465666768"; ProgramInfo.Name := "prog";
                   ProgramInfo.btf := 0; ProgramInfo.ids := None;
                   ProgramInfo.stats := None |} in
  let zero := {| ProgramInfo.Type_ := 6; ProgramInfo.id := 17;
                 ProgramInfo.Tag := "6162636465666768"; ProgramInfo.Name := "prog";
                 ProgramInfo.btf := 0; ProgramInfo.ids := Some [];
                 ProgramInfo.stats := Some {| runtime := 0; runCount := 0 |} |} in
  (ProgramInfo.RunCount absent = (0, false) /\ ProgramInfo.Runtime absent = (0, false))
  /\ (ProgramInfo.RunCount zero = (0, true) /\ ProgramInfo.Runtime zero = (0, true)).
Proof.
  cbv zeta. split.
  - apply C5_stats_availability. reflexivity.
  - apply C5_stats_availability. reflexivity.
Defined.

(** ** The program retriever on the structured path *)

Section StructuredPath.

Context {FD : Type}.
Variable W : World FD.
Implicit Types calls : list (event FD).

Lemma programInfoOf_in_range info mapIds calls :
  0 <= bpfProgInfo.nr_map_ids info <= Z.of_nat (length mapIds) ->
  programInfoOf W info mapIds calls
  = Returns
      (Ok (builtFrom W info (firstn (Z.to_nat (bpfProgInfo.nr_map_ids info)) mapIds)))
      calls.
Proof.
  intros Hn. unfold programInfoOf, bind. rewrite sliceTo_ok by exact Hn.
  reflexivity.
Qed.

Lemma programInfoOf_out_of_range info mapIds calls :
  Z.of_nat (length mapIds) < bpfProgInfo.nr_map_ids info ->
  programInfoOf W info mapIds calls
  = Panics "runtime error: slice bounds out of range" calls.
Proof.
  intros Hn. unfold programInfoOf, bind. rewrite sliceTo_panics by exact Hn.
  reflexivity.
Qed.

Lemma programInfoOf_returns info mapIds calls pi calls' :
  programInfoOf W info mapIds calls = Returns (Ok pi) calls' ->
  calls' = calls
  /\ 0 <= bpfProgInfo.nr_map_ids info <= Z.of_nat (length mapIds)
  /\ pi = builtFrom W info (firstn (Z.to_nat (bpfProgInfo.nr_map_ids info)) mapIds).
Proof.
  intros H.
  destruct (Z_lt_ge_dec (bpfProgInfo.nr_map_ids info) 0) as [Hneg|Hpos].
  - unfold programInfoOf, bind, sliceTo in H.
    destruct (bpfProgInfo.nr_map_ids info <? 0) eqn:E; [|lia].
    simpl in H. discriminate H.
  - destruct (Z_lt_ge_dec (Z.of_nat (length mapIds)) (bpfProgInfo.nr_map_ids info))
      as [Hbig|Hfit].
    + rewrite programInfoOf_out_of_range in H by exact Hbig. discriminate H.
    + rewrite programInfoOf_in_range in H by lia.
      injection H as <- <-. repeat split; lia.
Qed.

Lemma Duration_small (x : Z) : 0 <= x < 2 ^ 63 -> Duration x = x.
Proof.
  intros Hx. unfold Duration.
  rewrite Z.mod_small by lia. lia.
Qed.

(** The conversion loses nothing: the counter is the duration modulo
    2^64. *)
Lemma Duration_same_bits (x : Z) : 0 <= x < 2 ^ 64 -> Duration x mod 2 ^ 64 = x.
Proof.
  intros Hx. unfold Duration.
  rewrite Zminus_mod_idemp_l.
  replace (x + 2 ^ 63 - 2 ^ 63) with x by lia.
  apply Z.mod_small. exact Hx.
Qed.

Lemma firstn_fill (n len : nat) (written : list Z) :
  (n <= len)%nat -> (n <= length written)%nat ->
  firstn n (fill (make len) written) = firstn n written.
Proof.
  intros Hlen Hw. unfold fill. rewrite length_make.
  rewrite take_take, Nat.min_l by lia.
  rewrite take_app_le by lia. reflexivity.
Qed.

End StructuredPath.

(** C2 (amended). When the first query reports a count above the
    default capacity of ten, the retriever makes exactly one more query,
    with a buffer of exactly that count.  A failure of the second query
    is returned as it is.  When the second query succeeds and reports a
    count that fits the buffer, the related identifiers returned are the
    first that many of the buffer: their number is the count of the
    second query, and is the count of the first query, with the whole
    buffer returned, when both queries report the same. *)
Theorem C2_second_query {FD : Type} (W : World FD) (fd : FD)
    (calls : list (event FD)) (info1 : bpfProgInfo.t) (written1 : list Z)
    (Hfirst : bpfGetProgInfoByFD W calls fd 10 = inr (info1, written1))
    (Hmore : defaultNumMaps < bpfProgInfo.nr_map_ids info1) :
  let n := Z.to_nat (bpfProgInfo.nr_map_ids info1) in
  let calls2 := calls ++ [CallProgInfo fd 10; CallProgInfo fd n] in
  Z.of_nat n = bpfProgInfo.nr_map_ids info1
  /\ callsOf (newProgramInfoFromFd W fd calls) = calls2
  /\ match bpfGetProgInfoByFD W (calls ++ [CallProgInfo fd 10]) fd n with
     | inl err => newProgramInfoFromFd W fd calls = Returns (Err err) calls2
     | inr (info2, written2) =>
       let buffer := fill (make n) written2 in
       (0 <= bpfProgInfo.nr_map_ids info2 <= bpfProgInfo.nr_map_ids info1 ->
        exists pi sliced,
          newProgramInfoFromFd W fd calls = Returns (Ok pi) calls2
          /\ ProgramInfo.MapIDs pi = (Some sliced, true)
          /\ sliced = firstn (Z.to_nat (bpfProgInfo.nr_map_ids info2)) buffer
          /\ Z.of_nat (length sliced) = bpfProgInfo.nr_map_ids info2)
       /\
       (bpfProgInfo.nr_map_ids info2 = bpfProgInfo.nr_map_ids info1 ->
        exists pi,
          newProgramInfoFromFd W fd calls = Returns (Ok pi) calls2
          /\ ProgramInfo.MapIDs pi = (Some buffer, true)
          /\ Z.of_nat (length buffer) = bpfProgInfo.nr_map_ids info1)
     end.
Proof.
  cbv zeta. unfold defaultNumMaps in Hmore.
  assert (Hn : Z.of_nat (Z.to_nat (bpfProgInfo.nr_map_ids info1))
               = bpfProgInfo.nr_map_ids info1) by lia.
  rewrite newProgramInfoFromFd_run. cbv zeta. rewrite Hfirst.
  destruct (defaultNumMaps <? bpfProgInfo.nr_map_ids info1) eqn:E;
    [|unfold defaultNumMaps in E; lia].
  replace (calls ++ [CallProgInfo fd 10;
                     CallProgInfo fd (Z.to_nat (bpfProgInfo.nr_map_ids info1))])
    with ((calls ++ [CallProgInfo fd 10])
          ++ [CallProgInfo fd (Z.to_nat (bpfProgInfo.nr_map_ids info1))])
    by (rewrite <- app_assoc; reflexivity).
  destruct (bpfGetProgInfoByFD W (calls ++ [CallProgInfo fd 10]) fd
              (Z.to_nat (bpfProgInfo.nr_map_ids info1)))
    as [err|[info2 written2]].
  - split; [exact Hn|]. split; reflexivity.
  - split; [exact Hn|]. split; [apply programInfoOf_calls|].
    assert (Hlen : length (fill (make (Z.to_nat (bpfProgInfo.nr_map_ids info1)))
                             written2)
                   = Z.to_nat (bpfProgInfo.nr_map_ids info1))
      by (rewrite length_fill, length_make; reflexivity).
    split.
    + intros Hfit.
      rewrite programInfoOf_in_range by (rewrite Hlen; lia).
      eexists. eexists. split; [reflexivity|].
      split; [reflexivity|]. split; [reflexivity|].
      rewrite length_take, Hlen. lia.
    + intros Hsame.
      rewrite programInfoOf_in_range by (rewrite Hlen; lia).
      eexists. split; [reflexivity|].
      rewrite Hsame. split.
      * unfold ProgramInfo.MapIDs. simpl.
        rewrite firstn_all2 by (rewrite Hlen; lia). reflexivity.
      * rewrite Hlen. exact Hn.
Qed.

Lemma C2_witness :
  exists pi,
    newProgramInfoFromFd (Examples.progWorld [11; 11] 0) 3 []
    = Returns (Ok pi) [CallProgInfo 3 10; CallProgInfo 3 11]
    /\ ProgramInfo.MapIDs pi = (Some [1; 2; 3; 4; 5; 6; 7; 8; 9; 10; 11], true).
Proof.
  destruct (C2_second_query (Examples.progWorld [11; 11] 0) 3 []
              (Examples.progRecord 11 0) [1; 2; 3; 4; 5; 6; 7; 8; 9; 10]
              eq_refl eq_refl) as (_ & _ & H).
  destruct H as [_ Hsame].
  destruct (Hsame eq_refl) as (pi & Hrun & Hids & _).
  exists pi. split; [exact Hrun | exact Hids].
Defined.

(** C2, as stated, fails: the first query reports eleven, the second
    query succeeds and reports five, and the sequence returned has five
    identifiers, not eleven. *)
Lemma C2_counterexample :
  let W := Examples.progWorld [11; 5] 0 in
  exists info1 written1 info2 written2 pi,
    bpfGetProgInfoByFD W [] 3 10 = inr (info1, written1)
    /\ bpfProgInfo.nr_map_ids info1 = 11
    /\ bpfGetProgInfoByFD W [CallProgInfo 3 10] 3 11 = inr (info2, written2)
    /\ newProgramInfoFromFd W 3 []
       = Returns (Ok pi) [CallProgInfo 3 10; CallProgInfo 3 11]
    /\ ProgramInfo.MapIDs pi = (Some [1; 2; 3; 4; 5], true)
    /\ Z.of_nat (length [1; 2; 3; 4; 5]) <> bpfProgInfo.nr_map_ids info1.
Proof.
  cbv zeta. do 5 eexists.
  split; [reflexivity|]. split; [reflexivity|]. split; [reflexivity|].
  split; [vm_compute; reflexivity|]. split; [reflexivity|].
  vm_compute. discriminate.
Qed.

(** The struct literal is built exactly when the count of the last query
    is within the buffer; otherwise the slice expression panics. *)
Lemma programInfoOf_returns_iff {FD : Type} (W : World FD) info mapIds
    (calls : list (event FD)) :
  0 <= bpfProgInfo.nr_map_ids info ->
  (exists pi, programInfoOf W info mapIds calls = Returns (Ok pi) calls)
  <-> bpfProgInfo.nr_map_ids info <= Z.of_nat (length mapIds).
Proof.
  intros Hpos. split.
  - intros [pi Hrun]. apply programInfoOf_returns in Hrun. lia.
  - intros Hfit. eexists. apply programInfoOf_in_range. lia.
Qed.

(** C10. The count used for the final slice can exceed the length of
    the buffer handed to the last query: when the first query reports
    eleven and the second, made with a buffer of eleven, reports twelve,
    the slice [mapIds[:12]] of a buffer of eleven is out of range and
    the retriever panics. *)
Theorem C10_slice_out_of_range :
  let W := Examples.progWorld [11; 12] 0 in
  exists info1 written1 info2 written2,
    bpfGetProgInfoByFD W [] 3 10 = inr (info1, written1)
    /\ bpfProgInfo.nr_map_ids info1 = 11
    /\ bpfGetProgInfoByFD W [CallProgInfo 3 10] 3 11 = inr (info2, written2)
    /\ bpfProgInfo.nr_map_ids info2 = 12
    /\ Z.of_nat (length (fill (make 11) written2)) = 11
    /\ newProgramInfoFromFd W 3 []
       = Panics "runtime error: slice bounds out of range"
           [CallProgInfo 3 10; CallProgInfo 3 11].
Proof.
  cbv zeta. do 4 eexists.
  split; [reflexivity|]. split; [reflexivity|]. split; [reflexivity|].
  split; [reflexivity|]. split; [reflexivity|].
  vm_compute. reflexivity.
Qed.

(** C6 (amended). A [ProgramInfo] returned on the structured path is
    built from the record of the last query and the buffer that query
    filled.  Read back through the accessors it gives the type, the
    identifier (available iff positive), the hexadecimal text of the tag,
    the C string of the name, the BTF identifier (available iff
    positive), the first [nr_map_ids] identifiers of the buffer (always
    available), the run count (always available) and, always available,
    the run-time counter converted to a signed 64-bit duration, which is
    the counter itself when that is below 2^63. *)
Theorem C6_round_trip {FD : Type} (W : World FD) (fd : FD)
    (calls calls' : list (event FD)) (first : bpfProgInfo.t * list Z)
    (pi : ProgramInfo.t)
    (Hstructured : bpfGetProgInfoByFD W calls fd 10 = inr first)
    (Hrun : newProgramInfoFromFd W fd calls = Returns (Ok pi) calls') :
  exists before len info written,
    calls' = before ++ [CallProgInfo fd len]
    /\ bpfGetProgInfoByFD W before fd len = inr (info, written)
    /\ ProgramInfo.Type_ pi = bpfProgInfo.prog_type info
    /\ ProgramInfo.ID pi = (bpfProgInfo.id info, 0 <? bpfProgInfo.id info)
    /\ ProgramInfo.Tag pi = hex.EncodeToString (bpfProgInfo.tag info)
    /\ ProgramInfo.Name pi = CString W (bpfProgInfo.name info)
    /\ ProgramInfo.BTFID pi
       = (bpfProgInfo.btf_id info, 0 <? bpfProgInfo.btf_id info)
    /\ ProgramInfo.MapIDs pi
       = (Some (firstn (Z.to_nat (bpfProgInfo.nr_map_ids info))
                  (fill (make len) written)), true)
    /\ (bpfProgInfo.nr_map_ids info <= Z.of_nat (length written) ->
        ProgramInfo.MapIDs pi
        = (Some (firstn (Z.to_nat (bpfProgInfo.nr_map_ids info)) written), true))
    /\ ProgramInfo.RunCount pi = (bpfProgInfo.run_cnt info, true)
    /\ ProgramInfo.Runtime pi = (Duration (bpfProgInfo.run_time_ns info), true)
    /\ (0 <= bpfProgInfo.run_time_ns info < 2 ^ 63 ->
        ProgramInfo.Runtime pi = (bpfProgInfo.run_time_ns info, true)).
Proof.
  rewrite newProgramInfoFromFd_run in Hrun. cbv zeta in Hrun.
  rewrite Hstructured in Hrun. destruct first as [info1 written1].
  assert (Hbuilt : forall before len info written,
             programInfoOf W info (fill (make len) written)
               (before ++ [CallProgInfo fd len]) = Returns (Ok pi) calls' ->
             bpfGetProgInfoByFD W before fd len = inr (info, written) ->
             exists before len info written,
               calls' = before ++ [CallProgInfo fd len]
               /\ bpfGetProgInfoByFD W before fd len = inr (info, written)
               /\ ProgramInfo.Type_ pi = bpfProgInfo.prog_type info
               /\ ProgramInfo.ID pi = (bpfProgInfo.id info, 0 <? bpfProgInfo.id info)
               /\ ProgramInfo.Tag pi = hex.EncodeToString (bpfProgInfo.tag info)
               /\ ProgramInfo.Name pi = CString W (bpfProgInfo.name info)
               /\ ProgramInfo.BTFID pi
                  = (bpfProgInfo.btf_id info, 0 <? bpfProgInfo.btf_id info)
               /\ ProgramInfo.MapIDs pi
                  = (Some (firstn (Z.to_nat (bpfProgInfo.nr_map_ids info))
                             (fill (make len) written)), true)
               /\ (bpfProgInfo.nr_map_ids info <= Z.of_nat (length written) ->
                   ProgramInfo.MapIDs pi
                   = (Some (firstn (Z.to_nat (bpfProgInfo.nr_map_ids info)) written),
                      true))
               /\ ProgramInfo.RunCount pi = (bpfProgInfo.run_cnt info, true)
               /\ ProgramInfo.Runtime pi
                  = (Duration (bpfProgInfo.run_time_ns info), true)
               /\ (0 <= bpfProgInfo.run_time_ns info < 2 ^ 63 ->
                   ProgramInfo.Runtime pi = (bpfProgInfo.run_time_ns info, true))).
  { intros before len info written Hbuild Hquery.
    apply programInfoOf_returns in Hbuild.
    destruct Hbuild as (-> & Hrange & ->).
    rewrite length_fill, length_make in Hrange.
    exists before, len, info, written.
    split; [reflexivity|]. split; [exact Hquery|].
    do 6 (split; [reflexivity|]).
    split.
    - intros Hw. unfold ProgramInfo.MapIDs. simpl.
      rewrite firstn_fill by lia. reflexivity.
    - split; [reflexivity|]. split; [reflexivity|].
      intros Hsmall. unfold ProgramInfo.Runtime. simpl.
      rewrite Duration_small by exact Hsmall. reflexivity. }
  destruct (defaultNumMaps <? bpfProgInfo.nr_map_ids info1).
  - destruct (bpfGetProgInfoByFD W (calls ++ [CallProgInfo fd 10]) fd
                (Z.to_nat (bpfProgInfo.nr_map_ids info1)))
      as [err|[info2 written2]] eqn:Hsecond; [discriminate Hrun|].
    exact (Hbuilt _ _ _ _ Hrun Hsecond).
  - exact (Hbuilt _ _ _ _ Hrun Hstructured).
Qed.

Lemma C6_witness :
  exists pi,
    newProgramInfoFromFd (Examples.progWorld [3] 1500) 3 []
    = Returns (Ok pi) [CallProgInfo 3 10]
    /\ ProgramInfo.Type_ pi = 6
    /\ ProgramInfo.ID pi = (17, true)
    /\ ProgramInfo.Tag pi = "6162636465666768"
    /\ ProgramInfo.Name pi = "prog"
    /\ ProgramInfo.BTFID pi = (0, false)
    /\ ProgramInfo.MapIDs pi = (Some [1; 2; 3], true)
    /\ ProgramInfo.RunCount pi = (0, true)
    /\ ProgramInfo.Runtime pi = (1500, true).
Proof.
  destruct (newProgramInfoFromFd (Examples.progWorld [3] 1500) 3 [])
    as [[pi|e] calls'|msg calls'] eqn:Hrun; try (vm_compute in Hrun; discriminate Hrun).
  destruct (C6_round_trip (Examples.progWorld [3] 1500) 3 [] calls'
              (Examples.progRecord 3 1500, [1; 2; 3]) pi eq_refl Hrun)
    as (before & len & info & written & Hcalls & Hquery & HT & HI & HG & HN & HB
        & HM & _ & HC & HR & _).
  assert (Hpi : Returns (Ok pi) calls'
                = Returns (FD:=Z)
                    (Ok (builtFrom (Examples.progWorld [3] 1500)
                           (Examples.progRecord 3 1500) [1; 2; 3]))
                    [CallProgInfo 3 10])
    by (rewrite <- Hrun; vm_compute; reflexivity).
  injection Hpi as -> ->.
  exists (builtFrom (Examples.progWorld [3] 1500) (Examples.progRecord 3 1500) [1; 2; 3]).
  repeat split.
Defined.

(** C6, as stated, fails for the run time: a record whose run-time
    counter is 2^63 is read back as the duration -2^63. *)
Lemma C6_counterexample :
  let W := Examples.progWorld [3] (2 ^ 63) in
  exists info written pi,
    bpfGetProgInfoByFD W [] 3 10 = inr (info, written)
    /\ bpfProgInfo.run_time_ns info = 2 ^ 63
    /\ newProgramInfoFromFd W 3 [] = Returns (Ok pi) [CallProgInfo 3 10]
    /\ ProgramInfo.Runtime pi = (- 2 ^ 63, true)
    /\ ProgramInfo.Runtime pi <> (bpfProgInfo.run_time_ns info, true).
Proof.
  cbv zeta. do 3 eexists.
  split; [reflexivity|]. split; [reflexivity|].
  split; [vm_compute; reflexivity|]. split; [vm_compute; reflexivity|].
  vm_compute. discriminate.
Qed.

(** ** The field scanner *)

Section Scanner.

Implicit Types fields : gmap string dest.
Implicit Types lines : list string.

(** One turn of the loop, by the field the line carries. *)
Lemma scanLines_cons text lines fields scanned :
  scanLines (text :: lines) fields scanned
  = match lineField text with
    | Some (name, value) =>
      match fields !! name with
      | None => scanLines lines fields scanned
      | Some field =>
        match fmt.Sscanln value field with
        | (n, Some err, field') =>
          (<[name := field']> fields, inl (cantParseField name err))
        | (n, None, field') =>
          if negb (n =? 1)
          then (<[name := field']> fields, inl (cantParseFieldNil name))
          else scanLines lines (<[name := field']> fields) (S scanned)
        end
      end
    | None => scanLines lines fields scanned
    end.
Proof.
  unfold lineField. cbn [scanLines].
  destruct (strings.SplitN2 text (bytechr 9)) as [|part0 [|part1 [|part2 more]]];
    reflexivity.
Qed.

(** Lines without a tab and lines with a name that was not requested
    are skipped. *)
Lemma scanLines_skip text lines fields scanned :
  match lineField text with
  | Some (name, _) => fields !! name = None
  | None => True
  end ->
  scanLines (text :: lines) fields scanned = scanLines lines fields scanned.
Proof.
  intros H. rewrite scanLines_cons.
  destruct (lineField text) as [[name value]|]; [|reflexivity].
  rewrite H. reflexivity.
Qed.

(** A scan of one operand without error has scanned one operand. *)
Lemma doScan_no_error arg input n arg' :
  fmt.doScan arg input = (n, None, arg') -> n = 1.
Proof.
  unfold fmt.doScan.
  destruct (fmt.scanOne arg input) as [e|[a rest]]; congruence.
Qed.

(** Scanning keeps the kind of the destination. *)
Lemma doScan_kind arg input n err arg' :
  fmt.doScan arg input = (n, err, arg') -> isUint arg' = isUint arg.
Proof.
  unfold fmt.doScan, fmt.scanOne.
  destruct arg as [v|s].
  - destruct (fmt.scanUint input) as [e|[i rest]]; intros [= _ _ <-]; reflexivity.
  - destruct (fmt.convertString input) as [e|[str rest]]; intros [= _ _ <-];
      reflexivity.
Qed.

(** What is scanned depends on the kind of the destination only, not on
    the value it holds. *)
Lemma doScan_same_kind arg1 arg2 input n arg' :
  isUint arg1 = isUint arg2 ->
  fmt.doScan arg1 input = (n, None, arg') ->
  fmt.doScan arg2 input = (n, None, arg').
Proof.
  unfold fmt.doScan, fmt.scanOne.
  destruct arg1 as [v1|s1], arg2 as [v2|s2]; try discriminate; intros _.
  - destruct (fmt.scanUint input) as [e|[i rest]]; [discriminate|]. trivial.
  - destruct (fmt.convertString input) as [e|[str rest]]; [discriminate|]. trivial.
Qed.

Lemma parses_same_kind value arg1 arg2 :
  isUint arg1 = isUint arg2 -> parses value arg1 = true -> parses value arg2 = true.
Proof.
  unfold parses, fmt.Sscanln. intros Hkind.
  destruct (fmt.doScan arg1 (utf8.runes value)) as [[n [e|]] arg'] eqn:E;
    [discriminate|].
  intros _. rewrite (doScan_same_kind _ _ _ _ _ Hkind E). reflexivity.
Qed.

Lemma sameKinds_refl fields : sameKinds fields fields.
Proof. intros name. reflexivity. Qed.

Lemma sameKinds_trans fields1 fields2 fields3 :
  sameKinds fields1 fields2 -> sameKinds fields2 fields3 -> sameKinds fields1 fields3.
Proof. intros H12 H23 name. rewrite H12. apply H23. Qed.

Lemma sameKinds_insert fields name field field' :
  fields !! name = Some field -> isUint field' = isUint field ->
  sameKinds (<[name := field']> fields) fields.
Proof.
  intros Hname Hkind other.
  destruct (decide (name = other)) as [<-|Hne].
  - rewrite lookup_insert_eq, Hname. simpl. rewrite Hkind. reflexivity.
  - rewrite lookup_insert_ne by exact Hne. reflexivity.
Qed.

Lemma sameKinds_lookup fields1 fields2 name field2 :
  sameKinds fields1 fields2 -> fields2 !! name = Some field2 ->
  exists field1, fields1 !! name = Some field1 /\ isUint field1 = isUint field2.
Proof.
  intros Hsame Hname. specialize (Hsame name). rewrite Hname in Hsame.
  destruct (fields1 !! name) as [field1|]; [|discriminate].
  exists field1. split; [reflexivity|]. simpl in Hsame. congruence.
Qed.

Lemma sameKinds_none fields1 fields2 name :
  sameKinds fields1 fields2 -> fields2 !! name = None -> fields1 !! name = None.
Proof.
  intros Hsame Hname. specialize (Hsame name). rewrite Hname in Hsame.
  destruct (fields1 !! name); [discriminate|reflexivity].
Qed.

Lemma sameKinds_requestedNames fields1 fields2 lines :
  sameKinds fields1 fields2 ->
  requestedNames fields1 lines = requestedNames fields2 lines.
Proof.
  intros Hsame. induction lines as [|text lines IH]; [reflexivity|].
  cbn [requestedNames]. destruct (lineField text) as [[name value]|]; [|exact IH].
  destruct (fields2 !! name) as [field2|] eqn:E2.
  - destruct (sameKinds_lookup _ _ _ _ Hsame E2) as (field1 & -> & _).
    rewrite IH. reflexivity.
  - rewrite (sameKinds_none _ _ _ Hsame E2). exact IH.
Qed.

Lemma sameKinds_wellFormed fields1 fields2 text :
  sameKinds fields1 fields2 ->
  wellFormed fields2 text = true -> wellFormed fields1 text = true.
Proof.
  intros Hsame. unfold wellFormed.
  destruct (lineField text) as [[name value]|]; [|trivial].
  destruct (fields2 !! name) as [field2|] eqn:E2.
  - destruct (sameKinds_lookup _ _ _ _ Hsame E2) as (field1 & -> & Hkind).
    apply parses_same_kind. congruence.
  - rewrite (sameKinds_none _ _ _ Hsame E2). trivial.
Qed.

(** The scan changes neither the names nor the kinds of the
    destinations, and so not their number. *)
Lemma scanLines_sameKinds lines fields scanned :
  sameKinds (fst (scanLines lines fields scanned)) fields.
Proof.
  revert fields scanned.
  induction lines as [|text lines IH]; intros fields scanned.
  - apply sameKinds_refl.
  - rewrite scanLines_cons.
    destruct (lineField text) as [[name value]|]; [|apply IH].
    destruct (fields !! name) as [field|] eqn:Hname; [|apply IH].
    unfold fmt.Sscanln.
    destruct (fmt.doScan field (utf8.runes value)) as [[n err] field'] eqn:E.
    pose proof (sameKinds_insert _ _ _ _ Hname (doScan_kind _ _ _ _ _ E)) as Hins.
    destruct err as [err|]; [exact Hins|].
    destruct (negb (n =? 1)); [exact Hins|].
    eapply sameKinds_trans; [apply IH | exact Hins].
Qed.

Lemma sameKinds_size fields1 fields2 :
  sameKinds fields1 fields2 -> size fields1 = size fields2.
Proof.
  intros Hsame. rewrite <- !size_dom. f_equal.
  apply set_eq. intros name. rewrite !elem_of_dom.
  specialize (Hsame name).
  destruct (fields1 !! name), (fields2 !! name); try discriminate;
    split; intros [x Hx]; try discriminate; eauto.
Qed.

(** When every line is well formed, no line fails to parse and the count
    grows by one for every line that carries a requested name: lines are
    counted, not names. *)
Lemma scanLines_count lines fields0 fields scanned :
  sameKinds fields fields0 ->
  forallb (wellFormed fields0) lines = true ->
  snd (scanLines lines fields scanned)
  = inr (scanned + length (requestedNames fields0 lines))%nat.
Proof.
  revert fields scanned.
  induction lines as [|text lines IH]; intros fields scanned Hsame Hwell.
  - simpl. rewrite Nat.add_0_r. reflexivity.
  - cbn [forallb] in Hwell. apply andb_true_iff in Hwell as [Hthis Hrest].
    apply (sameKinds_wellFormed _ _ _ Hsame) in Hthis.
    rewrite scanLines_cons. cbn [requestedNames].
    unfold wellFormed in Hthis.
    destruct (lineField text) as [[name value]|]; [|apply IH; assumption].
    destruct (fields0 !! name) as [field0|] eqn:E0.
    + destruct (sameKinds_lookup _ _ _ _ Hsame E0) as (field & Hname & Hkind).
      rewrite Hname in Hthis |- *.
      unfold parses in Hthis. unfold fmt.Sscanln in *.
      destruct (fmt.doScan field (utf8.runes value)) as [[n [err|]] field'] eqn:E;
        [discriminate|].
      rewrite (doScan_no_error _ _ _ _ E). simpl negb. cbv iota.
      rewrite IH; [|
        eapply sameKinds_trans;
          [apply (sameKinds_insert _ _ _ _ Hname (doScan_kind _ _ _ _ _ E))
          |exact Hsame] | exact Hrest].
      f_equal. simpl. lia.
    + rewrite (sameKinds_none _ _ _ Hsame E0). apply IH; assumption.
Qed.

Lemma requestedNames_requested fields lines name :
  name ∈ requestedNames fields lines -> is_Some (fields !! name).
Proof.
  induction lines as [|text lines IH]; cbn [requestedNames].
  - intros H. inversion H.
  - destruct (lineField text) as [[key value]|]; [|exact IH].
    destruct (fields !! key) as [field|] eqn:E; [|exact IH].
    intros [->|H]%elem_of_cons; [rewrite E; eauto | exact (IH H)].
Qed.

Lemma requestedNames_carried fields lines name :
  name ∈ requestedNames fields lines ->
  existsb (carries name) lines = true.
Proof.
  induction lines as [|text lines IH]; cbn [requestedNames existsb].
  - intros H. inversion H.
  - unfold carries at 1.
    destruct (lineField text) as [[key value]|]; [|exact IH].
    destruct (fields !! key) as [field|].
    + intros [->|H]%elem_of_cons.
      * rewrite String.eqb_refl. reflexivity.
      * rewrite (IH H). apply orb_true_r.
    + intros H. rewrite (IH H). apply orb_true_r.
Qed.

(** Names that each come on one line at most, one requested name on no
    line: fewer lines count than names were requested. *)
Lemma requestedNames_short fields lines absent :
  is_Some (fields !! absent) ->
  existsb (carries absent) lines = false ->
  NoDup (requestedNames fields lines) ->
  (length (requestedNames fields lines) < size fields)%nat.
Proof.
  intros Hrequested Habsent Honce.
  rewrite <- (size_list_to_set (C:=gset string)) by exact Honce.
  rewrite <- (size_dom (D:=gset string)).
  apply subset_size. split.
  - intros name Hname%elem_of_list_to_set.
    apply elem_of_dom. exact (requestedNames_requested _ _ _ Hname).
  - intros Hsub.
    assert (Hin : absent ∈ (list_to_set (requestedNames fields lines) : gset string)).
    { apply Hsub, elem_of_dom. exact Hrequested. }
    apply elem_of_list_to_set, requestedNames_carried in Hin. congruence.
Qed.

(** The result of [scanFdInfoReader] when every line is well formed: the
    read error if there is one, and else the comparison of the number of
    lines that carry a requested name with the number of names. *)
(** [scanner.Err()] never returns [io.EOF] itself. *)
Lemma Scan_not_EOF r : snd (bufio.Scan r) <> Some EOF.
Proof.
  unfold bufio.Scan.
  destruct (bufio.scanFrom "" (data r) (readErr r)) as [lines [err|]]; simpl;
    [destruct err|]; discriminate.
Qed.

Lemma scanFdInfoReader_wellFormed r fields :
  forallb (wellFormed fields) (fst (bufio.Scan r)) = true ->
  fst (scanFdInfoReader r fields)
  = match snd (bufio.Scan r) with
    | Some readError => Some readError
    | None =>
      if Nat.eqb (length (requestedNames fields (fst (bufio.Scan r)))) (size fields)
      then None else Some errMissingFields
    end.
Proof.
  intros Hwell. unfold scanFdInfoReader.
  destruct (bufio.Scan r) as [lines scanErr]. simpl in *.
  pose proof (scanLines_count lines fields fields 0 (sameKinds_refl _) Hwell) as Hcount.
  pose proof (scanLines_sameKinds lines fields 0) as Hkinds.
  destruct (scanLines lines fields 0) as [fields' [err|scanned]];
    simpl in Hcount; [discriminate|].
  injection Hcount as ->. simpl.
  destruct scanErr; [reflexivity|].
  destruct (Nat.eqb _ _); reflexivity.
Qed.

End Scanner.

(** C3 (amended). Let at least one requested field name be on no line
    of the stream, let every line that carries a requested name have a
    value that scans into its destination, and let no requested name be
    on more than one line.  Then no line fails to parse, and the scanner
    fails: with the error of the stream if reading it fails, and with
    the missing-fields error otherwise.  The end of the stream is no
    failure of reading it: [scanner.Err()] is never [io.EOF].  Lines
    with other names and lines without a tab are not constrained: they
    are skipped. *)
Theorem C3_missing_fields (r : Reader) (fields : gmap string dest)
    (absent : string)
    (Hrequested : is_Some (fields !! absent))
    (Habsent : existsb (carries absent) (fst (bufio.Scan r)) = false)
    (Hwell : forallb (wellFormed fields) (fst (bufio.Scan r)) = true)
    (Honce : NoDup (requestedNames fields (fst (bufio.Scan r)))) :
  (exists scanned,
      snd (scanLines (fst (bufio.Scan r)) fields 0) = inr scanned
      /\ (scanned < size fields)%nat)
  /\ fst (scanFdInfoReader r fields)
     = Some (match snd (bufio.Scan r) with
             | Some readError => readError
             | None => errMissingFields
             end)
  /\ snd (bufio.Scan r) <> Some EOF.
Proof.
  pose proof (requestedNames_short _ _ _ Hrequested Habsent Honce) as Hshort.
  split; [|split].
  - eexists. split.
    + apply (scanLines_count _ fields fields 0 (sameKinds_refl _) Hwell).
    + simpl. exact Hshort.
  - rewrite (scanFdInfoReader_wellFormed _ _ Hwell).
    destruct (snd (bufio.Scan r)); [reflexivity|].
    destruct (Nat.eqb_spec (length (requestedNames fields (fst (bufio.Scan r))))
                (size fields)); [lia|reflexivity].
  - apply Scan_not_EOF.
Qed.

Lemma C3_witness :
  fst (scanFdInfoReader
         {| data := "prog_type:" +:+ TAB +:+ "1" +:+ LF
                    +:+ "a line without a tab" +:+ LF
                    +:+ "pos:" +:+ TAB +:+ "0 and more" +:+ LF;
            readErr := None |}
         progFields)
  = Some errMissingFields
  /\ fst (scanFdInfoReader
            {| data := "prog_type:" +:+ TAB +:+ "1" +:+ LF;
               readErr := Some EOF |}
            progFields)
     = Some errMissingFields.
Proof.
  split.
  - refine (proj1 (proj2 (C3_missing_fields _ progFields "prog_tag" _ _ _ _))).
    + vm_compute. eauto.
    + vm_compute. reflexivity.
    + vm_compute. reflexivity.
    + vm_compute. apply NoDup_singleton.
  - refine (proj1 (proj2 (C3_missing_fields _ progFields "prog_tag" _ _ _ _))).
    + vm_compute. eauto.
    + vm_compute. reflexivity.
    + vm_compute. reflexivity.
    + vm_compute. apply NoDup_singleton.
Defined.

(** C3, as stated, fails.  First stream: the requested name prog_tag is
    on no line and both lines have a well-formed value, yet the scan
    succeeds, because prog_type comes twice.  Second stream: prog_tag is
    on no line and the one line is well formed, yet the scanner fails
    with the read error of the stream, not with missing fields. *)
Lemma C3_counterexample :
  let text := "prog_type:" +:+ TAB +:+ "1" +:+ LF
              +:+ "prog_type:" +:+ TAB +:+ "2" +:+ LF in
  let r1 := {| data := text; readErr := None |} in
  let r2 := {| data := "prog_type:" +:+ TAB +:+ "1" +:+ LF;
               readErr := Some (Errno 5) |} in
  (is_Some (progFields !! "prog_tag")
   /\ existsb (carries "prog_tag") (fst (bufio.Scan r1)) = false
   /\ forallb (wellFormed progFields) (fst (bufio.Scan r1)) = true
   /\ fst (scanFdInfoReader r1 progFields) = None)
  /\
  (existsb (carries "prog_tag") (fst (bufio.Scan r2)) = false
   /\ forallb (wellFormed progFields) (fst (bufio.Scan r2)) = true
   /\ fst (scanFdInfoReader r2 progFields) = Some (Errno 5)).
Proof.
  cbv zeta. split.
  - split; [vm_compute; eauto|]. repeat split; vm_compute; reflexivity.
  - repeat split; vm_compute; reflexivity.
Qed.

(** C9. The completeness check counts lines, not names.  First stream:
    it is read to its end, every line is well formed, the requested
    name max_entries is on two lines and the requested name map_flags on
    none; the scan of the five map fields succeeds and the destination
    of map_flags still holds zero.  Second stream: it is read to its
    end, every line is well formed, both program fields are there and
    the requested name prog_type is there twice, one line more than
    there are fields; the scan fails with the missing-fields error.  In
    general, for a stream read to its end whose lines are well formed,
    the scan succeeds exactly when the number of lines that carry a
    requested name is the number of requested fields. *)
Theorem C9_lines_counted_with_multiplicity :
  (exists (r : Reader) (fields fields' : gmap string dest) (twice absent : string),
      snd (bufio.Scan r) = None
      /\ forallb (wellFormed fields) (fst (bufio.Scan r)) = true
      /\ is_Some (fields !! twice)
      /\ fields !! absent = Some (PtrUint32 0)
      /\ length (filter (fun text => carries twice text = true) (fst (bufio.Scan r)))
         = 2%nat
      /\ existsb (carries absent) (fst (bufio.Scan r)) = false
      /\ scanFdInfoReader r fields = (None, fields')
      /\ fields' !! absent = Some (PtrUint32 0))
  /\
  (exists (r : Reader) (fields : gmap string dest) (twice : string),
      snd (bufio.Scan r) = None
      /\ forallb (wellFormed fields) (fst (bufio.Scan r)) = true
      /\ is_Some (fields !! twice)
      /\ forallb (fun field => existsb (carries (fst field)) (fst (bufio.Scan r)))
           (map_to_list fields) = true
      /\ length (filter (fun text => carries twice text = true) (fst (bufio.Scan r)))
         = 2%nat
      /\ length (requestedNames fields (fst (bufio.Scan r))) = S (size fields)
      /\ fst (scanFdInfoReader r fields) = Some errMissingFields)
  /\
  (forall (r : Reader) (fields : gmap string dest),
      snd (bufio.Scan r) = None ->
      forallb (wellFormed fields) (fst (bufio.Scan r)) = true ->
      (fst (scanFdInfoReader r fields) = None
       <-> length (requestedNames fields (fst (bufio.Scan r))) = size fields)
      /\ (fst (scanFdInfoReader r fields) = Some errMissingFields
          <-> length (requestedNames fields (fst (bufio.Scan r))) <> size fields)).
Proof.
  split; [|split].
  - exists {| data := "map_type:" +:+ TAB +:+ "1" +:+ LF
                      +:+ "key_size:" +:+ TAB +:+ "4" +:+ LF
                      +:+ "value_size:" +:+ TAB +:+ "8" +:+ LF
                      +:+ "max_entries:" +:+ TAB +:+ "16" +:+ LF
                      +:+ "max_entries:" +:+ TAB +:+ "32" +:+ LF;
              readErr := None |},
      mapFields,
      (snd (scanFdInfoReader
              {| data := "map_type:" +:+ TAB +:+ "1" +:+ LF
                         +:+ "key_size:" +:+ TAB +:+ "4" +:+ LF
                         +:+ "value_size:" +:+ TAB +:+ "8" +:+ LF
                         +:+ "max_entries:" +:+ TAB +:+ "16" +:+ LF
                         +:+ "max_entries:" +:+ TAB +:+ "32" +:+ LF;
                 readErr := None |} mapFields)),
      "max_entries", "map_flags".
    split; [vm_compute; reflexivity|].
    split; [vm_compute; reflexivity|].
    split; [vm_compute; eauto|].
    split; [vm_compute; reflexivity|].
    split; [vm_compute; reflexivity|].
    split; [vm_compute; reflexivity|].
    split; [|vm_compute; reflexivity].
    match goal with |- ?x = (None, snd ?x) =>
      assert (Hfst : fst x = None) by (vm_compute; reflexivity);
      destruct x as [err fields']; simpl in Hfst; subst err; reflexivity
    end.
  - exists {| data := "prog_type:" +:+ TAB +:+ "1" +:+ LF
                      +:+ "prog_tag:" +:+ TAB +:+ "abc" +:+ LF
                      +:+ "prog_type:" +:+ TAB +:+ "1" +:+ LF;
              readErr := None |},
      progFields, "prog_type".
    split; [vm_compute; reflexivity|].
    split; [vm_compute; reflexivity|].
    split; [vm_compute; eauto|].
    repeat split; vm_compute; reflexivity.
  - intros r fields Hread Hwell.
    rewrite (scanFdInfoReader_wellFormed _ _ Hwell), Hread.
    destruct (Nat.eqb_spec (length (requestedNames fields (fst (bufio.Scan r))))
                (size fields)) as [Heq|Hne].
    + split; split; intros H; [exact Heq|reflexivity|discriminate H|contradiction].
    + split; split; intros H; [discriminate H|contradiction|exact Hne|reflexivity].
Qed.

Lemma C9_witness :
  let r := {| data := "prog_type:" +:+ TAB +:+ "1" +:+ LF
                      +:+ "prog_tag:" +:+ TAB +:+ "abc" +:+ LF
                      +:+ "prog_type:" +:+ TAB +:+ "1" +:+ LF;
              readErr := Some EOF |} in
  (fst (scanFdInfoReader r progFields) = None
   <-> length (requestedNames progFields (fst (bufio.Scan r))) = size progFields)
  /\ (fst (scanFdInfoReader r progFields) = Some errMissingFields
      <-> length (requestedNames progFields (fst (bufio.Scan r))) <> size progFields).
Proof.
  cbv zeta.
  refine (proj2 (proj2 C9_lines_counted_with_multiplicity) _ progFields _ _).
  - vm_compute. reflexivity.
  - vm_compute. reflexivity.
Defined.

(** ** Scanning one value: the first token and what follows it *)

Section FirstToken.

Implicit Types input tok rest ws : list rune.

Lemma blank_space r : blank r = true -> fmt.isSpace r = true /\ r <> 10.
Proof.
  unfold blank. intros [Hs Hn]%andb_true_iff. split; [exact Hs|].
  apply negb_true_iff, Z.eqb_neq in Hn. exact Hn.
Qed.

Lemma notSpace_not_newline r : fmt.isSpace r = false -> r <> 10 /\ r <> 13.
Proof. intros H. split; intros ->; discriminate H. Qed.

Lemma SkipSpace_blank ws input :
  forallb blank ws = true -> fmt.SkipSpace (ws ++ input) = fmt.SkipSpace input.
Proof.
  induction ws as [|r ws IH]; [reflexivity|].
  cbn [forallb]. intros [Hr Hws]%andb_true_iff.
  destruct (blank_space _ Hr) as [Hs Hn].
  cbn [app fmt.SkipSpace].
  destruct ((r =? 13) && fmt.peek [10] (ws ++ input)); [exact (IH Hws)|].
  apply Z.eqb_neq in Hn. rewrite Hn, Hs. exact (IH Hws).
Qed.

Lemma SkipSpace_token r input :
  fmt.isSpace r = false -> fmt.SkipSpace (r :: input) = inr (r :: input).
Proof.
  intros Hr. destruct (notSpace_not_newline _ Hr) as [H10 H13].
  cbn [fmt.SkipSpace].
  apply Z.eqb_neq in H10, H13. rewrite H10, H13, Hr. reflexivity.
Qed.

Lemma expectNewline_blank ws input :
  forallb blank ws = true ->
  fmt.expectNewline (ws ++ input) = fmt.expectNewline input.
Proof.
  induction ws as [|r ws IH]; [reflexivity|].
  cbn [forallb]. intros [Hr Hws]%andb_true_iff.
  destruct (blank_space _ Hr) as [Hs Hn].
  cbn [app fmt.expectNewline].
  apply Z.eqb_neq in Hn. rewrite Hn, Hs. exact (IH Hws).
Qed.

(** White space after the value is accepted. *)
Lemma expectNewline_trailing rest ws :
  forallb blank ws = true ->
  fmt.expectNewline (rest ++ ws) = fmt.expectNewline rest.
Proof.
  intros Hws. induction rest as [|r rest IH].
  - rewrite app_nil_l, <- (app_nil_r ws), expectNewline_blank by exact Hws.
    reflexivity.
  - cbn [app fmt.expectNewline]. rewrite IH. reflexivity.
Qed.

(** Anything else after the value is refused. *)
Lemma expectNewline_more rest ws c more :
  forallb fmt.notSpace rest = true ->
  forallb blank ws = true ->
  fmt.isSpace c = false ->
  fmt.expectNewline (rest ++ ws ++ c :: more)
  = Some (errorString "expected newline").
Proof.
  intros Hrest Hws Hc.
  destruct rest as [|r rest].
  - rewrite app_nil_l, expectNewline_blank by exact Hws.
    cbn [fmt.expectNewline].
    destruct (notSpace_not_newline _ Hc) as [H10 _].
    apply Z.eqb_neq in H10. rewrite H10, Hc. reflexivity.
  - cbn [forallb] in Hrest. apply andb_true_iff in Hrest as [Hr _].
    apply negb_true_iff in Hr.
    cbn [app fmt.expectNewline].
    destruct (notSpace_not_newline _ Hr) as [H10 _].
    apply Z.eqb_neq in H10. rewrite H10, Hr. reflexivity.
Qed.

Lemma indexRune_space digits c :
  noSpaceIn digits = true -> fmt.isSpace c = true -> fmt.indexRune digits c = false.
Proof.
  unfold noSpaceIn, fmt.indexRune. intros Hd Hc.
  destruct (existsb (Z.eqb c) digits) eqn:E; [|reflexivity].
  apply existsb_exists in E as (d & Hin & Heq).
  apply Z.eqb_eq in Heq. subst d.
  rewrite forallb_forall in Hd. specialize (Hd c Hin).
  unfold fmt.notSpace in Hd. rewrite Hc in Hd. discriminate Hd.
Qed.

Lemma indexRune_stops digits input :
  noSpaceIn digits = true -> stops input = true -> fmt.peek digits input = false.
Proof.
  intros Hd Hs. destruct input as [|c input]; [reflexivity|].
  exact (indexRune_space _ _ Hd Hs).
Qed.

Lemma acceptAll_app digits buf input after :
  noSpaceIn digits = true -> stops after = true ->
  fmt.acceptAll digits buf (input ++ after)
  = (fst (fmt.acceptAll digits buf input),
     snd (fmt.acceptAll digits buf input) ++ after).
Proof.
  intros Hd Hs. revert buf.
  induction input as [|r input IH]; intros buf.
  - cbn [app]. destruct after as [|c after]; [reflexivity|].
    cbn [fmt.acceptAll]. cbn [stops] in Hs.
    rewrite (indexRune_space _ _ Hd Hs). reflexivity.
  - cbn [app fmt.acceptAll].
    destruct (fmt.indexRune digits r); [apply IH|reflexivity].
Qed.

Lemma acceptAll_suffix digits buf input :
  exists taken, input = taken ++ snd (fmt.acceptAll digits buf input).
Proof.
  revert buf. induction input as [|r input IH]; intros buf.
  - exists []. reflexivity.
  - cbn [fmt.acceptAll].
    destruct (fmt.indexRune digits r).
    + destruct (IH (buf ++ [r])) as [taken Ht].
      exists (r :: taken). cbn [app]. rewrite <- Ht. reflexivity.
    + exists []. reflexivity.
Qed.

Lemma scanBasePrefix_noSpace input digits haveDigits buf rest :
  fmt.scanBasePrefix input = (digits, haveDigits, buf, rest) ->
  noSpaceIn digits = true /\ exists taken, input = taken ++ rest.
Proof.
  unfold fmt.scanBasePrefix.
  destruct input as [|r input].
  { intros [= <- <- <- <-]. split; [reflexivity|]. exists []. reflexivity. }
  destruct (Z.eq_dec r 48) as [->|Hne].
  - destruct input as [|c input].
    + intros [= <- <- <- <-]. split; [reflexivity|]. exists [48]. reflexivity.
    + destruct (fmt.indexRune [98; 66] c);
        [intros [= <- <- <- <-]; split; [reflexivity|]; exists [48; c]; reflexivity|].
      destruct (fmt.indexRune [111; 79] c);
        [intros [= <- <- <- <-]; split; [reflexivity|]; exists [48; c]; reflexivity|].
      destruct (fmt.indexRune [120; 88] c);
        [intros [= <- <- <- <-]; split; [reflexivity|]; exists [48; c]; reflexivity|].
      intros [= <- <- <- <-]. split; [reflexivity|]. exists [48]. reflexivity.
  - assert (E : match r with 48 => true | _ => false end = false).
    { destruct r as [|p|p]; try reflexivity.
      repeat (destruct p as [p|p|]; try reflexivity). congruence. }
    destruct r as [|p|p]; try (intros [= <- <- <- <-]; split; [reflexivity|];
                                exists []; reflexivity).
    repeat (destruct p as [p|p|];
            try (intros [= <- <- <- <-]; split; [reflexivity|];
                 exists []; reflexivity)).
    congruence.
Qed.

Lemma scanBasePrefix_app input after :
  input <> [] -> stops after = true ->
  fmt.scanBasePrefix (input ++ after)
  = let '(digits, haveDigits, buf, rest) := fmt.scanBasePrefix input in
    (digits, haveDigits, buf, rest ++ after).
Proof.
  intros Hne Hs. unfold fmt.scanBasePrefix.
  destruct input as [|r input]; [congruence|]. cbn [app].
  destruct r as [|p|p]; try reflexivity.
  repeat (destruct p as [p|p|]; try reflexivity).
  destruct input as [|c input].
  - cbn [app]. destruct after as [|a after]; [reflexivity|].
    cbn [stops] in Hs.
    rewrite (indexRune_space [98; 66] _ eq_refl Hs),
      (indexRune_space [111; 79] _ eq_refl Hs),
      (indexRune_space [120; 88] _ eq_refl Hs). reflexivity.
  - cbn [app].
    destruct (fmt.indexRune [98; 66] c); [reflexivity|].
    destruct (fmt.indexRune [111; 79] c); [reflexivity|].
    destruct (fmt.indexRune [120; 88] c); reflexivity.
Qed.

End FirstToken.

Section OneValue.

Implicit Types input tok rest ws after : list rune.

Lemma scanBasePrefix_no_digit input digits buf rest :
  fmt.scanBasePrefix input = (digits, false, buf, rest) -> rest = input.
Proof.
  unfold fmt.scanBasePrefix.
  destruct input as [|r input]; [intros [= _ _ <-]; reflexivity|].
  destruct r as [|p|p]; try (intros [= _ _ <-]; reflexivity).
  repeat (destruct p as [p|p|]; try (intros [= _ _ <-]; reflexivity)).
  destruct input as [|c input]; [discriminate|].
  destruct (fmt.indexRune [98; 66] c); [discriminate|].
  destruct (fmt.indexRune [111; 79] c); [discriminate|].
  destruct (fmt.indexRune [120; 88] c); discriminate.
Qed.

Lemma scanNumber_app digits haveDigits buf input after :
  noSpaceIn digits = true -> stops after = true ->
  haveDigits = true \/ input <> [] ->
  fmt.scanNumber digits haveDigits buf (input ++ after)
  = match fmt.scanNumber digits haveDigits buf input with
    | inl e => inl e
    | inr (tok, rest) => inr (tok, rest ++ after)
    end.
Proof.
  intros Hd Hs Hcase. unfold fmt.scanNumber.
  destruct haveDigits.
  - rewrite (acceptAll_app _ _ _ _ Hd Hs).
    destruct (fmt.acceptAll digits buf input). reflexivity.
  - destruct Hcase as [|Hne]; [discriminate|].
    destruct input as [|r input]; [congruence|]. cbn [app].
    destruct (fmt.indexRune digits r); [|reflexivity].
    rewrite (acceptAll_app _ _ _ _ Hd Hs).
    destruct (fmt.acceptAll digits (buf ++ [r]) input). reflexivity.
Qed.

Lemma scanNumber_suffix digits haveDigits buf input tok rest :
  fmt.scanNumber digits haveDigits buf input = inr (tok, rest) ->
  exists taken, input = taken ++ rest.
Proof.
  unfold fmt.scanNumber. destruct haveDigits.
  - intros [= H].
    destruct (acceptAll_suffix digits buf input) as [taken Ht].
    rewrite H in Ht. exists taken. exact Ht.
  - destruct input as [|r input]; [discriminate|].
    destruct (fmt.indexRune digits r); [|discriminate].
    intros [= H].
    destruct (acceptAll_suffix digits (buf ++ [r]) input) as [taken Ht].
    rewrite H in Ht. exists (r :: taken). cbn [app snd] in *.
    rewrite <- Ht. reflexivity.
Qed.

(** What follows the token, white space first, plays no part in the scan
    of an unsigned integer. *)
Lemma scanUint_app ws tok after :
  forallb blank ws = true -> forallb fmt.notSpace tok = true -> tok <> [] ->
  stops after = true ->
  fmt.scanUint (ws ++ tok ++ after)
  = match fmt.scanUint tok with
    | inl e => inl e
    | inr (i, rest) => inr (i, rest ++ after)
    end.
Proof.
  intros Hws Htok Hne Hs.
  destruct tok as [|r tok]; [congruence|].
  cbn [forallb] in Htok. apply andb_true_iff in Htok as [Hr _].
  apply negb_true_iff in Hr.
  unfold fmt.scanUint.
  rewrite (SkipSpace_blank _ _ Hws). cbn [app].
  rewrite !(SkipSpace_token _ _ Hr).
  change (r :: tok ++ after) with ((r :: tok) ++ after).
  rewrite (scanBasePrefix_app (r :: tok) after) by (congruence || exact Hs).
  destruct (fmt.scanBasePrefix (r :: tok)) as [[[digits haveDigits] buf] input]
    eqn:Eprefix.
  destruct (scanBasePrefix_noSpace _ _ _ _ _ Eprefix) as [Hd _].
  rewrite (scanNumber_app _ _ _ _ _ Hd Hs).
  - destruct (fmt.scanNumber digits haveDigits buf input) as [e|[number rest]];
      [reflexivity|].
    destruct (strconv.ParseUint number) as [i [e|]]; [reflexivity|].
    destruct (i mod 2 ^ 32 =? i); reflexivity.
  - destruct haveDigits; [left; reflexivity|right].
    rewrite (scanBasePrefix_no_digit _ _ _ _ Eprefix). congruence.
Qed.

Lemma scanUint_suffix r tok i rest :
  fmt.isSpace r = false ->
  fmt.scanUint (r :: tok) = inr (i, rest) ->
  exists taken, r :: tok = taken ++ rest.
Proof.
  intros Hr. unfold fmt.scanUint. rewrite (SkipSpace_token _ _ Hr).
  destruct (fmt.scanBasePrefix (r :: tok)) as [[[digits haveDigits] buf] input]
    eqn:Eprefix.
  destruct (scanBasePrefix_noSpace _ _ _ _ _ Eprefix) as [_ [taken1 H1]].
  destruct (fmt.scanNumber digits haveDigits buf input) as [e|[number rest']]
    eqn:Enumber; [discriminate|].
  destruct (scanNumber_suffix _ _ _ _ _ _ Enumber) as [taken2 H2].
  destruct (strconv.ParseUint number) as [i' [e|]]; [discriminate|].
  destruct (i' mod 2 ^ 32 =? i'); [|discriminate].
  intros [= _ <-]. exists (taken1 ++ taken2).
  rewrite H1, H2, app_assoc. reflexivity.
Qed.

Lemma token_app tok after :
  forallb fmt.notSpace tok = true -> stops after = true ->
  fmt.token (tok ++ after) = (tok, after).
Proof.
  intros Htok Hs. induction tok as [|r tok IH].
  - cbn [app]. destruct after as [|c after]; [reflexivity|].
    cbn [fmt.token stops] in *. unfold fmt.notSpace. rewrite Hs. reflexivity.
  - cbn [forallb] in Htok. apply andb_true_iff in Htok as [Hr Htok].
    cbn [app fmt.token]. rewrite Hr, (IH Htok). reflexivity.
Qed.

(** A string destination takes the first token as it is. *)
Lemma convertString_app ws tok after :
  forallb blank ws = true -> forallb fmt.notSpace tok = true -> tok <> [] ->
  stops after = true ->
  fmt.convertString (ws ++ tok ++ after) = inr (utf8.encode tok, after).
Proof.
  intros Hws Htok Hne Hs.
  unfold fmt.convertString. rewrite (SkipSpace_blank _ _ Hws).
  destruct tok as [|r tok]; [congruence|].
  assert (Hr : fmt.isSpace r = false).
  { cbn [forallb] in Htok. apply andb_true_iff in Htok as [Hr _].
    apply negb_true_iff in Hr. exact Hr. }
  cbn [app]. rewrite (SkipSpace_token _ _ Hr), (SkipSpace_token _ _ Hr).
  change (r :: tok ++ after) with ((r :: tok) ++ after).
  rewrite (token_app _ _ Htok Hs). reflexivity.
Qed.

Lemma scanOne_app arg ws tok after :
  forallb blank ws = true -> forallb fmt.notSpace tok = true -> tok <> [] ->
  stops after = true ->
  fmt.scanOne arg (ws ++ tok ++ after)
  = match fmt.scanOne arg tok with
    | inl e => inl e
    | inr (arg', rest) => inr (arg', rest ++ after)
    end.
Proof.
  intros Hws Htok Hne Hs. unfold fmt.scanOne. destruct arg as [v|s].
  - rewrite (scanUint_app _ _ _ Hws Htok Hne Hs).
    destruct (fmt.scanUint tok) as [e|[i rest]]; reflexivity.
  - rewrite (convertString_app _ _ _ Hws Htok Hne Hs).
    pose proof (convertString_app [] tok [] eq_refl Htok Hne eq_refl) as Halone.
    cbn [app] in Halone. rewrite app_nil_r in Halone. rewrite Halone.
    reflexivity.
Qed.

(** What a scan leaves of a token is part of the token: no white space. *)
Lemma scanOne_rest arg tok arg' rest :
  forallb fmt.notSpace tok = true -> tok <> [] ->
  fmt.scanOne arg tok = inr (arg', rest) ->
  forallb fmt.notSpace rest = true.
Proof.
  intros Htok Hne. unfold fmt.scanOne. destruct arg as [v|s].
  - destruct (fmt.scanUint tok) as [e|[i rest']] eqn:E; [discriminate|].
    intros [= _ <-].
    destruct tok as [|r tok]; [congruence|].
    assert (Hr : fmt.isSpace r = false).
    { cbn [forallb] in Htok. apply andb_true_iff in Htok as [Hr _].
      apply negb_true_iff in Hr. exact Hr. }
    destruct (scanUint_suffix _ _ _ _ Hr E) as [taken Ht].
    rewrite Ht, forallb_app in Htok. apply andb_true_iff in Htok as [_ H].
    exact H.
  - pose proof (convertString_app [] tok [] eq_refl Htok Hne eq_refl) as Halone.
    cbn [app] in Halone. rewrite app_nil_r in Halone. rewrite Halone.
    intros [= _ <-]. reflexivity.
Qed.

(** The scan of one value from white space, a token, and what follows
    it. *)
Lemma doScan_app arg ws tok after :
  forallb blank ws = true -> forallb fmt.notSpace tok = true -> tok <> [] ->
  stops after = true ->
  fmt.doScan arg (ws ++ tok ++ after)
  = match fmt.scanOne arg tok with
    | inl e => (0, Some e, arg)
    | inr (arg', rest) => (1, fmt.expectNewline (rest ++ after), arg')
    end.
Proof.
  intros Hws Htok Hne Hs. unfold fmt.doScan.
  rewrite (scanOne_app _ _ _ _ Hws Htok Hne Hs).
  destruct (fmt.scanOne arg tok) as [e|[arg' rest]]; reflexivity.
Qed.

(** White space around the token is ignored. *)
Lemma doScan_padded arg ws1 tok ws2 :
  forallb blank ws1 = true -> forallb fmt.notSpace tok = true -> tok <> [] ->
  forallb blank ws2 = true ->
  fmt.doScan arg (ws1 ++ tok ++ ws2) = fmt.doScan arg tok.
Proof.
  intros Hws1 Htok Hne Hws2.
  assert (Hs : stops ws2 = true).
  { destruct ws2 as [|c ws2]; [reflexivity|].
    cbn [forallb] in Hws2. apply andb_true_iff in Hws2 as [Hc _].
    exact (proj1 (blank_space _ Hc)). }
  rewrite (doScan_app _ _ _ _ Hws1 Htok Hne Hs).
  unfold fmt.doScan.
  destruct (fmt.scanOne arg tok) as [e|[arg' rest]]; [reflexivity|].
  rewrite (expectNewline_trailing _ _ Hws2). reflexivity.
Qed.

(** A second token is an error. *)
Lemma doScan_second_token arg ws1 tok ws2 c more :
  forallb blank ws1 = true -> forallb fmt.notSpace tok = true -> tok <> [] ->
  forallb blank ws2 = true -> ws2 <> [] -> fmt.isSpace c = false ->
  exists n err arg',
    fmt.doScan arg (ws1 ++ tok ++ ws2 ++ c :: more) = (n, Some err, arg').
Proof.
  intros Hws1 Htok Hne Hws2 Hne2 Hc.
  assert (Hs : stops (ws2 ++ c :: more) = true).
  { destruct ws2 as [|b ws2]; [congruence|].
    cbn [forallb] in Hws2. apply andb_true_iff in Hws2 as [Hb _].
    exact (proj1 (blank_space _ Hb)). }
  rewrite (doScan_app _ _ _ _ Hws1 Htok Hne Hs).
  destruct (fmt.scanOne arg tok) as [e|[arg' rest]] eqn:E.
  - eauto.
  - rewrite (expectNewline_more _ _ _ _ (scanOne_rest _ _ _ _ Htok Hne E) Hws2 Hc).
    eauto.
Qed.

End OneValue.

(** ** Decimal numerals *)

Section Decimal.

Implicit Types digits : list rune.

Lemma isDigit_range d : strconv.isDigit d = true -> 48 <= d <= 57.
Proof. unfold strconv.isDigit. lia. Qed.

Lemma isDigit_accepted d :
  strconv.isDigit d = true ->
  fmt.indexRune (fmt.decimalDigits ++ fmt.underscore) d = true.
Proof.
  intros Hd%isDigit_range.
  assert (Hcases : d = 48 \/ d = 49 \/ d = 50 \/ d = 51 \/ d = 52 \/ d = 53
                   \/ d = 54 \/ d = 55 \/ d = 56 \/ d = 57) by lia.
  repeat (destruct Hcases as [->|Hcases]; [reflexivity|]). subst d. reflexivity.
Qed.

Lemma isDigit_notSpace d : strconv.isDigit d = true -> fmt.isSpace d = false.
Proof.
  intros Hd%isDigit_range.
  assert (Hcases : d = 48 \/ d = 49 \/ d = 50 \/ d = 51 \/ d = 52 \/ d = 53
                   \/ d = 54 \/ d = 55 \/ d = 56 \/ d = 57) by lia.
  repeat (destruct Hcases as [->|Hcases]; [reflexivity|]). subst d. reflexivity.
Qed.

Lemma acceptAll_digits buf digits :
  forallb strconv.isDigit digits = true ->
  fmt.acceptAll (fmt.decimalDigits ++ fmt.underscore) buf digits
  = (buf ++ digits, []).
Proof.
  revert buf. induction digits as [|d digits IH]; intros buf Hall.
  - rewrite app_nil_r. reflexivity.
  - cbn [forallb] in Hall. apply andb_true_iff in Hall as [Hd Hall].
    cbn [fmt.acceptAll]. rewrite (isDigit_accepted _ Hd), (IH _ Hall).
    rewrite <- app_assoc. reflexivity.
Qed.

Lemma decimalFrom_grows n digits :
  0 <= n -> forallb strconv.isDigit digits = true -> n <= decimalFrom n digits.
Proof.
  revert n. induction digits as [|d digits IH]; intros n Hn Hall.
  - unfold decimalFrom. simpl. lia.
  - cbn [forallb] in Hall. apply andb_true_iff in Hall as [Hd Hall].
    apply isDigit_range in Hd.
    unfold decimalFrom in *. cbn [fold_left].
    specialize (IH (n * 10 + (d - 48)) ltac:(lia) Hall). lia.
Qed.

(** The digit loop of [ParseUint] in base ten computes the decimal
    value as long as that stays below 2^32. *)
Lemma digitLoop_decimal s0 digits n :
  0 <= n -> forallb strconv.isDigit digits = true ->
  decimalFrom n digits < 2 ^ 32 ->
  strconv.digitLoop s0 10 digits n false = (decimalFrom n digits, None).
Proof.
  revert n. induction digits as [|d digits IH]; intros n Hn Hall Hsmall.
  - reflexivity.
  - cbn [forallb] in Hall. apply andb_true_iff in Hall as [Hd Hall].
    pose proof (isDigit_range _ Hd) as Hrange.
    assert (Hnext : n * 10 + (d - 48) < 2 ^ 32).
    { pose proof (decimalFrom_grows (n * 10 + (d - 48)) digits ltac:(lia) Hall).
      unfold decimalFrom in *. cbn [fold_left] in Hsmall. lia. }
    cbn [strconv.digitLoop].
    destruct (d =? 95) eqn:E95; [apply Z.eqb_eq in E95; lia|].
    rewrite Hd.
    destruct (10 <=? d - 48) eqn:Ebase; [apply Z.leb_le in Ebase; lia|].
    assert (Hcut : (strconv.maxUint64 / 10 + 1 <=? n) = false).
    { apply Z.leb_gt. unfold strconv.maxUint64.
      change (2 ^ 64 - 1) with 18446744073709551615.
      change (18446744073709551615 / 10) with 1844674407370955161.
      change (2 ^ 32) with 4294967296 in Hnext. lia. }
    rewrite Hcut.
    change (2 ^ 32) with 4294967296 in Hnext.
    rewrite (Z.mod_small (n * 10)) by (change (2 ^ 64) with 18446744073709551616; lia).
    rewrite (Z.mod_small (n * 10 + (d - 48)))
      by (change (2 ^ 64) with 18446744073709551616; lia).
    destruct (n * 10 + (d - 48) <? n * 10) eqn:E1; [apply Z.ltb_lt in E1; lia|].
    destruct (strconv.maxUint64 <? n * 10 + (d - 48)) eqn:E2.
    { apply Z.ltb_lt in E2. unfold strconv.maxUint64 in E2.
      change (2 ^ 64 - 1) with 18446744073709551615 in E2. lia. }
    cbn [orb].
    rewrite (IH (n * 10 + (d - 48)) ltac:(lia) Hall);
      [reflexivity|].
    unfold decimalFrom in *. cbn [fold_left] in Hsmall. exact Hsmall.
Qed.

(** A plain decimal numeral below 2^32 scans to the number it stands
    for, and nothing of it is left. *)
Lemma scanUint_decimal digits :
  isDecimal digits = true -> decimalValue digits < 2 ^ 32 ->
  fmt.scanUint digits = inr (decimalValue digits, []).
Proof.
  unfold isDecimal. intros [Hall Hshape]%andb_true_iff Hsmall.
  destruct digits as [|first digits]; [discriminate|].
  pose proof Hall as Hall'.
  cbn [forallb] in Hall'. apply andb_true_iff in Hall' as [Hfirst Hrest].
  unfold fmt.scanUint.
  rewrite (SkipSpace_token _ _ (isDigit_notSpace _ Hfirst)).
  destruct (Z.eq_dec first 48) as [->|Hne].
  - destruct digits as [|second digits]; [reflexivity|]. discriminate Hshape.
  - assert (Hprefix : fmt.scanBasePrefix (first :: digits)
                      = (fmt.decimalDigits ++ fmt.underscore, false, [],
                         first :: digits)).
    { unfold fmt.scanBasePrefix.
      destruct first as [|p|p]; try reflexivity.
      repeat (destruct p as [p|p|]; try reflexivity). congruence. }
    rewrite Hprefix. unfold fmt.scanNumber.
    rewrite (isDigit_accepted _ Hfirst), (acceptAll_digits _ _ Hrest).
    cbn [app].
    assert (Hparse : strconv.ParseUint (first :: digits)
                     = (decimalValue (first :: digits), None)).
    { unfold strconv.ParseUint.
      assert (Hloop : strconv.digitLoop (first :: digits) 10 (first :: digits) 0 false
                      = (decimalValue (first :: digits), None))
        by (apply digitLoop_decimal; [lia | exact Hall | exact Hsmall]).
      destruct first as [|p|p]; try exact Hloop.
      repeat (destruct p as [p|p|]; try exact Hloop). congruence. }
    rewrite Hparse.
    assert (Hpos : 0 <= decimalValue (first :: digits))
      by (apply (decimalFrom_grows 0 _ ltac:(lia) Hall)).
    rewrite Z.mod_small by lia. rewrite Z.eqb_refl. reflexivity.
Qed.

Lemma parses_token value s ws1 tok ws2 :
  utf8.runes value = ws1 ++ tok ++ ws2 ->
  forallb blank ws1 = true -> forallb fmt.notSpace tok = true -> tok <> [] ->
  forallb blank ws2 = true ->
  parses value (PtrString s) = true.
Proof.
  intros Hrunes Hws1 Htok Hne Hws2. unfold parses, fmt.Sscanln.
  rewrite Hrunes, (doScan_padded _ _ _ _ Hws1 Htok Hne Hws2).
  unfold fmt.doScan, fmt.scanOne.
  pose proof (convertString_app [] tok [] eq_refl Htok Hne eq_refl) as Halone.
  cbn [app] in Halone. rewrite app_nil_r in Halone. rewrite Halone.
  reflexivity.
Qed.

Lemma Sscanln_decimal value digits v :
  utf8.runes value = digits ->
  isDecimal digits = true -> decimalValue digits < 2 ^ 32 ->
  fmt.Sscanln value (PtrUint32 v) = (1, None, PtrUint32 (decimalValue digits)).
Proof.
  intros Hrunes Hdec Hsmall.
  unfold fmt.Sscanln, fmt.doScan, fmt.scanOne.
  rewrite Hrunes, (scanUint_decimal _ Hdec Hsmall). reflexivity.
Qed.

Lemma parses_decimal value v :
  isDecimal (utf8.runes value) = true -> decimalValue (utf8.runes value) < 2 ^ 32 ->
  parses value (PtrUint32 v) = true.
Proof.
  intros Hdec Hsmall. unfold parses.
  rewrite (Sscanln_decimal value _ v eq_refl Hdec Hsmall). reflexivity.
Qed.

End Decimal.

(** ** What the fallback reads from the file *)

Section LastLine.

Implicit Types fields : gmap string dest.
Implicit Types lines : list string.

Lemma carries_false text name key value :
  lineField text = Some (key, value) -> carries name text = false -> key <> name.
Proof.
  unfold carries. intros ->. apply String.eqb_neq.
Qed.

(** A destination whose name is on no line keeps its value. *)
Lemma scanLines_untouched lines fields scanned name :
  existsb (carries name) lines = false ->
  fst (scanLines lines fields scanned) !! name = fields !! name.
Proof.
  revert fields scanned.
  induction lines as [|text lines IH]; intros fields scanned Hnone; [reflexivity|].
  cbn [existsb] in Hnone. apply orb_false_iff in Hnone as [Hthis Hrest].
  rewrite scanLines_cons.
  destruct (lineField text) as [[key value]|] eqn:Hline; [|apply IH, Hrest].
  pose proof (carries_false _ _ _ _ Hline Hthis) as Hne.
  destruct (fields !! key) as [field|]; [|apply IH, Hrest].
  destruct (fmt.Sscanln value field) as [[n [err|]] field'].
  - simpl. apply lookup_insert_ne, Hne.
  - destruct (negb (n =? 1)).
    + simpl. apply lookup_insert_ne, Hne.
    + rewrite IH by exact Hrest. apply lookup_insert_ne, Hne.
Qed.

(** After a scan without a parse error a destination holds what the
    last line with its name scans to. *)
Lemma scanLines_last before text after fields scanned name value field
    field0 n0 scannedValue count :
  snd (scanLines (before ++ text :: after) fields scanned) = inr count ->
  lineField text = Some (name, value) ->
  fields !! name = Some field ->
  existsb (carries name) after = false ->
  isUint field0 = isUint field ->
  fmt.Sscanln value field0 = (n0, None, scannedValue) ->
  fst (scanLines (before ++ text :: after) fields scanned) !! name
  = Some scannedValue.
Proof.
  revert fields scanned field.
  induction before as [|line before IH];
    intros fields scanned field Hok Hline Hname Hlater Hkind Hscan.
  - cbn [app] in *. rewrite scanLines_cons in *. rewrite Hline, Hname in *.
    unfold fmt.Sscanln in *.
    rewrite (doScan_same_kind _ _ _ _ _ Hkind Hscan) in *.
    rewrite (doScan_no_error _ _ _ _ Hscan) in *. simpl negb in *. cbv iota in *.
    rewrite scanLines_untouched by exact Hlater.
    apply lookup_insert_eq.
  - cbn [app] in *. rewrite scanLines_cons in *.
    destruct (lineField line) as [[key keyValue]|];
      [|exact (IH _ _ _ Hok Hline Hname Hlater Hkind Hscan)].
    destruct (fields !! key) as [keyField|] eqn:Hkey;
      [|exact (IH _ _ _ Hok Hline Hname Hlater Hkind Hscan)].
    unfold fmt.Sscanln in Hok |- *.
    destruct (fmt.doScan keyField (utf8.runes keyValue)) as [[n [err|]] keyField']
      eqn:E; [discriminate Hok|].
    destruct (negb (n =? 1)); [discriminate Hok|].
    pose proof (sameKinds_insert _ _ _ _ Hkey (doScan_kind _ _ _ _ _ E)) as Hsame.
    destruct (sameKinds_lookup _ _ _ _ Hsame Hname) as (field1 & Hname1 & Hkind1).
    apply (IH _ _ field1 Hok Hline Hname1 Hlater); [congruence|exact Hscan].
Qed.

(** A scan that returns no error has met no parse error and no read
    error, and counted as many lines as there are names. *)
Lemma scanFdInfoReader_nil r fields :
  fst (scanFdInfoReader r fields) = None ->
  scanLines (fst (bufio.Scan r)) fields 0
  = (snd (scanFdInfoReader r fields), inr (size fields))
  /\ snd (bufio.Scan r) = None.
Proof.
  unfold scanFdInfoReader.
  destruct (bufio.Scan r) as [lines scanErr]. simpl.
  destruct (scanLines lines fields 0) as [fields' [err|scanned]]; [discriminate|].
  destruct scanErr; [discriminate|].
  destruct (Nat.eqb_spec scanned (size fields)) as [->|]; [|discriminate].
  simpl. intros _. split; reflexivity.
Qed.

Lemma mapInfoField_built fields name x :
  mapInfoField
    {| MapInfo.Type_ := uintAt fields "map_type";
       MapInfo.id := 0;
       MapInfo.KeySize := uintAt fields "key_size";
       MapInfo.ValueSize := uintAt fields "value_size";
       MapInfo.MaxEntries := uintAt fields "max_entries";
       MapInfo.Flags := uintAt fields "map_flags";
       MapInfo.Name := "" |} name = Some x ->
  mapFields !! name = Some (PtrUint32 0) /\ x = uintAt fields name.
Proof.
  unfold mapInfoField. cbn [MapInfo.Type_ MapInfo.KeySize MapInfo.ValueSize
                            MapInfo.MaxEntries MapInfo.Flags].
  repeat match goal with
    | |- context [String.eqb name ?key] =>
      destruct (String.eqb_spec name key) as [->|_];
        [intros [= <-]; split; reflexivity|]
    end.
  discriminate.
Qed.

End LastLine.

(** C8. When the structured query fails with [EINVAL] and the fallback
    returns a [MapInfo], its [ID()] is (0, false) and its name is empty;
    each of the fields type, key size, value size, max entries and flags
    holds the value that the last line of the fdinfo file with the name
    of the field scans to: the number itself when the value side is a
    plain decimal numeral below 2^32.  A field whose name is on no line
    holds zero.  For the fdinfo text of the example the record is
    Type 1, KeySize 4, ValueSize 8, MaxEntries 1024, Flags 0. *)
Theorem C8_fallback_map_info {FD : Type} (W : World FD) (fd : FD)
    (calls calls' : list (event FD)) (queryErr : error) (mi : MapInfo.t)
    (Hquery : bpfGetMapInfoByFD W calls fd = inl queryErr)
    (Hforced : errors_Is queryErr EINVAL = true)
    (Hrun : newMapInfoFromFd W fd calls = Returns (Ok mi) calls') :
  MapInfo.ID mi = (0, false)
  /\ MapInfo.Name mi = ""
  /\ exists raw fh,
       FD_Value W fd = inr raw
       /\ os_Open W (calls ++ [CallMapInfo fd]) (fdinfoPath raw) = inr fh
       /\ (forall before text after name value v x,
              fst (bufio.Scan fh) = before ++ text :: after ->
              lineField text = Some (name, value) ->
              existsb (carries name) after = false ->
              fmt.Sscanln value (PtrUint32 0) = (1, None, PtrUint32 v) ->
              mapInfoField mi name = Some x ->
              x = v)
       /\ (forall before text after name value x,
              fst (bufio.Scan fh) = before ++ text :: after ->
              lineField text = Some (name, value) ->
              existsb (carries name) after = false ->
              isDecimal (utf8.runes value) = true ->
              decimalValue (utf8.runes value) < 2 ^ 32 ->
              mapInfoField mi name = Some x ->
              x = decimalValue (utf8.runes value))
       /\ (forall name x,
              existsb (carries name) (fst (bufio.Scan fh)) = false ->
              mapInfoField mi name = Some x ->
              x = 0)
       /\ (fh = {| data := "map_type:" +:+ TAB +:+ "1" +:+ LF
                           +:+ "key_size:" +:+ TAB +:+ "4" +:+ LF
                           +:+ "value_size:" +:+ TAB +:+ "8" +:+ LF
                           +:+ "max_entries:" +:+ TAB +:+ "1024" +:+ LF
                           +:+ "map_flags:" +:+ TAB +:+ "0" +:+ LF;
                   readErr := None |} ->
           mi = {| MapInfo.Type_ := 1; MapInfo.id := 0; MapInfo.KeySize := 4;
                   MapInfo.ValueSize := 8; MapInfo.MaxEntries := 1024;
                   MapInfo.Flags := 0; MapInfo.Name := "" |}).
Proof.
  unfold newMapInfoFromFd in Hrun.
  rewrite run_bind_call, Hquery, Hforced, newMapInfoFromProc_run in Hrun.
  destruct (FD_Value W fd) as [noValue|raw] eqn:Hvalue.
  { rewrite (scanFdInfo_no_descriptor W _ _ _ _ Hvalue) in Hrun. discriminate Hrun. }
  destruct (os_Open W (calls ++ [CallMapInfo fd]) (fdinfoPath raw)) as [openErr|fh]
    eqn:Hopen.
  { unfold scanFdInfo in Hrun. rewrite Hvalue, run_bind_call, Hopen in Hrun.
    discriminate Hrun. }
  rewrite (scanFdInfo_scanned W _ _ _ _ _ Hvalue Hopen) in Hrun.
  destruct (fst (scanFdInfoReader fh mapFields)) as [scanErr|] eqn:Hnil;
    [discriminate Hrun|].
  injection Hrun as <- _.
  destruct (scanFdInfoReader_nil _ _ Hnil) as [Hlines _].
  split; [reflexivity|]. split; [reflexivity|].
  exists raw, fh. split; [reflexivity|]. split; [exact Hopen|].
  assert (Hlast : forall before text after name value v x,
             fst (bufio.Scan fh) = before ++ text :: after ->
             lineField text = Some (name, value) ->
             existsb (carries name) after = false ->
             fmt.Sscanln value (PtrUint32 0) = (1, None, PtrUint32 v) ->
             mapInfoField
               {| MapInfo.Type_ := uintAt (snd (scanFdInfoReader fh mapFields)) "map_type";
                  MapInfo.id := 0;
                  MapInfo.KeySize := uintAt (snd (scanFdInfoReader fh mapFields)) "key_size";
                  MapInfo.ValueSize :=
                    uintAt (snd (scanFdInfoReader fh mapFields)) "value_size";
                  MapInfo.MaxEntries :=
                    uintAt (snd (scanFdInfoReader fh mapFields)) "max_entries";
                  MapInfo.Flags := uintAt (snd (scanFdInfoReader fh mapFields)) "map_flags";
                  MapInfo.Name := "" |} name = Some x ->
             x = v).
  { intros before text after name value v x Hsplit Hline Hlater Hscan Hfield.
    apply mapInfoField_built in Hfield as [Hname ->].
    rewrite Hsplit in Hlines.
    assert (Hstored : snd (scanFdInfoReader fh mapFields) !! name = Some (PtrUint32 v)).
    { replace (snd (scanFdInfoReader fh mapFields))
        with (fst (scanLines (before ++ text :: after) mapFields 0))
        by (rewrite Hlines; reflexivity).
      eapply scanLines_last; [rewrite Hlines; reflexivity | exact Hline | exact Hname
                             | exact Hlater | reflexivity | exact Hscan]. }
    unfold uintAt. rewrite Hstored. reflexivity. }
  split; [exact Hlast|]. split; [|split].
  - intros before text after name value x Hsplit Hline Hlater Hdec Hsmall Hfield.
    apply (Hlast before text after name value _ x Hsplit Hline Hlater); [|exact Hfield].
    apply (Sscanln_decimal value _ 0 eq_refl Hdec Hsmall).
  - intros name x Hnone Hfield.
    apply mapInfoField_built in Hfield as [Hname ->].
    unfold uintAt.
    replace (snd (scanFdInfoReader fh mapFields))
      with (fst (scanLines (fst (bufio.Scan fh)) mapFields 0))
      by (rewrite Hlines; reflexivity).
    rewrite scanLines_untouched by exact Hnone. rewrite Hname. reflexivity.
  - intros ->. vm_compute. reflexivity.
Qed.

Lemma C8_witness :
  newMapInfoFromFd
    (Examples.procWorld ("map_type:" +:+ TAB +:+ "1" +:+ LF
                         +:+ "key_size:" +:+ TAB +:+ "4" +:+ LF
                         +:+ "value_size:" +:+ TAB +:+ "8" +:+ LF
                         +:+ "max_entries:" +:+ TAB +:+ "1024" +:+ LF
                         +:+ "map_flags:" +:+ TAB +:+ "0" +:+ LF)) 3 []
  = Returns
      (Ok {| MapInfo.Type_ := 1; MapInfo.id := 0; MapInfo.KeySize := 4;
             MapInfo.ValueSize := 8; MapInfo.MaxEntries := 1024;
             MapInfo.Flags := 0; MapInfo.Name := "" |})
      [CallMapInfo 3; CallOpen "/proc/self/fdinfo/3"; CallClose "/proc/self/fdinfo/3"]
  /\ MapInfo.ID {| MapInfo.Type_ := 1; MapInfo.id := 0; MapInfo.KeySize := 4;
                   MapInfo.ValueSize := 8; MapInfo.MaxEntries := 1024;
                   MapInfo.Flags := 0; MapInfo.Name := "" |} = (0, false).
Proof.
  pose (text := "map_type:" +:+ TAB +:+ "1" +:+ LF
                +:+ "key_size:" +:+ TAB +:+ "4" +:+ LF
                +:+ "value_size:" +:+ TAB +:+ "8" +:+ LF
                +:+ "max_entries:" +:+ TAB +:+ "1024" +:+ LF
                +:+ "map_flags:" +:+ TAB +:+ "0" +:+ LF).
  fold text.
  destruct (newMapInfoFromFd (Examples.procWorld text) 3 [])
    as [[mi|e] calls'|msg calls'] eqn:Hrun;
    try (vm_compute in Hrun; discriminate Hrun).
  destruct (C8_fallback_map_info (Examples.procWorld text) 3 [] calls'
              (wrapError "can't get map info" EINVAL) mi eq_refl eq_refl Hrun)
    as (Hid & _ & raw & fh & Hvalue & Hopen & _ & _ & _ & Hexample).
  injection Hvalue as <-. injection Hopen as <-.
  rewrite (Hexample eq_refl).
  split; [|reflexivity].
  f_equal.
  apply (f_equal callsOf) in Hrun. vm_compute in Hrun.
  symmetry. exact Hrun.
Defined.

(** C7 (amended). For a line whose name is requested, the scanner scans
    the first white-space-separated token of the value side into the
    destination; white space before and after the token is ignored.  A
    further token after the first is not ignored: the scan of the line
    fails with the parse error that names the field. *)
Theorem C7_first_token_only (fields : gmap string dest) (text name value : string)
    (field : dest) (lines : list string) (scanned : nat)
    (ws1 tok ws2 : list rune)
    (Hline : lineField text = Some (name, value))
    (Hrequested : fields !! name = Some field)
    (Hws1 : forallb blank ws1 = true)
    (Htok : forallb fmt.notSpace tok = true)
    (Hne : tok <> [])
    (Hws2 : forallb blank ws2 = true) :
  (utf8.runes value = ws1 ++ tok ++ ws2 ->
   fmt.Sscanln value field = fmt.doScan field tok
   /\ (forall s, field = PtrString s ->
       scanLines (text :: lines) fields scanned
       = scanLines lines (<[name := PtrString (utf8.encode tok)]> fields) (S scanned))
   /\ (forall v i, field = PtrUint32 v -> fmt.scanUint tok = inr (i, []) ->
       scanLines (text :: lines) fields scanned
       = scanLines lines (<[name := PtrUint32 i]> fields) (S scanned)))
  /\
  (forall c more,
      utf8.runes value = ws1 ++ tok ++ ws2 ++ c :: more ->
      ws2 <> [] -> fmt.isSpace c = false ->
      exists err fields',
        scanLines (text :: lines) fields scanned
        = (fields', inl (cantParseField name err))).
Proof.
  split.
  - intros Hvalue.
    assert (Hscan : fmt.Sscanln value field = fmt.doScan field tok).
    { unfold fmt.Sscanln. rewrite Hvalue.
      apply doScan_padded; assumption. }
    split; [exact Hscan|]. split.
    + intros s ->. rewrite scanLines_cons, Hline, Hrequested, Hscan.
      unfold fmt.doScan, fmt.scanOne.
      pose proof (convertString_app [] tok [] eq_refl Htok Hne eq_refl) as Halone.
      cbn [app] in Halone. rewrite app_nil_r in Halone. rewrite Halone.
      reflexivity.
    + intros v i -> Hint. rewrite scanLines_cons, Hline, Hrequested, Hscan.
      unfold fmt.doScan, fmt.scanOne. rewrite Hint. reflexivity.
  - intros c more Hvalue Hne2 Hc.
    rewrite scanLines_cons, Hline, Hrequested.
    unfold fmt.Sscanln. rewrite Hvalue.
    destruct (doScan_second_token field ws1 tok ws2 c more Hws1 Htok Hne Hws2 Hne2 Hc)
      as (n & err & field' & ->).
    eauto.
Qed.

Lemma C7_witness :
  scanLines ["prog_tag:" +:+ TAB +:+ "  abc  "] progFields 0
  = (<["prog_tag" := PtrString "abc"]> progFields, inr 1%nat)
  /\ exists err fields',
       scanLines ["prog_tag:" +:+ TAB +:+ "  abc  def"] progFields 0
       = (fields', inl (cantParseField "prog_tag" err)).
Proof.
  split.
  - refine (proj1 (proj2 (proj1
      (C7_first_token_only progFields ("prog_tag:" +:+ TAB +:+ "  abc  ")
         "prog_tag" "  abc  " (PtrString "") [] 0 [32; 32] [97; 98; 99] [32; 32]
         eq_refl eq_refl eq_refl eq_refl _ eq_refl) eq_refl)) "" eq_refl).
    discriminate.
  - refine (proj2
      (C7_first_token_only progFields ("prog_tag:" +:+ TAB +:+ "  abc  def")
         "prog_tag" "  abc  def" (PtrString "") [] 0 [32; 32] [97; 98; 99] [32; 32]
         eq_refl eq_refl eq_refl eq_refl _ eq_refl) 100 [101; 102] eq_refl _ eq_refl);
      discriminate.
Defined.

(** C7, as stated, fails: the line of the requested field prog_tag has
    the value side "abc def", two tokens separated by a space, and the
    scanner does not ignore the second one but fails with a parse
    error. *)
Lemma C7_counterexample :
  let text := "prog_tag:" +:+ TAB +:+ "abc def" in
  let r := {| data := "prog_type:" +:+ TAB +:+ "1" +:+ LF +:+ text +:+ LF;
              readErr := None |} in
  fst (bufio.Scan r) = ["prog_type:" +:+ TAB +:+ "1"; text]
  /\ lineField text = Some ("prog_tag", "abc def")
  /\ progFields !! "prog_tag" = Some (PtrString "")
  /\ utf8.runes "abc def" = [97; 98; 99] ++ [32] ++ [100; 101; 102]
  /\ fst (scanFdInfoReader r progFields)
     = Some (cantParseField "prog_tag" (errorString "expected newline")).
Proof.
  cbv zeta. repeat split; vm_compute; reflexivity.
Qed.

(** * Further properties *)

(** ** The calls of the retrievers *)

Section Calls.

Context {FD : Type}.
Variable W : World FD.
Implicit Types calls : list (event FD).

Lemma scanFdInfo_calls fd fields calls :
  callsOf (scanFdInfo W fd fields calls) = calls ++ fileCalls W fd calls
  /\ panicked (scanFdInfo W fd fields calls) = false.
Proof.
  unfold scanFdInfo, fileCalls.
  destruct (FD_Value W fd) as [noValue|raw].
  - simpl. rewrite app_nil_r. split; reflexivity.
  - rewrite run_bind_call.
    destruct (os_Open W calls (fdinfoPath raw)) as [openErr|fh].
    + split; reflexivity.
    + destruct (scanFdInfoReader fh fields) as [err fields'].
      rewrite run_bind_call, <- app_assoc. destruct err; split; reflexivity.
Qed.

Lemma newMapInfoFromProc_calls fd calls :
  callsOf (newMapInfoFromProc W fd calls) = calls ++ fileCalls W fd calls
  /\ panicked (newMapInfoFromProc W fd calls) = false.
Proof.
  rewrite newMapInfoFromProc_run.
  destruct (scanFdInfo_calls fd mapFields calls) as [Hcalls Hpanic].
  destruct (scanFdInfo W fd mapFields calls) as [[[err|] fields] calls'|];
    [| |discriminate Hpanic]; split; solve [exact Hcalls | reflexivity].
Qed.

Lemma newProgramInfoFromProc_calls fd calls :
  callsOf (newProgramInfoFromProc W fd calls) = calls ++ fileCalls W fd calls
  /\ panicked (newProgramInfoFromProc W fd calls) = false.
Proof.
  rewrite newProgramInfoFromProc_run.
  destruct (scanFdInfo_calls fd progFields calls) as [Hcalls Hpanic].
  destruct (scanFdInfo W fd progFields calls) as [[err fields] calls'|];
    [|discriminate Hpanic].
  destruct (Is err errMissingFields); [split; [exact Hcalls|reflexivity]|].
  destruct err; split; solve [exact Hcalls | reflexivity].
Qed.

End Calls.

(** X1. The calls of the two retrievers, in full.  The map retriever
    makes its query and, when that fails with [EINVAL], the calls of the
    scan of the fdinfo file; it never panics.  The program retriever
    makes its query with ten slots and then, when that fails with
    [EINVAL], the calls of the scan, and when it reports more than ten
    identifiers, one more query.  A scan opens at most one file, and
    closes the file it opened on every way out. *)
Theorem X1_calls_of_the_retrievers {FD : Type} (W : World FD) (fd : FD)
    (calls : list (event FD)) :
  (callsOf (newMapInfoFromFd W fd calls)
   = calls ++ CallMapInfo fd ::
       match bpfGetMapInfoByFD W calls fd with
       | inl err =>
         if errors_Is err EINVAL
         then fileCalls W fd (calls ++ [CallMapInfo fd]) else []
       | inr _ => []
       end)
  /\ panicked (newMapInfoFromFd W fd calls) = false
  /\ callsOf (newProgramInfoFromFd W fd calls)
     = calls ++ CallProgInfo fd 10 ::
         match bpfGetProgInfoByFD W calls fd 10 with
         | inl err =>
           if errors_Is err EINVAL
           then fileCalls W fd (calls ++ [CallProgInfo fd 10]) else []
         | inr (info, _) =>
           if defaultNumMaps <? bpfProgInfo.nr_map_ids info
           then [CallProgInfo fd (Z.to_nat (bpfProgInfo.nr_map_ids info))]
           else []
         end.
Proof.
  split; [|split].
  - unfold newMapInfoFromFd. rewrite run_bind_call.
    destruct (bpfGetMapInfoByFD W calls fd) as [err|info]; [|reflexivity].
    destruct (errors_Is err EINVAL); [|reflexivity].
    rewrite (proj1 (newMapInfoFromProc_calls W fd _)), <- app_assoc. reflexivity.
  - unfold newMapInfoFromFd. rewrite run_bind_call.
    destruct (bpfGetMapInfoByFD W calls fd) as [err|info]; [|reflexivity].
    destruct (errors_Is err EINVAL); [|reflexivity].
    apply newMapInfoFromProc_calls.
  - rewrite newProgramInfoFromFd_run. cbv zeta.
    destruct (bpfGetProgInfoByFD W calls fd 10) as [err|[info written]].
    + destruct (errors_Is err EINVAL); [|reflexivity].
      rewrite (proj1 (newProgramInfoFromProc_calls W fd _)), <- app_assoc.
      reflexivity.
    + destruct (defaultNumMaps <? bpfProgInfo.nr_map_ids info).
      * destruct (bpfGetProgInfoByFD W (calls ++ [CallProgInfo fd 10]) fd
                    (Z.to_nat (bpfProgInfo.nr_map_ids info)))
          as [err|[info2 written2]].
        -- simpl. rewrite <- app_assoc. reflexivity.
        -- rewrite programInfoOf_calls, <- app_assoc. reflexivity.
      * rewrite programInfoOf_calls. reflexivity.
Qed.

(** X2. When the structured query for a map succeeds, the [MapInfo]
    carries the fields of the record as they are and the C string of the
    name; no other call is made; and [ID()] reports the identifier as
    available exactly when it is positive. *)
Theorem X2_map_info_from_record {FD : Type} (W : World FD) (fd : FD)
    (calls : list (event FD)) (info : bpfMapInfo.t)
    (Hquery : bpfGetMapInfoByFD W calls fd = inr info) :
  exists mi,
    newMapInfoFromFd W fd calls = Returns (Ok mi) (calls ++ [CallMapInfo fd])
    /\ MapInfo.Type_ mi = bpfMapInfo.map_type info
    /\ MapInfo.KeySize mi = bpfMapInfo.key_size info
    /\ MapInfo.ValueSize mi = bpfMapInfo.value_size info
    /\ MapInfo.MaxEntries mi = bpfMapInfo.max_entries info
    /\ MapInfo.Flags mi = bpfMapInfo.map_flags info
    /\ MapInfo.Name mi = CString W (bpfMapInfo.name info)
    /\ fst (MapInfo.ID mi) = bpfMapInfo.id info
    /\ (snd (MapInfo.ID mi) = true <-> 0 < bpfMapInfo.id info).
Proof.
  unfold newMapInfoFromFd. rewrite run_bind_call, Hquery.
  eexists. split; [reflexivity|]. do 7 (split; [reflexivity|]).
  unfold MapInfo.ID. simpl. apply Z.ltb_lt.
Qed.

Lemma X2_witness :
  exists mi,
    newMapInfoFromFd
      {| FD_Value := fun fd : Z => inr fd;
         bpfGetMapInfoByFD := fun _ _ =>
           inr {| bpfMapInfo.map_type := 2; bpfMapInfo.id := 0;
                  bpfMapInfo.key_size := 4; bpfMapInfo.value_size := 8;
                  bpfMapInfo.max_entries := 64; bpfMapInfo.map_flags := 1;
                  bpfMapInfo.name := "" |};
         bpfGetProgInfoByFD := fun _ _ _ => inl EINVAL;
         os_Open := fun _ path => inl (PathError "open" path (Errno 2));
         CString := Examples.cstring |} 3 []
    = Returns (Ok mi) [CallMapInfo 3]
    /\ MapInfo.ID mi = (0, false) /\ MapInfo.MaxEntries mi = 64.
Proof.
  edestruct (X2_map_info_from_record
               {| FD_Value := fun fd : Z => inr fd;
                  bpfGetMapInfoByFD := fun _ _ =>
                    inr {| bpfMapInfo.map_type := 2; bpfMapInfo.id := 0;
                           bpfMapInfo.key_size := 4; bpfMapInfo.value_size := 8;
                           bpfMapInfo.max_entries := 64; bpfMapInfo.map_flags := 1;
                           bpfMapInfo.name := "" |};
                  bpfGetProgInfoByFD := fun _ _ _ => inl EINVAL;
                  os_Open := fun _ path => inl (PathError "open" path (Errno 2));
                  CString := Examples.cstring |} 3 [] _ eq_refl)
    as (mi & Hrun & _ & _ & _ & _ & Hmax & _ & _ & Hid & _).
  exists mi. split; [exact Hrun|].
  injection Hrun as <-. split; reflexivity.
Defined.

(** X3. When the first query of the program retriever reports a count
    that fits the ten slots, there is no second query and no panic: the
    record is built from the first answer, with the first that many
    identifiers of the buffer. *)
Theorem X3_count_within_default {FD : Type} (W : World FD) (fd : FD)
    (calls : list (event FD)) (info : bpfProgInfo.t) (written : list Z)
    (Hquery : bpfGetProgInfoByFD W calls fd 10 = inr (info, written))
    (Hfits : 0 <= bpfProgInfo.nr_map_ids info <= defaultNumMaps) :
  newProgramInfoFromFd W fd calls
  = Returns
      (Ok (builtFrom W info
             (firstn (Z.to_nat (bpfProgInfo.nr_map_ids info))
                (fill (make 10) written))))
      (calls ++ [CallProgInfo fd 10])
  /\ length (firstn (Z.to_nat (bpfProgInfo.nr_map_ids info))
               (fill (make 10) written))
     = Z.to_nat (bpfProgInfo.nr_map_ids info).
Proof.
  unfold defaultNumMaps in Hfits.
  rewrite newProgramInfoFromFd_run. cbv zeta. rewrite Hquery.
  destruct (defaultNumMaps <? bpfProgInfo.nr_map_ids info) eqn:E;
    [apply Z.ltb_lt in E; unfold defaultNumMaps in E; lia|].
  split.
  - apply programInfoOf_in_range. rewrite length_fill, length_make. lia.
  - rewrite length_take, length_fill, length_make. lia.
Qed.

Lemma X3_witness :
  newProgramInfoFromFd (Examples.progWorld [3] 0) 3 []
  = Returns
      (Ok (builtFrom (Examples.progWorld [3] 0) (Examples.progRecord 3 0) [1; 2; 3]))
      [CallProgInfo 3 10].
Proof.
  refine (proj1 (X3_count_within_default (Examples.progWorld [3] 0) 3 []
                   (Examples.progRecord 3 0) [1; 2; 3] eq_refl _)).
  vm_compute. split; discriminate.
Defined.

(** X4. With counts that are unsigned, the program retriever panics in
    one case only: the first query reports more than ten identifiers and
    the second query succeeds and reports more than the first did. *)
Theorem X4_panics_exactly_when_count_grows {FD : Type} (W : World FD) (fd : FD)
    (calls : list (event FD))
    (Hunsigned : forall calls0 len info written,
        bpfGetProgInfoByFD W calls0 fd len = inr (info, written) ->
        0 <= bpfProgInfo.nr_map_ids info) :
  panicked (newProgramInfoFromFd W fd calls) = true
  <-> exists info1 written1 info2 written2,
        bpfGetProgInfoByFD W calls fd 10 = inr (info1, written1)
        /\ defaultNumMaps < bpfProgInfo.nr_map_ids info1
        /\ bpfGetProgInfoByFD W (calls ++ [CallProgInfo fd 10]) fd
             (Z.to_nat (bpfProgInfo.nr_map_ids info1)) = inr (info2, written2)
        /\ bpfProgInfo.nr_map_ids info1 < bpfProgInfo.nr_map_ids info2.
Proof.
  rewrite newProgramInfoFromFd_run. cbv zeta.
  destruct (bpfGetProgInfoByFD W calls fd 10) as [err|[info1 written1]] eqn:Hfirst.
  { split.
    - destruct (errors_Is err EINVAL); [|discriminate].
      rewrite (proj2 (newProgramInfoFromProc_calls W fd _)). discriminate.
    - intros (i1 & w1 & i2 & w2 & Habs & _). discriminate Habs. }
  pose proof (Hunsigned _ _ _ _ Hfirst) as Hpos1.
  destruct (defaultNumMaps <? bpfProgInfo.nr_map_ids info1) eqn:Emore.
  - apply Z.ltb_lt in Emore.
    destruct (bpfGetProgInfoByFD W (calls ++ [CallProgInfo fd 10]) fd
                (Z.to_nat (bpfProgInfo.nr_map_ids info1)))
      as [err|[info2 written2]] eqn:Hsecond.
    { split; [discriminate|].
      intros (i1 & w1 & i2 & w2 & [= <- <-] & _ & Habs & _).
      rewrite Hsecond in Habs. discriminate Habs. }
    pose proof (Hunsigned _ _ _ _ Hsecond) as Hpos2.
    destruct (Z_lt_ge_dec (bpfProgInfo.nr_map_ids info1) (bpfProgInfo.nr_map_ids info2))
      as [Hgrows|Hfits].
    + rewrite programInfoOf_out_of_range
        by (rewrite length_fill, length_make; lia).
      split; [|reflexivity]. intros _.
      exists info1, written1, info2, written2. repeat split; assumption.
    + rewrite programInfoOf_in_range
        by (rewrite length_fill, length_make; lia).
      split; [discriminate|].
      intros (i1 & w1 & i2 & w2 & [= <- <-] & _ & Hagain & Habs).
      rewrite Hsecond in Hagain. injection Hagain as <- <-. lia.
  - apply Z.ltb_ge in Emore. unfold defaultNumMaps in Emore.
    rewrite programInfoOf_in_range by (rewrite length_fill, length_make; lia).
    split; [discriminate|].
    intros (i1 & w1 & i2 & w2 & [= <- <-] & Habs & _).
    unfold defaultNumMaps in Habs. lia.
Qed.

Lemma X4_witness :
  panicked (newProgramInfoFromFd (Examples.progWorld [11; 12] 0) 3 []) = true
  /\ panicked (newProgramInfoFromFd (Examples.progWorld [11; 11] 0) 3 []) = false.
Proof.
  assert (Hunsigned : forall counts calls0 len info written,
             Forall (fun n => 0 <= n) counts ->
             bpfGetProgInfoByFD (Examples.progWorld counts 0) calls0 3 len
             = inr (info, written) ->
             0 <= bpfProgInfo.nr_map_ids info).
  { intros counts calls0 len info written Hall [= <- _]. simpl.
    generalize (length (filter Examples.isProgCall calls0)). intros k.
    revert k. induction Hall as [|n counts Hn Hall IH]; intros [|k]; simpl;
      try lia; apply IH. }
  split.
  - apply (X4_panics_exactly_when_count_grows (Examples.progWorld [11; 12] 0) 3 []).
    + intros calls0 len info written. apply Hunsigned.
      repeat constructor; lia.
    + exists (Examples.progRecord 11 0), [1; 2; 3; 4; 5; 6; 7; 8; 9; 10],
        (Examples.progRecord 12 0), [1; 2; 3; 4; 5; 6; 7; 8; 9; 10; 11].
      repeat split; vm_compute; reflexivity.
  - destruct (panicked (newProgramInfoFromFd (Examples.progWorld [11; 11] 0) 3 []))
      eqn:E; [|reflexivity].
    apply (X4_panics_exactly_when_count_grows (Examples.progWorld [11; 11] 0) 3 []) in E.
    + destruct E as (i1 & w1 & i2 & w2 & [= <- _] & _ & [= <- _] & Habs).
      vm_compute in Habs. discriminate Habs.
    + intros calls0 len info written. apply Hunsigned.
      repeat constructor; lia.
Defined.

(** ** More on the field scanner *)

Section ScannerMore.

Implicit Types fields : gmap string dest.
Implicit Types lines : list string.

(** The destinations after [scanFdInfoReader] are those the loop left,
    whatever the error. *)
Lemma scanFdInfoReader_dests r fields :
  snd (scanFdInfoReader r fields) = fst (scanLines (fst (bufio.Scan r)) fields 0).
Proof.
  unfold scanFdInfoReader.
  destruct (bufio.Scan r) as [lines scanErr]. simpl.
  destruct (scanLines lines fields 0) as [fields' [err|scanned]]; [reflexivity|].
  destruct scanErr; [reflexivity|].
  destruct (negb (Nat.eqb scanned (size fields))); reflexivity.
Qed.

Lemma scanLines_nothing_requested lines scanned :
  scanLines lines ∅ scanned = (∅, inr scanned).
Proof.
  induction lines as [|text lines IH]; [reflexivity|].
  rewrite scanLines_cons.
  destruct (lineField text) as [[name value]|]; [|exact IH].
  rewrite lookup_empty. exact IH.
Qed.

Lemma requestedNames_app fields lines1 lines2 :
  requestedNames fields (lines1 ++ lines2)
  = requestedNames fields lines1 ++ requestedNames fields lines2.
Proof.
  induction lines1 as [|text lines1 IH]; [reflexivity|].
  cbn [app requestedNames].
  destruct (lineField text) as [[name value]|]; [|exact IH].
  destruct (fields !! name); [|exact IH].
  cbn [app]. rewrite IH. reflexivity.
Qed.

Lemma requestedNames_complete fields lines name :
  is_Some (fields !! name) -> existsb (carries name) lines = true ->
  name ∈ requestedNames fields lines.
Proof.
  intros [field Hname]. induction lines as [|text lines IH]; [discriminate|].
  cbn [existsb requestedNames]. unfold carries at 1.
  destruct (lineField text) as [[key value]|]; [|exact IH].
  destruct (String.eqb_spec key name) as [->|Hne].
  - intros _. rewrite Hname. apply list_elem_of_here.
  - cbn [orb]. intros Hrest.
    destruct (fields !! key); [apply list_elem_of_further|]; exact (IH Hrest).
Qed.

(** Well-formed lines are scanned one after the other; the scan of what
    follows them starts from destinations of the same names and kinds. *)
Lemma scanLines_app_wellFormed before rest fields0 fields scanned :
  sameKinds fields fields0 ->
  forallb (wellFormed fields0) before = true ->
  exists fields' scanned',
    scanLines (before ++ rest) fields scanned = scanLines rest fields' scanned'
    /\ sameKinds fields' fields0.
Proof.
  revert fields scanned.
  induction before as [|text before IH]; intros fields scanned Hsame Hwell.
  - exists fields, scanned. split; [reflexivity|exact Hsame].
  - cbn [forallb] in Hwell. apply andb_true_iff in Hwell as [Hthis Hrest].
    apply (sameKinds_wellFormed _ _ _ Hsame) in Hthis.
    cbn [app]. rewrite scanLines_cons. unfold wellFormed in Hthis.
    destruct (lineField text) as [[name value]|]; [|exact (IH _ _ Hsame Hrest)].
    destruct (fields !! name) as [field|] eqn:Hname; [|exact (IH _ _ Hsame Hrest)].
    unfold parses in Hthis. unfold fmt.Sscanln in *.
    destruct (fmt.doScan field (utf8.runes value)) as [[n [err|]] field'] eqn:E;
      [discriminate|].
    rewrite (doScan_no_error _ _ _ _ E). simpl negb. cbv iota.
    apply IH; [|exact Hrest].
    eapply sameKinds_trans;
      [apply (sameKinds_insert _ _ _ _ Hname (doScan_kind _ _ _ _ _ E))|exact Hsame].
Qed.

End ScannerMore.

(** X5. With no field requested, the scanner returns what
    [scanner.Err()] returns after the lines, whatever the lines hold:
    nil for a stream read to its end, the read error otherwise, and
    never [io.EOF].  On an empty stream it returns the read error if
    there is one other than [io.EOF], and else nil if no field was
    requested and the missing-fields error if any was. *)
Theorem X5_nothing_requested_nothing_read (r : Reader)
    (fields : gmap string dest) (readError : option error) :
  scanFdInfoReader r ∅ = (snd (bufio.Scan r), ∅)
  /\ snd (bufio.Scan r) <> Some EOF
  /\ scanFdInfoReader {| data := ""; readErr := readError |} fields
     = (match readError with
        | None | Some EOF =>
          match size fields with
          | O => None
          | S _ => Some errMissingFields
          end
        | Some err => Some err
        end, fields).
Proof.
  split; [|split].
  - unfold scanFdInfoReader.
    destruct (bufio.Scan r) as [lines scanErr]. simpl.
    rewrite scanLines_nothing_requested.
    destruct scanErr; reflexivity.
  - apply Scan_not_EOF.
  - unfold scanFdInfoReader. cbn.
    destruct readError as [err|]; [destruct err|]; cbn;
      try reflexivity; destruct (size fields); reflexivity.
Qed.

(** X6. When the stream is read to its end, every line is well formed,
    no requested name is on two lines and every requested name is on a
    line, the scan returns nil, in whatever order the lines come and
    whatever other lines stand between them; and every destination holds
    what the line with its name scans to. *)
Theorem X6_every_field_once (r : Reader) (fields : gmap string dest)
    (Hread : snd (bufio.Scan r) = None)
    (Hwell : forallb (wellFormed fields) (fst (bufio.Scan r)) = true)
    (Honce : NoDup (requestedNames fields (fst (bufio.Scan r))))
    (Hall : forallb (fun field => existsb (carries (fst field)) (fst (bufio.Scan r)))
              (map_to_list fields) = true) :
  fst (scanFdInfoReader r fields) = None
  /\ forall before text after name value field n scannedValue,
       fst (bufio.Scan r) = before ++ text :: after ->
       lineField text = Some (name, value) ->
       fields !! name = Some field ->
       fmt.Sscanln value field = (n, None, scannedValue) ->
       snd (scanFdInfoReader r fields) !! name = Some scannedValue.
Proof.
  assert (Hcarried : forall name, is_Some (fields !! name) ->
             existsb (carries name) (fst (bufio.Scan r)) = true).
  { intros name [field Hname].
    rewrite forallb_forall in Hall.
    apply (Hall (name, field)).
    apply list_elem_of_In, elem_of_map_to_list. exact Hname. }
  assert (Hcount : length (requestedNames fields (fst (bufio.Scan r))) = size fields).
  { rewrite <- (size_list_to_set (C:=gset string)) by exact Honce.
    rewrite <- (size_dom (D:=gset string)). f_equal.
    apply set_eq. intros name. rewrite elem_of_list_to_set, elem_of_dom. split.
    - apply requestedNames_requested.
    - intros Hname. apply requestedNames_complete; [exact Hname|].
      apply Hcarried, Hname. }
  assert (Hnil : fst (scanFdInfoReader r fields) = None).
  { rewrite (scanFdInfoReader_wellFormed _ _ Hwell), Hread, Hcount.
    rewrite Nat.eqb_refl. reflexivity. }
  split; [exact Hnil|].
  intros before text after name value field n scannedValue Hsplit Hline Hname Hscan.
  assert (Hlater : existsb (carries name) after = false).
  { destruct (existsb (carries name) after) eqn:E; [|reflexivity].
    exfalso. rewrite Hsplit, requestedNames_app in Honce.
    cbn [requestedNames] in Honce. rewrite Hline, Hname in Honce.
    apply NoDup_app in Honce as (_ & _ & Honce).
    apply NoDup_cons in Honce as [Hnotin _].
    apply Hnotin, requestedNames_complete; [rewrite Hname; eauto|exact E]. }
  destruct (scanFdInfoReader_nil _ _ Hnil) as [Hlines _].
  rewrite scanFdInfoReader_dests, Hsplit.
  eapply scanLines_last;
    [rewrite <- Hsplit, Hlines; reflexivity | exact Hline | exact Hname
    | exact Hlater | reflexivity | exact Hscan].
Qed.

Lemma X6_witness :
  let r := {| data := "prog_tag:" +:+ TAB +:+ "abc" +:+ LF
                      +:+ "pos:" +:+ TAB +:+ "0 0" +:+ LF
                      +:+ "prog_type:" +:+ TAB +:+ "6" +:+ LF;
              readErr := None |} in
  fst (scanFdInfoReader r progFields) = None
  /\ snd (scanFdInfoReader r progFields) !! "prog_type" = Some (PtrUint32 6).
Proof.
  cbv zeta.
  match goal with |- fst (scanFdInfoReader ?r _) = _ /\ _ =>
    destruct (X6_every_field_once r progFields) as [Hnil Hvalues]
  end.
  - vm_compute. reflexivity.
  - vm_compute. reflexivity.
  - vm_compute. apply NoDup_cons. split; [|apply NoDup_singleton].
    intros [H|H]%elem_of_cons; [discriminate H|inversion H].
  - vm_compute. reflexivity.
  - split; [exact Hnil|].
    apply (Hvalues ["prog_tag:" +:+ TAB +:+ "abc"; "pos:" +:+ TAB +:+ "0 0"]
             ("prog_type:" +:+ TAB +:+ "6") [] "prog_type" "6" (PtrUint32 0) 1);
      vm_compute; reflexivity.
Defined.

(** X7. A destination whose name is on no line of the stream is left as
    it was, whether the scan succeeds or fails. *)
Theorem X7_other_destinations_untouched (r : Reader) (fields : gmap string dest)
    (name : string)
    (Habsent : existsb (carries name) (fst (bufio.Scan r)) = false) :
  snd (scanFdInfoReader r fields) !! name = fields !! name.
Proof.
  rewrite scanFdInfoReader_dests. apply scanLines_untouched, Habsent.
Qed.

Lemma X7_witness :
  let r := {| data := "prog_type:" +:+ TAB +:+ "6" +:+ LF
                      +:+ "prog_type:" +:+ TAB +:+ "six" +:+ LF;
              readErr := None |} in
  snd (scanFdInfoReader r (<["prog_tag" := PtrString "kept"]> progFields))
    !! "prog_tag" = Some (PtrString "kept").
Proof.
  cbv zeta.
  rewrite X7_other_destinations_untouched by (vm_compute; reflexivity).
  reflexivity.
Defined.

(** ** Values that do not parse *)

Section ParseErrors.

Implicit Types fields : gmap string dest.
Implicit Types input rest ws : list rune.

Lemma scanBasePrefix_other r input :
  r <> 48 ->
  fmt.scanBasePrefix (r :: input)
  = (fmt.decimalDigits ++ fmt.underscore, false, [], r :: input).
Proof.
  intros Hne. unfold fmt.scanBasePrefix.
  destruct r as [|p|p]; try reflexivity.
  repeat (destruct p as [p|p|]; try reflexivity). congruence.
Qed.

Lemma acceptAll_buf digits buf input :
  exists taken, fst (fmt.acceptAll digits buf input) = buf ++ taken.
Proof.
  revert buf. induction input as [|r input IH]; intros buf.
  - exists []. simpl. rewrite app_nil_r. reflexivity.
  - cbn [fmt.acceptAll]. destruct (fmt.indexRune digits r).
    + destruct (IH (buf ++ [r])) as [taken Ht].
      exists (r :: taken). rewrite Ht, <- app_assoc. reflexivity.
    + exists []. simpl. rewrite app_nil_r. reflexivity.
Qed.

Lemma decimal_or_underscore r :
  fmt.indexRune (fmt.decimalDigits ++ fmt.underscore) r = true ->
  strconv.isDigit r = true \/ r = 95.
Proof.
  unfold fmt.indexRune. intros (d & Hin & Heq)%existsb_exists.
  apply Z.eqb_eq in Heq. subst d. simpl in Hin.
  repeat (destruct Hin as [<-|Hin]; [first [left; reflexivity | right; reflexivity]|]).
  destruct Hin.
Qed.

(** A number with an underscore in it that [underscoreOK] refuses does
    not parse. *)
Lemma digitLoop_underscores s0 base s n :
  strconv.underscoreOK s0 = false ->
  snd (strconv.digitLoop s0 base s n true) <> None.
Proof.
  intros Hbad. revert n. induction s as [|c s IH]; intros n.
  - cbn [strconv.digitLoop]. rewrite Hbad. simpl. discriminate.
  - cbn [strconv.digitLoop].
    destruct (c =? 95); [apply IH|].
    destruct (if strconv.isDigit c then Some (c - 48)
              else if (97 <=? strconv.lower c) && (strconv.lower c <=? 122)
                   then Some (strconv.lower c - 97 + 10) else None) as [d|];
      [|simpl; discriminate].
    destruct (base <=? d); [simpl; discriminate|].
    destruct (strconv.maxUint64 / base + 1 <=? n); [simpl; discriminate|].
    destruct (((n * base) mod 2 ^ 64 + d) mod 2 ^ 64 <? (n * base) mod 2 ^ 64);
      [simpl; discriminate|].
    destruct (strconv.maxUint64 <? ((n * base) mod 2 ^ 64 + d) mod 2 ^ 64);
      [simpl; discriminate|].
    apply IH.
Qed.

Lemma ParseUint_leading_underscore s :
  snd (strconv.ParseUint (95 :: s)) <> None.
Proof.
  unfold strconv.ParseUint. cbn [strconv.digitLoop]. simpl (95 =? 95).
  cbv iota. apply digitLoop_underscores. reflexivity.
Qed.

(** A value side that starts with something that is no decimal digit
    does not scan into an unsigned integer. *)
Lemma scanUint_not_a_number ws c rest :
  forallb blank ws = true -> fmt.isSpace c = false -> strconv.isDigit c = false ->
  exists err, fmt.scanUint (ws ++ c :: rest) = inl err.
Proof.
  intros Hws Hc Hnot. unfold fmt.scanUint.
  rewrite (SkipSpace_blank _ _ Hws), (SkipSpace_token _ _ Hc).
  assert (Hne : c <> 48) by (intros ->; discriminate Hnot).
  rewrite (scanBasePrefix_other _ _ Hne). unfold fmt.scanNumber.
  destruct (fmt.indexRune (fmt.decimalDigits ++ fmt.underscore) c) eqn:Eaccept;
    [|eexists; reflexivity].
  destruct (decimal_or_underscore _ Eaccept) as [Hdigit| ->]; [congruence|].
  match goal with
  | |- context [fmt.acceptAll ?digits ?buf ?input] =>
    destruct (acceptAll_buf digits buf input) as [taken Ht];
    destruct (fmt.acceptAll digits buf input) as [tok rest']
  end.
  simpl in Ht. subst tok.
  pose proof (ParseUint_leading_underscore taken) as Hparse.
  match goal with
  | |- context [strconv.ParseUint ?tok] =>
    change (strconv.ParseUint (95 :: taken)) with (strconv.ParseUint tok) in Hparse;
    destruct (strconv.ParseUint tok) as [i [err|]]
  end; [eexists; reflexivity|].
  exfalso. apply Hparse. reflexivity.
Qed.

(** A value side of white space only does not scan into anything: the
    input is at its end. *)
Lemma scanOne_blank arg ws :
  forallb blank ws = true -> fmt.scanOne arg ws = inl EOF.
Proof.
  intros Hws.
  assert (Hskip : fmt.SkipSpace ws = inr []).
  { rewrite <- (app_nil_r ws), (SkipSpace_blank _ _ Hws). reflexivity. }
  unfold fmt.scanOne, fmt.scanUint, fmt.convertString.
  destruct arg; rewrite Hskip; reflexivity.
Qed.

Lemma scanUint_range input i rest :
  fmt.scanUint input = inr (i, rest) -> 0 <= i < 2 ^ 32.
Proof.
  unfold fmt.scanUint.
  destruct (fmt.SkipSpace input) as [e|[|r input']]; try discriminate.
  destruct (fmt.scanBasePrefix (r :: input')) as [[[digits haveDigits] buf] input''].
  destruct (fmt.scanNumber digits haveDigits buf input'') as [e|[tok rest']];
    [discriminate|].
  destruct (strconv.ParseUint tok) as [i' [e|]]; [discriminate|].
  destruct (i' mod 2 ^ 32 =? i') eqn:E; [|discriminate].
  intros [= <- _]. apply Z.eqb_eq in E. rewrite <- E.
  apply Z.mod_pos_bound. reflexivity.
Qed.

(** What a scan writes into an unsigned destination fits 32 bits. *)
Lemma doScan_range arg input n err v :
  fmt.doScan arg input = (n, err, PtrUint32 v) ->
  arg = PtrUint32 v \/ 0 <= v < 2 ^ 32.
Proof.
  unfold fmt.doScan, fmt.scanOne. destruct arg as [v0|s].
  - destruct (fmt.scanUint input) as [e|[i rest]] eqn:E.
    + intros [= _ _ ->]. left. reflexivity.
    + intros [= _ _ <-]. right. exact (scanUint_range _ _ _ E).
  - destruct (fmt.convertString input) as [e|[str rest]]; intros [= _ _ Habs];
      discriminate Habs.
Qed.

Lemma scanLines_range lines fields scanned name v :
  fst (scanLines lines fields scanned) !! name = Some (PtrUint32 v) ->
  fields !! name = Some (PtrUint32 v) \/ 0 <= v < 2 ^ 32.
Proof.
  revert fields scanned.
  induction lines as [|text lines IH]; intros fields scanned; [left; assumption|].
  rewrite scanLines_cons.
  destruct (lineField text) as [[key value]|]; [|apply IH].
  destruct (fields !! key) as [field|] eqn:Hkey; [|apply IH].
  unfold fmt.Sscanln.
  destruct (fmt.doScan field (utf8.runes value)) as [[n err] field'] eqn:E.
  assert (Hinsert : <[key := field']> fields !! name = Some (PtrUint32 v) ->
                    fields !! name = Some (PtrUint32 v) \/ 0 <= v < 2 ^ 32).
  { destruct (decide (key = name)) as [<-|Hne].
    - rewrite lookup_insert_eq. intros [= ->].
      destruct (doScan_range _ _ _ _ _ E) as [->|Hr]; [left; exact Hkey|right; exact Hr].
    - rewrite lookup_insert_ne by exact Hne. left. assumption. }
  destruct err as [err|]; [exact Hinsert|].
  destruct (negb (n =? 1)); [exact Hinsert|].
  intros Hfinal. destruct (IH _ _ Hfinal) as [Hprev|Hr]; [exact (Hinsert Hprev)|].
  right. exact Hr.
Qed.

(** The line at which the scan fails, after lines that are well formed. *)
Lemma scanFdInfoReader_fails_at r fields before text after name value field cause :
  fst (bufio.Scan r) = before ++ text :: after ->
  forallb (wellFormed fields) before = true ->
  lineField text = Some (name, value) ->
  fields !! name = Some field ->
  (forall field1, isUint field1 = isUint field ->
                  snd (fst (fmt.Sscanln value field1)) = Some cause) ->
  fst (scanFdInfoReader r fields) = Some (cantParseField name cause).
Proof.
  intros Hlines Hbefore Hline Hname Hfail. unfold scanFdInfoReader.
  destruct (bufio.Scan r) as [lines scanErr]. simpl in Hlines. subst lines.
  destruct (scanLines_app_wellFormed before (text :: after) fields fields 0
              (sameKinds_refl _) Hbefore) as (fields' & scanned' & -> & Hsame).
  rewrite scanLines_cons, Hline.
  destruct (sameKinds_lookup _ _ _ _ Hsame Hname) as (field1 & -> & Hkind).
  specialize (Hfail field1 Hkind).
  destruct (fmt.Sscanln value field1) as [[n err] field'].
  simpl in Hfail. subst err. reflexivity.
Qed.

End ParseErrors.

(** X8. After well-formed lines, a line of a requested unsigned field
    whose value side starts, after white space, with something that is
    no decimal digit makes the scanner fail with the parse error that
    names the field: before any later line is looked at, and whatever
    reading the stream returns. *)
Theorem X8_not_a_number (r : Reader) (fields : gmap string dest)
    (before after : list string) (text name value : string) (field : dest)
    (ws rest : list rune) (c : rune)
    (Hlines : fst (bufio.Scan r) = before ++ text :: after)
    (Hbefore : forallb (wellFormed fields) before = true)
    (Hline : lineField text = Some (name, value))
    (Hrequested : fields !! name = Some field)
    (Huint : isUint field = true)
    (Hvalue : utf8.runes value = ws ++ c :: rest)
    (Hws : forallb blank ws = true)
    (Hc : fmt.isSpace c = false)
    (Hnot : strconv.isDigit c = false) :
  exists cause, fst (scanFdInfoReader r fields) = Some (cantParseField name cause).
Proof.
  destruct (scanUint_not_a_number ws c rest Hws Hc Hnot) as [cause Hscan].
  exists cause.
  apply (scanFdInfoReader_fails_at r fields before text after name value field cause
           Hlines Hbefore Hline Hrequested).
  intros field1 Hkind. rewrite Huint in Hkind.
  destruct field1 as [v|s]; [|discriminate Hkind].
  unfold fmt.Sscanln, fmt.doScan, fmt.scanOne. rewrite Hvalue, Hscan. reflexivity.
Qed.

Lemma X8_witness :
  exists cause,
    fst (scanFdInfoReader
           {| data := "pos:" +:+ TAB +:+ "0" +:+ LF
                      +:+ "map_type:" +:+ TAB +:+ "hash" +:+ LF
                      +:+ "key_size:" +:+ TAB +:+ "4" +:+ LF;
              readErr := Some (Errno 5) |} mapFields)
    = Some (cantParseField "map_type" cause).
Proof.
  refine (X8_not_a_number
            {| data := "pos:" +:+ TAB +:+ "0" +:+ LF
                       +:+ "map_type:" +:+ TAB +:+ "hash" +:+ LF
                       +:+ "key_size:" +:+ TAB +:+ "4" +:+ LF;
               readErr := Some (Errno 5) |}
            mapFields ["pos:" +:+ TAB +:+ "0"]
            ["key_size:" +:+ TAB +:+ "4"] ("map_type:" +:+ TAB +:+ "hash")
            "map_type" "hash" (PtrUint32 0) [] [97; 115; 104] 104
            eq_refl eq_refl eq_refl eq_refl eq_refl eq_refl eq_refl eq_refl eq_refl).
Defined.

(** X9. A line of a requested field whose value side is empty or white
    space only makes the scanner fail with the parse error that names
    the field, the cause being the end of the input. *)
Theorem X9_empty_value (r : Reader) (fields : gmap string dest)
    (before after : list string) (text name value : string) (field : dest)
    (Hlines : fst (bufio.Scan r) = before ++ text :: after)
    (Hbefore : forallb (wellFormed fields) before = true)
    (Hline : lineField text = Some (name, value))
    (Hrequested : fields !! name = Some field)
    (Hblank : forallb blank (utf8.runes value) = true) :
  fst (scanFdInfoReader r fields) = Some (cantParseField name EOF).
Proof.
  apply (scanFdInfoReader_fails_at r fields before text after name value field EOF
           Hlines Hbefore Hline Hrequested).
  intros field1 _.
  unfold fmt.Sscanln, fmt.doScan. rewrite (scanOne_blank _ _ Hblank). reflexivity.
Qed.

Lemma X9_witness :
  fst (scanFdInfoReader
         {| data := "prog_type:" +:+ TAB +:+ "6" +:+ LF
                    +:+ "prog_tag:" +:+ TAB +:+ LF;
            readErr := None |} progFields)
  = Some (cantParseField "prog_tag" EOF).
Proof.
  refine (X9_empty_value
            {| data := "prog_type:" +:+ TAB +:+ "6" +:+ LF
                       +:+ "prog_tag:" +:+ TAB +:+ LF;
               readErr := None |}
            progFields ["prog_type:" +:+ TAB +:+ "6"] []
            ("prog_tag:" +:+ TAB) "prog_tag" "" (PtrString "")
            eq_refl eq_refl eq_refl eq_refl eq_refl).
Defined.

(** X10. Every numeric field of a [MapInfo] that the fallback returns
    is a value of 32 bits: the scan stores nothing larger. *)
Theorem X10_fallback_values_fit {FD : Type} (W : World FD) (fd : FD)
    (calls calls' : list (event FD)) (queryErr : error) (mi : MapInfo.t)
    (name : string) (x : Z)
    (Hquery : bpfGetMapInfoByFD W calls fd = inl queryErr)
    (Hforced : errors_Is queryErr EINVAL = true)
    (Hrun : newMapInfoFromFd W fd calls = Returns (Ok mi) calls')
    (Hfield : mapInfoField mi name = Some x) :
  0 <= x < 2 ^ 32.
Proof.
  unfold newMapInfoFromFd in Hrun.
  rewrite run_bind_call, Hquery, Hforced, newMapInfoFromProc_run in Hrun.
  destruct (scanFdInfo W fd mapFields (calls ++ [CallMapInfo fd]))
    as [[[err|] fields'] calls''|] eqn:Hscan; try discriminate Hrun.
  injection Hrun as <- _.
  apply mapInfoField_built in Hfield as [Hname ->].
  assert (Hfrom : exists lines scanned, fields' = fst (scanLines lines mapFields scanned)).
  { unfold scanFdInfo in Hscan.
    destruct (FD_Value W fd) as [noValue|raw]; [discriminate Hscan|].
    rewrite run_bind_call in Hscan.
    destruct (os_Open W (calls ++ [CallMapInfo fd]) (fdinfoPath raw)) as [e|fh];
      [discriminate Hscan|].
    pose proof (scanFdInfoReader_dests fh mapFields) as Hdests.
    destruct (scanFdInfoReader fh mapFields) as [err fields''].
    rewrite run_bind_call in Hscan.
    destruct err; [discriminate Hscan|]. injection Hscan as <- _.
    simpl in Hdests. eauto. }
  destruct Hfrom as (lines & scanned & ->).
  unfold uintAt.
  destruct (fst (scanLines lines mapFields scanned) !! name) as [[v|s]|] eqn:E;
    try (change (2 ^ 32) with 4294967296; lia).
  destruct (scanLines_range _ _ _ _ _ E) as [Hinit|Hr]; [|exact Hr].
  rewrite Hname in Hinit. injection Hinit as <-.
  change (2 ^ 32) with 4294967296. lia.
Qed.

Lemma X10_witness :
  exists mi calls',
    newMapInfoFromFd
      (Examples.procWorld ("map_type:" +:+ TAB +:+ "1" +:+ LF
                           +:+ "key_size:" +:+ TAB +:+ "4" +:+ LF
                           +:+ "value_size:" +:+ TAB +:+ "8" +:+ LF
                           +:+ "max_entries:" +:+ TAB +:+ "4294967295" +:+ LF
                           +:+ "map_flags:" +:+ TAB +:+ "0" +:+ LF)) 3 []
    = Returns (Ok mi) calls'
    /\ MapInfo.MaxEntries mi = 4294967295
    /\ 0 <= MapInfo.MaxEntries mi < 2 ^ 32.
Proof.
  eexists. eexists. split; [vm_compute; reflexivity|]. split; [reflexivity|].
  refine (X10_fallback_values_fit
            (Examples.procWorld ("map_type:" +:+ TAB +:+ "1" +:+ LF
                                 +:+ "key_size:" +:+ TAB +:+ "4" +:+ LF
                                 +:+ "value_size:" +:+ TAB +:+ "8" +:+ LF
                                 +:+ "max_entries:" +:+ TAB +:+ "4294967295" +:+ LF
                                 +:+ "map_flags:" +:+ TAB +:+ "0" +:+ LF))
            3 [] _ (wrapError "can't get map info" EINVAL) _
            "max_entries" _ eq_refl eq_refl _ eq_refl).
  vm_compute. reflexivity.
Defined.

(** ** Numerals that are too large *)

Section TooLarge.

Implicit Types digits : list rune.

(** When the digit loop of [ParseUint] in base ten returns no error, it
    returns the decimal value. *)
Lemma digitLoop_decimal_sound s0 digits n v :
  0 <= n -> forallb strconv.isDigit digits = true ->
  strconv.digitLoop s0 10 digits n false = (v, None) ->
  v = decimalFrom n digits.
Proof.
  revert n. induction digits as [|d digits IH]; intros n Hn Hall.
  - cbn. intros [= <-]. reflexivity.
  - cbn [forallb] in Hall. apply andb_true_iff in Hall as [Hd Hall].
    pose proof (isDigit_range _ Hd) as Hrange.
    cbn [strconv.digitLoop].
    destruct (d =? 95) eqn:E95; [apply Z.eqb_eq in E95; lia|].
    rewrite Hd.
    destruct (10 <=? d - 48) eqn:Ebase; [apply Z.leb_le in Ebase; lia|].
    destruct (strconv.maxUint64 / 10 + 1 <=? n) eqn:Ecut; [discriminate|].
    apply Z.leb_gt in Ecut. unfold strconv.maxUint64 in *.
    change (2 ^ 64 - 1) with 18446744073709551615 in *.
    change (18446744073709551615 / 10) with 1844674407370955161 in Ecut.
    change (2 ^ 64) with 18446744073709551616.
    rewrite (Z.mod_small (n * 10)) by lia.
    destruct ((n * 10 + (d - 48)) mod 18446744073709551616 <? n * 10) eqn:E1;
      [discriminate|].
    destruct (18446744073709551615 <? (n * 10 + (d - 48)) mod 18446744073709551616);
      [discriminate|].
    cbn [orb]. apply Z.ltb_ge in E1.
    assert (Hnowrap : (n * 10 + (d - 48)) mod 18446744073709551616
                      = n * 10 + (d - 48)).
    { destruct (Z_lt_ge_dec (n * 10 + (d - 48)) 18446744073709551616) as [Hlt|Hge].
      - apply Z.mod_small. lia.
      - exfalso.
        assert (Hmod : (n * 10 + (d - 48)) mod 18446744073709551616
                       = n * 10 + (d - 48) - 18446744073709551616).
        { symmetry. apply (Z.mod_unique_pos _ _ 1); lia. }
        lia. }
    rewrite Hnowrap. intros Hloop.
    apply (IH (n * 10 + (d - 48)) ltac:(lia) Hall) in Hloop. exact Hloop.
Qed.

(** A plain decimal numeral of 2^32 or more does not scan into an
    unsigned destination. *)
Lemma scanUint_too_large digits :
  isDecimal digits = true -> 2 ^ 32 <= decimalValue digits ->
  exists err, fmt.scanUint digits = inl err.
Proof.
  unfold isDecimal. intros [Hall Hshape]%andb_true_iff Hlarge.
  destruct digits as [|first digits]; [discriminate|].
  pose proof Hall as Hall'.
  cbn [forallb] in Hall'. apply andb_true_iff in Hall' as [Hfirst Hrest].
  destruct (Z.eq_dec first 48) as [->|Hne].
  { destruct digits as [|second digits]; [|discriminate Hshape].
    vm_compute in Hlarge. exfalso. apply Hlarge. reflexivity. }
  unfold fmt.scanUint.
  rewrite (SkipSpace_token _ _ (isDigit_notSpace _ Hfirst)).
  rewrite (scanBasePrefix_other _ _ Hne). unfold fmt.scanNumber.
  rewrite (isDigit_accepted _ Hfirst), (acceptAll_digits _ _ Hrest).
  cbn [app].
  assert (Hparse : strconv.ParseUint (first :: digits)
                   = strconv.digitLoop (first :: digits) 10 (first :: digits) 0 false).
  { unfold strconv.ParseUint.
    destruct first as [|p|p]; try reflexivity.
    repeat (destruct p as [p|p|]; try reflexivity). congruence. }
  rewrite Hparse.
  destruct (strconv.digitLoop (first :: digits) 10 (first :: digits) 0 false)
    as [i [err|]] eqn:Eloop; [eexists; reflexivity|].
  apply (digitLoop_decimal_sound _ _ 0 _ ltac:(lia) Hall) in Eloop.
  fold (decimalValue (first :: digits)) in Eloop. subst i.
  destruct (decimalValue (first :: digits) mod 2 ^ 32 =? decimalValue (first :: digits))
    eqn:E; [|eexists; reflexivity].
  apply Z.eqb_eq in E.
  pose proof (Z.mod_pos_bound (decimalValue (first :: digits)) (2 ^ 32) eq_refl).
  lia.
Qed.

End TooLarge.

(** X11. After well-formed lines, a line of a requested unsigned field
    whose value is a plain decimal numeral of 2^32 or more makes the
    scanner fail with the parse error that names the field: the value
    is not cut down to 32 bits. *)
Theorem X11_numeral_too_large (r : Reader) (fields : gmap string dest)
    (before after : list string) (text name value : string) (field : dest)
    (ws1 digits ws2 : list rune)
    (Hlines : fst (bufio.Scan r) = before ++ text :: after)
    (Hbefore : forallb (wellFormed fields) before = true)
    (Hline : lineField text = Some (name, value))
    (Hrequested : fields !! name = Some field)
    (Huint : isUint field = true)
    (Hvalue : utf8.runes value = ws1 ++ digits ++ ws2)
    (Hws1 : forallb blank ws1 = true)
    (Hws2 : forallb blank ws2 = true)
    (Hdecimal : isDecimal digits = true)
    (Hlarge : 2 ^ 32 <= decimalValue digits) :
  exists cause, fst (scanFdInfoReader r fields) = Some (cantParseField name cause).
Proof.
  destruct (scanUint_too_large digits Hdecimal Hlarge) as [cause Hscan].
  exists cause.
  apply (scanFdInfoReader_fails_at r fields before text after name value field cause
           Hlines Hbefore Hline Hrequested).
  intros field1 Hkind. rewrite Huint in Hkind.
  destruct field1 as [v|s]; [|discriminate Hkind].
  assert (Hdigits : forallb strconv.isDigit digits = true /\ digits <> []).
  { unfold isDecimal in Hdecimal. apply andb_true_iff in Hdecimal as [Hall Hshape].
    split; [exact Hall|]. intros ->. discriminate Hshape. }
  destruct Hdigits as [Hall Hne].
  assert (Hnotspace : forallb fmt.notSpace digits = true).
  { apply forallb_forall. intros d Hin.
    rewrite forallb_forall in Hall. unfold fmt.notSpace.
    rewrite (isDigit_notSpace _ (Hall d Hin)). reflexivity. }
  assert (Hstops : stops ws2 = true).
  { destruct ws2 as [|c ws2]; [reflexivity|].
    cbn [forallb] in Hws2. apply andb_true_iff in Hws2 as [Hc _].
    exact (proj1 (blank_space _ Hc)). }
  unfold fmt.Sscanln, fmt.doScan, fmt.scanOne.
  rewrite Hvalue, (scanUint_app _ _ _ Hws1 Hnotspace Hne Hstops), Hscan.
  reflexivity.
Qed.

Lemma X11_witness :
  exists cause,
    fst (scanFdInfoReader
           {| data := "map_type:" +:+ TAB +:+ "1" +:+ LF
                      +:+ "max_entries:" +:+ TAB +:+ "4294967296" +:+ LF;
              readErr := None |} mapFields)
    = Some (cantParseField "max_entries" cause).
Proof.
  refine (X11_numeral_too_large
            {| data := "map_type:" +:+ TAB +:+ "1" +:+ LF
                       +:+ "max_entries:" +:+ TAB +:+ "4294967296" +:+ LF;
               readErr := None |}
            mapFields ["map_type:" +:+ TAB +:+ "1"] []
            ("max_entries:" +:+ TAB +:+ "4294967296") "max_entries" "4294967296"
            (PtrUint32 0) [] [52; 50; 57; 52; 57; 54; 55; 50; 57; 54] []
            eq_refl eq_refl eq_refl eq_refl eq_refl eq_refl eq_refl eq_refl eq_refl _).
  vm_compute. discriminate.
Defined.

(** ** The fallback for programs *)

Section ProgramFallback.

Context {FD : Type}.
Variable W : World FD.
Implicit Types calls : list (event FD).

(** The fallback returns a record only when the file was opened and
    scanned without any error. *)
Lemma newProgramInfoFromProc_returns fd calls pi calls' :
  newProgramInfoFromProc W fd calls = Returns (Ok pi) calls' ->
  exists raw fh,
    FD_Value W fd = inr raw
    /\ os_Open W calls (fdinfoPath raw) = inr fh
    /\ fst (scanFdInfoReader fh progFields) = None
    /\ calls' = calls ++ [CallOpen (fdinfoPath raw); CallClose (fdinfoPath raw)]
    /\ pi = {| ProgramInfo.Type_ :=
                 uintAt (snd (scanFdInfoReader fh progFields)) "prog_type";
               ProgramInfo.id := 0;
               ProgramInfo.Tag :=
                 stringAt (snd (scanFdInfoReader fh progFields)) "prog_tag";
               ProgramInfo.Name := "";
               ProgramInfo.btf := 0;
               ProgramInfo.ids := None;
               ProgramInfo.stats := None |}.
Proof.
  rewrite newProgramInfoFromProc_run. intros Hrun.
  destruct (FD_Value W fd) as [noValue|raw] eqn:Hvalue.
  { rewrite (scanFdInfo_no_descriptor W _ _ _ _ Hvalue) in Hrun.
    destruct (Is (Some noValue) errMissingFields); discriminate Hrun. }
  destruct (os_Open W calls (fdinfoPath raw)) as [openErr|fh] eqn:Hopen.
  { unfold scanFdInfo in Hrun. rewrite Hvalue, run_bind_call, Hopen in Hrun.
    simpl in Hrun.
    destruct (errors_Is openErr errMissingFields); discriminate Hrun. }
  rewrite (scanFdInfo_scanned W _ _ _ _ _ Hvalue Hopen) in Hrun.
  destruct (fst (scanFdInfoReader fh progFields)) as [scanErr|] eqn:Hnil.
  { destruct (Is (Some (wrapError (fdinfoPath raw) scanErr)) errMissingFields);
      discriminate Hrun. }
  simpl in Hrun. injection Hrun as <- <-.
  exists raw, fh. repeat split; first [reflexivity | assumption].
Qed.

Lemma progFields_names name field :
  progFields !! name = Some field ->
  (name = "prog_type" /\ field = PtrUint32 0)
  \/ (name = "prog_tag" /\ field = PtrString "").
Proof.
  unfold progFields. intros H.
  apply lookup_insert_Some in H as [[<- <-]|[_ H]]; [left; split; reflexivity|].
  apply lookup_singleton_Some in H as [<- <-]. right. split; reflexivity.
Qed.

End ProgramFallback.

(** X12. When the structured query fails with [EINVAL] and the
    fallback returns a [ProgramInfo], only type and tag are filled: the
    identifier, the BTF identifier, the map identifiers, the run count
    and the run time all report unavailable and the name is empty.  The
    tag is the first token of the last prog_tag line as it stands, hex
    or not, and the type the number on the last prog_type line. *)
Theorem X12_program_fallback_record {FD : Type} (W : World FD) (fd : FD)
    (calls calls' : list (event FD)) (queryErr : error) (pi : ProgramInfo.t)
    (Hquery : bpfGetProgInfoByFD W calls fd 10 = inl queryErr)
    (Hforced : errors_Is queryErr EINVAL = true)
    (Hrun : newProgramInfoFromFd W fd calls = Returns (Ok pi) calls') :
  ProgramInfo.ID pi = (0, false)
  /\ ProgramInfo.BTFID pi = (0, false)
  /\ ProgramInfo.MapIDs pi = (None, false)
  /\ ProgramInfo.RunCount pi = (0, false)
  /\ ProgramInfo.Runtime pi = (0, false)
  /\ ProgramInfo.Name pi = ""
  /\ exists raw fh,
       FD_Value W fd = inr raw
       /\ os_Open W (calls ++ [CallProgInfo fd 10]) (fdinfoPath raw) = inr fh
       /\ (forall before text after value ws1 tok ws2,
              fst (bufio.Scan fh) = before ++ text :: after ->
              lineField text = Some ("prog_tag", value) ->
              existsb (carries "prog_tag") after = false ->
              utf8.runes value = ws1 ++ tok ++ ws2 ->
              forallb blank ws1 = true -> forallb fmt.notSpace tok = true ->
              tok <> [] -> forallb blank ws2 = true ->
              ProgramInfo.Tag pi = utf8.encode tok)
       /\ (forall before text after value,
              fst (bufio.Scan fh) = before ++ text :: after ->
              lineField text = Some ("prog_type", value) ->
              existsb (carries "prog_type") after = false ->
              isDecimal (utf8.runes value) = true ->
              decimalValue (utf8.runes value) < 2 ^ 32 ->
              ProgramInfo.Type_ pi = decimalValue (utf8.runes value)).
Proof.
  rewrite newProgramInfoFromFd_run in Hrun. cbv zeta in Hrun.
  rewrite Hquery, Hforced in Hrun.
  apply newProgramInfoFromProc_returns in Hrun
    as (raw & fh & Hvalue & Hopen & Hnil & _ & ->).
  do 6 (split; [reflexivity|]).
  exists raw, fh. split; [exact Hvalue|]. split; [exact Hopen|].
  destruct (scanFdInfoReader_nil _ _ Hnil) as [Hlines _].
  split.
  - intros before text after value ws1 tok ws2 Hsplit Hline Hlater Hvalue'
      Hws1 Htok Hne Hws2.
    assert (Hscan : fmt.Sscanln value (PtrString "")
                    = (1, None, PtrString (utf8.encode tok))).
    { unfold fmt.Sscanln.
      rewrite Hvalue', (doScan_padded _ _ _ _ Hws1 Htok Hne Hws2).
      unfold fmt.doScan, fmt.scanOne.
      pose proof (convertString_app [] tok [] eq_refl Htok Hne eq_refl) as Halone.
      cbn [app] in Halone. rewrite app_nil_r in Halone. rewrite Halone.
      reflexivity. }
    assert (Hstored : fst (scanLines (before ++ text :: after) progFields 0)
                        !! "prog_tag" = Some (PtrString (utf8.encode tok))).
    { eapply scanLines_last;
        [rewrite <- Hsplit, Hlines; reflexivity | exact Hline | reflexivity
        | exact Hlater | reflexivity | exact Hscan]. }
    cbn [ProgramInfo.Tag]. unfold stringAt.
    rewrite scanFdInfoReader_dests, Hsplit, Hstored. reflexivity.
  - intros before text after value Hsplit Hline Hlater Hdec Hsmall.
    assert (Hstored : fst (scanLines (before ++ text :: after) progFields 0)
                        !! "prog_type"
                      = Some (PtrUint32 (decimalValue (utf8.runes value)))).
    { eapply scanLines_last;
        [rewrite <- Hsplit, Hlines; reflexivity | exact Hline | reflexivity
        | exact Hlater | reflexivity
        | exact (Sscanln_decimal value _ 0 eq_refl Hdec Hsmall)]. }
    cbn [ProgramInfo.Type_]. unfold uintAt.
    rewrite scanFdInfoReader_dests, Hsplit, Hstored. reflexivity.
Qed.

Lemma X12_witness :
  exists pi,
    newProgramInfoFromFd
      (Examples.procWorld ("prog_type:" +:+ TAB +:+ "6" +:+ LF
                           +:+ "prog_tag:" +:+ TAB +:+ "not-hex" +:+ LF)) 3 []
    = Returns (Ok pi)
        [CallProgInfo 3 10; CallOpen "/proc/self/fdinfo/3";
         CallClose "/proc/self/fdinfo/3"]
    /\ ProgramInfo.Tag pi = "not-hex"
    /\ ProgramInfo.MapIDs pi = (None, false)
    /\ ProgramInfo.Runtime pi = (0, false).
Proof.
  pose (text := "prog_type:" +:+ TAB +:+ "6" +:+ LF
                +:+ "prog_tag:" +:+ TAB +:+ "not-hex" +:+ LF).
  fold text.
  destruct (newProgramInfoFromFd (Examples.procWorld text) 3 [])
    as [[pi|e] calls'|msg calls'] eqn:Hrun;
    try (vm_compute in Hrun; discriminate Hrun).
  destruct (X12_program_fallback_record (Examples.procWorld text) 3 [] calls'
              (wrapError "can't get program info" EINVAL) pi eq_refl eq_refl Hrun)
    as (_ & _ & Hids & _ & Hruntime & _ & raw & fh & Hvalue & Hopen & Htag & _).
  injection Hvalue as <-. injection Hopen as <-.
  exists pi. split; [|split; [|split; [exact Hids|exact Hruntime]]].
  - f_equal. apply (f_equal callsOf) in Hrun. vm_compute in Hrun.
    symmetry. exact Hrun.
  - apply (Htag ["prog_type:" +:+ TAB +:+ "6"] ("prog_tag:" +:+ TAB +:+ "not-hex") []
             "not-hex" [] [110; 111; 116; 45; 104; 101; 120] []);
      solve [vm_compute; reflexivity | discriminate].
Defined.

(** X13. An fdinfo file that has neither a prog_type nor a prog_tag
    line, as a kernel before 4.10 writes it, makes the program retriever
    return the unsupported-feature error with minimum version 4.10 when
    the structured query fails with [EINVAL], whatever else the file
    holds. *)
Theorem X13_old_kernel_fdinfo {FD : Type} (W : World FD) (fd : FD)
    (calls : list (event FD)) (queryErr : error) (raw : Z) (fh : Reader)
    (Hquery : bpfGetProgInfoByFD W calls fd 10 = inl queryErr)
    (Hforced : errors_Is queryErr EINVAL = true)
    (Hvalue : FD_Value W fd = inr raw)
    (Hopen : os_Open W (calls ++ [CallProgInfo fd 10]) (fdinfoPath raw) = inr fh)
    (Hread : snd (bufio.Scan fh) = None)
    (Hnotype : existsb (carries "prog_type") (fst (bufio.Scan fh)) = false)
    (Hnotag : existsb (carries "prog_tag") (fst (bufio.Scan fh)) = false) :
  newProgramInfoFromFd W fd calls
  = Returns
      (Err (UnsupportedFeatureError
              "reading program info from /proc/self/fdinfo" (4, 10, 0)))
      (calls ++ [CallProgInfo fd 10; CallOpen (fdinfoPath raw);
                 CallClose (fdinfoPath raw)]).
Proof.
  assert (Hnone : forall lines,
             existsb (carries "prog_type") lines = false ->
             existsb (carries "prog_tag") lines = false ->
             forallb (wellFormed progFields) lines = true
             /\ requestedNames progFields lines = []).
  { induction lines as [|text lines IH]; [split; reflexivity|].
    cbn [existsb forallb requestedNames].
    intros [Ht1 Hr1]%orb_false_iff [Ht2 Hr2]%orb_false_iff.
    destruct (IH Hr1 Hr2) as [IHw IHr].
    unfold wellFormed, carries in *.
    destruct (lineField text) as [[name value]|]; [|split; assumption].
    destruct (progFields !! name) as [field|] eqn:Hname; [|split; assumption].
    apply progFields_names in Hname as [[-> _]|[-> _]]; discriminate. }
  destruct (Hnone _ Hnotype Hnotag) as [Hwell Hnames].
  assert (Hmissing : fst (scanFdInfoReader fh progFields) = Some errMissingFields).
  { rewrite (scanFdInfoReader_wellFormed _ _ Hwell), Hread, Hnames. reflexivity. }
  rewrite newProgramInfoFromFd_run. cbv zeta.
  rewrite Hquery, Hforced, newProgramInfoFromProc_run.
  rewrite (scanFdInfo_scanned W _ _ _ _ _ Hvalue Hopen), Hmissing.
  rewrite <- app_assoc. reflexivity.
Qed.

Lemma X13_witness :
  newProgramInfoFromFd
    (Examples.procWorld ("pos:" +:+ TAB +:+ "0" +:+ LF
                         +:+ "flags:" +:+ TAB +:+ "02000002" +:+ LF)) 3 []
  = Returns
      (Err (UnsupportedFeatureError
              "reading program info from /proc/self/fdinfo" (4, 10, 0)))
      [CallProgInfo 3 10; CallOpen "/proc/self/fdinfo/3";
       CallClose "/proc/self/fdinfo/3"].
Proof.
  refine (X13_old_kernel_fdinfo
            (Examples.procWorld ("pos:" +:+ TAB +:+ "0" +:+ LF
                                 +:+ "flags:" +:+ TAB +:+ "02000002" +:+ LF))
            3 [] (wrapError "can't get program info" EINVAL) 3 _
            eq_refl eq_refl eq_refl eq_refl eq_refl eq_refl eq_refl).
Defined.

(** ** The tag as hexadecimal text *)

Section HexTag.

Lemma byteval_range c : 0 <= byteval c < 256.
Proof.
  unfold byteval. pose proof (N_ascii_bounded c). lia.
Qed.

Lemma byteval_inj c1 c2 : byteval c1 = byteval c2 -> c1 = c2.
Proof.
  unfold byteval. intros H. apply N2Z.inj in H.
  rewrite <- (ascii_N_embedding c1), <- (ascii_N_embedding c2), H. reflexivity.
Qed.

Lemma hex_digit_inj a b :
  0 <= a < 16 -> 0 <= b < 16 -> hex.digit a = hex.digit b -> a = b.
Proof.
  intros Ha Hb.
  assert (Hcases : forall x, 0 <= x < 16 ->
             x = 0 \/ x = 1 \/ x = 2 \/ x = 3 \/ x = 4 \/ x = 5 \/ x = 6 \/ x = 7
             \/ x = 8 \/ x = 9 \/ x = 10 \/ x = 11 \/ x = 12 \/ x = 13 \/ x = 14
             \/ x = 15) by (intros; lia).
  destruct (Hcases a Ha) as [->|[->|[->|[->|[->|[->|[->|[->|[->|[->|[->|[->|[->|[->|[->| ->]]]]]]]]]]]]]]];
    destruct (Hcases b Hb) as [->|[->|[->|[->|[->|[->|[->|[->|[->|[->|[->|[->|[->|[->|[->| ->]]]]]]]]]]]]]]];
    solve [reflexivity | intros H; discriminate H].
Qed.

Lemma nibbles v : 0 <= v < 256 ->
  0 <= Z.shiftr v 4 < 16 /\ 0 <= Z.land v 0x0f < 16
  /\ v = 16 * Z.shiftr v 4 + Z.land v 0x0f.
Proof.
  intros Hv. rewrite Z.shiftr_div_pow2 by lia.
  change 0x0f with (Z.ones 4). rewrite Z.land_ones by lia.
  change (2 ^ 4) with 16.
  pose proof (Z.div_mod v 16 ltac:(lia)).
  pose proof (Z.mod_pos_bound v 16 ltac:(lia)).
  assert (0 <= v / 16 < 16) by (split; [apply Z.div_pos; lia|apply Z.div_lt_upper_bound; lia]).
  lia.
Qed.

(** [hex.EncodeToString] loses nothing: different bytes give different
    text. *)
Lemma EncodeToString_inj s1 s2 :
  hex.EncodeToString s1 = hex.EncodeToString s2 -> s1 = s2.
Proof.
  revert s2. induction s1 as [|c1 s1 IH]; intros [|c2 s2]; cbn [hex.EncodeToString];
    try discriminate; [reflexivity|].
  intros [= Hhi Hlo Hrest].
  destruct (nibbles _ (byteval_range c1)) as (Hh1 & Hl1 & E1).
  destruct (nibbles _ (byteval_range c2)) as (Hh2 & Hl2 & E2).
  apply (hex_digit_inj _ _ Hh1 Hh2) in Hhi.
  apply (hex_digit_inj _ _ Hl1 Hl2) in Hlo.
  f_equal; [apply byteval_inj; lia | exact (IH _ Hrest)].
Qed.

Lemma EncodeToString_length s :
  String.length (hex.EncodeToString s) = (2 * String.length s)%nat.
Proof.
  induction s as [|c s IH]; [reflexivity|].
  cbn [hex.EncodeToString String.length]. rewrite IH. lia.
Qed.

End HexTag.

(** X14. The tag of a [ProgramInfo] built on the structured path is a
    faithful rendering of the tag of the record: two characters for
    every byte, and equal texts only for equal tags. *)
Theorem X14_tag_is_faithful {FD : Type} (W : World FD)
    (info1 info2 : bpfProgInfo.t) (sliced1 sliced2 : list Z)
    (Hsame : ProgramInfo.Tag (builtFrom W info1 sliced1)
             = ProgramInfo.Tag (builtFrom W info2 sliced2)) :
  bpfProgInfo.tag info1 = bpfProgInfo.tag info2
  /\ String.length (ProgramInfo.Tag (builtFrom W info1 sliced1))
     = (2 * String.length (bpfProgInfo.tag info1))%nat.
Proof.
  split.
  - apply EncodeToString_inj. exact Hsame.
  - apply EncodeToString_length.
Qed.

Lemma X14_witness :
  bpfProgInfo.tag (Examples.progRecord 3 0) = bpfProgInfo.tag (Examples.progRecord 5 7)
  /\ String.length
       (ProgramInfo.Tag (builtFrom (Examples.progWorld [3] 0)
                           (Examples.progRecord 3 0) [1; 2; 3]))
     = 16%nat.
Proof.
  exact (X14_tag_is_faithful (Examples.progWorld [3] 0)
           (Examples.progRecord 3 0) (Examples.progRecord 5 7) [1; 2; 3] [] eq_refl).
Defined.

(** ** Numbers with a base prefix *)

Section BasePrefix.

Implicit Types digits : list rune.

Lemma valueFrom_grows base n digits :
  1 <= base -> 0 <= n -> digitsBelow base digits = true ->
  n <= valueFrom base n digits.
Proof.
  intros Hbase. revert n. induction digits as [|c digits IH]; intros n Hn Hall.
  - unfold valueFrom. simpl. lia.
  - cbn [digitsBelow forallb] in Hall.
    apply andb_true_iff in Hall as [Hc Hall].
    apply andb_true_iff in Hc as [Hc _]. apply andb_true_iff in Hc as [_ Hpos].
    apply Z.leb_le in Hpos.
    unfold valueFrom in *. cbn [fold_left].
    specialize (IH (n * base + digitValue c) ltac:(nia) Hall). nia.
Qed.

(** The digit loop of [ParseUint] computes the value of the digits in
    the base as long as that stays below 2^32. *)
Lemma digitLoop_digits s0 base digits n :
  2 <= base <= 16 -> 0 <= n -> digitsBelow base digits = true ->
  valueFrom base n digits < 2 ^ 32 ->
  strconv.digitLoop s0 base digits n false = (valueFrom base n digits, None).
Proof.
  intros Hbase. revert n.
  induction digits as [|c digits IH]; intros n Hn Hall Hsmall; [reflexivity|].
  pose proof Hall as Hall'.
  cbn [digitsBelow forallb] in Hall'.
  apply andb_true_iff in Hall' as [Hc Hrest].
  apply andb_true_iff in Hc as [Hc Hlt]. apply andb_true_iff in Hc as [Hc Hpos].
  apply andb_true_iff in Hc as [Hno Hvalid].
  apply negb_true_iff in Hno. apply Z.leb_le in Hpos. apply Z.ltb_lt in Hlt.
  assert (Hnext : n * base + digitValue c < 2 ^ 32).
  { pose proof (valueFrom_grows base (n * base + digitValue c) digits
                  ltac:(lia) ltac:(nia) Hrest).
    unfold valueFrom in *. cbn [fold_left] in Hsmall. lia. }
  change (2 ^ 32) with 4294967296 in Hnext.
  cbn [strconv.digitLoop]. rewrite Hno.
  assert (Hd : (if strconv.isDigit c then Some (c - 48)
                else if (97 <=? strconv.lower c) && (strconv.lower c <=? 122)
                     then Some (strconv.lower c - 97 + 10) else None)
               = Some (digitValue c)).
  { unfold digitValue. destruct (strconv.isDigit c); [reflexivity|].
    simpl in Hvalid. rewrite Hvalid. reflexivity. }
  rewrite Hd.
  destruct (base <=? digitValue c) eqn:E; [apply Z.leb_le in E; lia|].
  assert (Hcut : (strconv.maxUint64 / base + 1 <=? n) = false).
  { apply Z.leb_gt. unfold strconv.maxUint64.
    change (2 ^ 64 - 1) with 18446744073709551615.
    assert (18446744073709551615 / 16 <= 18446744073709551615 / base)
      by (apply Z.div_le_compat_l; lia).
    change (18446744073709551615 / 16) with 1152921504606846975 in H. nia. }
  rewrite Hcut. change (2 ^ 64) with 18446744073709551616.
  rewrite (Z.mod_small (n * base)) by nia.
  rewrite (Z.mod_small (n * base + digitValue c)) by nia.
  destruct (n * base + digitValue c <? n * base) eqn:E1; [apply Z.ltb_lt in E1; lia|].
  destruct (strconv.maxUint64 <? n * base + digitValue c) eqn:E2.
  { apply Z.ltb_lt in E2. unfold strconv.maxUint64 in E2.
    change (2 ^ 64 - 1) with 18446744073709551615 in E2. lia. }
  cbn [orb].
  rewrite (IH (n * base + digitValue c) ltac:(nia) Hrest); [reflexivity|].
  unfold valueFrom in *. cbn [fold_left] in Hsmall. exact Hsmall.
Qed.

Lemma acceptAll_members allowed buf digits :
  forallb (fmt.indexRune allowed) digits = true ->
  fmt.acceptAll (allowed ++ fmt.underscore) buf digits = (buf ++ digits, []).
Proof.
  revert buf. induction digits as [|c digits IH]; intros buf Hall.
  - rewrite app_nil_r. reflexivity.
  - cbn [forallb] in Hall. apply andb_true_iff in Hall as [Hc Hall].
    cbn [fmt.acceptAll].
    assert (Hin : fmt.indexRune (allowed ++ fmt.underscore) c = true).
    { unfold fmt.indexRune in *. rewrite existsb_app.
      apply orb_true_iff. left. exact Hc. }
    rewrite Hin, (IH _ Hall), <- app_assoc. reflexivity.
Qed.

(** The members of a set of digits that is made of digits below the
    base and has no white space in it. *)
Lemma members_digitsBelow allowed base digits :
  digitsBelow base allowed = true -> noSpaceIn allowed = true ->
  forallb (fmt.indexRune allowed) digits = true ->
  digitsBelow base digits = true /\ forallb fmt.notSpace digits = true.
Proof.
  intros Hbelow Hnospace Hall. unfold digitsBelow, noSpaceIn in *.
  rewrite forallb_forall in Hbelow, Hnospace, Hall.
  split; apply forallb_forall; intros c Hc; specialize (Hall c Hc);
    unfold fmt.indexRune in Hall; apply existsb_exists in Hall as (d & Hd & Heq);
    apply Z.eqb_eq in Heq; subst d; auto.
Qed.

(** [0x] or [0X] and hexadecimal digits scan as the number in base
    sixteen. *)
Lemma scanUint_hex x digits :
  x = 120 \/ x = 88 -> digits <> [] ->
  forallb (fmt.indexRune fmt.hexadecimalDigits) digits = true ->
  valueFrom 16 0 digits < 2 ^ 32 ->
  fmt.scanUint (48 :: x :: digits) = inr (valueFrom 16 0 digits, []).
Proof.
  intros Hx Hne Hall Hsmall.
  destruct (members_digitsBelow fmt.hexadecimalDigits 16 digits eq_refl eq_refl Hall)
    as [Hbelow _].
  pose proof (valueFrom_grows 16 0 digits ltac:(lia) ltac:(lia) Hbelow) as Hpos.
  unfold fmt.scanUint. rewrite (SkipSpace_token 48 _ eq_refl).
  match goal with
  | |- context [fmt.scanBasePrefix ?l] =>
    assert (Hprefix : fmt.scanBasePrefix l
                      = (fmt.hexadecimalDigits ++ fmt.underscore, true, [48; x], digits))
      by (destruct Hx as [->| ->]; reflexivity)
  end.
  rewrite Hprefix. unfold fmt.scanNumber.
  rewrite (acceptAll_members _ _ _ Hall). cbn [app].
  match goal with
  | |- context [strconv.ParseUint ?tok] =>
    assert (Hparse : strconv.ParseUint tok = (valueFrom 16 0 digits, None))
  end.
  { destruct digits as [|d digits]; [congruence|].
    unfold strconv.ParseUint.
    destruct Hx as [->| ->]; cbn [tl];
      apply digitLoop_digits; solve [lia | assumption]. }
  rewrite Hparse, Z.mod_small by lia. rewrite Z.eqb_refl. reflexivity.
Qed.

(** A zero and octal digits scan as the number in base eight. *)
Lemma scanUint_octal digits :
  digits <> [] ->
  forallb (fmt.indexRune fmt.octalDigits) digits = true ->
  valueFrom 8 0 digits < 2 ^ 32 ->
  fmt.scanUint (48 :: digits) = inr (valueFrom 8 0 digits, []).
Proof.
  intros Hne Hall Hsmall.
  destruct (members_digitsBelow fmt.octalDigits 8 digits eq_refl eq_refl Hall)
    as [Hbelow _].
  pose proof (valueFrom_grows 8 0 digits ltac:(lia) ltac:(lia) Hbelow) as Hpos.
  destruct digits as [|d digits]; [congruence|].
  assert (Hd : In d fmt.octalDigits).
  { cbn [forallb] in Hall. apply andb_true_iff in Hall as [Hd _].
    unfold fmt.indexRune in Hd. apply existsb_exists in Hd as (d' & Hin & Heq).
    apply Z.eqb_eq in Heq. subst d'. exact Hin. }
  unfold fmt.scanUint. rewrite (SkipSpace_token 48 _ eq_refl).
  match goal with
  | |- context [fmt.scanBasePrefix ?l] =>
    assert (Hprefix : fmt.scanBasePrefix l
                      = (fmt.octalDigits ++ fmt.underscore, true, [48], d :: digits))
  end.
  { simpl in Hd.
    repeat (destruct Hd as [<-|Hd]; [reflexivity|]). destruct Hd. }
  rewrite Hprefix. unfold fmt.scanNumber.
  rewrite (acceptAll_members _ _ _ Hall). cbn [app].
  match goal with
  | |- context [strconv.ParseUint ?tok] =>
    assert (Hparse : strconv.ParseUint tok = (valueFrom 8 0 (d :: digits), None))
  end.
  { assert (Hloop : strconv.digitLoop (48 :: d :: digits) 8 (d :: digits) 0 false
                    = (valueFrom 8 0 (d :: digits), None))
      by (apply digitLoop_digits; solve [lia | assumption]).
    unfold strconv.ParseUint. destruct digits as [|d2 digits]; [exact Hloop|].
    simpl in Hd.
    repeat (destruct Hd as [<-|Hd]; [exact Hloop|]). destruct Hd. }
  rewrite Hparse, Z.mod_small by lia. rewrite Z.eqb_refl. reflexivity.
Qed.

End BasePrefix.

(** X15. The numbers of the file are not read as decimal only.  For a
    line of a requested unsigned field, a value [0x] or [0X] followed by
    hexadecimal digits is stored as the number in base sixteen, and a
    value of a zero followed by octal digits as the number in base
    eight ("010" is eight), when that number is below 2^32; white space
    around the value is ignored. *)
Theorem X15_base_prefixes (fields : gmap string dest) (text name value : string)
    (v : Z) (lines : list string) (scanned : nat) (ws1 ws2 digits : list rune)
    (Hline : lineField text = Some (name, value))
    (Hrequested : fields !! name = Some (PtrUint32 v))
    (Hws1 : forallb blank ws1 = true)
    (Hws2 : forallb blank ws2 = true)
    (Hne : digits <> []) :
  (forall x,
      x = 120 \/ x = 88 ->
      utf8.runes value = ws1 ++ (48 :: x :: digits) ++ ws2 ->
      forallb (fmt.indexRune fmt.hexadecimalDigits) digits = true ->
      valueFrom 16 0 digits < 2 ^ 32 ->
      scanLines (text :: lines) fields scanned
      = scanLines lines (<[name := PtrUint32 (valueFrom 16 0 digits)]> fields)
          (S scanned))
  /\
  (utf8.runes value = ws1 ++ (48 :: digits) ++ ws2 ->
   forallb (fmt.indexRune fmt.octalDigits) digits = true ->
   valueFrom 8 0 digits < 2 ^ 32 ->
   scanLines (text :: lines) fields scanned
   = scanLines lines (<[name := PtrUint32 (valueFrom 8 0 digits)]> fields)
       (S scanned)).
Proof.
  assert (Hstore : forall tok i,
             utf8.runes value = ws1 ++ tok ++ ws2 ->
             forallb fmt.notSpace tok = true -> tok <> [] ->
             fmt.scanUint tok = inr (i, []) ->
             scanLines (text :: lines) fields scanned
             = scanLines lines (<[name := PtrUint32 i]> fields) (S scanned)).
  { intros tok i Hvalue Htok Htokne Hscan.
    rewrite scanLines_cons, Hline, Hrequested.
    unfold fmt.Sscanln.
    rewrite Hvalue, (doScan_padded _ _ _ _ Hws1 Htok Htokne Hws2).
    unfold fmt.doScan, fmt.scanOne. rewrite Hscan. reflexivity. }
  split.
  - intros x Hx Hvalue Hall Hsmall.
    destruct (members_digitsBelow fmt.hexadecimalDigits 16 digits eq_refl eq_refl Hall)
      as [_ Hnospace].
    apply (Hstore (48 :: x :: digits)); [exact Hvalue| |discriminate|].
    + cbn [forallb]. rewrite Hnospace.
      destruct Hx as [->| ->]; reflexivity.
    + apply scanUint_hex; assumption.
  - intros Hvalue Hall Hsmall.
    destruct (members_digitsBelow fmt.octalDigits 8 digits eq_refl eq_refl Hall)
      as [_ Hnospace].
    apply (Hstore (48 :: digits)); [exact Hvalue| |discriminate|].
    + cbn [forallb]. rewrite Hnospace. reflexivity.
    + apply scanUint_octal; assumption.
Qed.

Lemma X15_witness :
  scanLines ["map_flags:" +:+ TAB +:+ "0x1f"] mapFields 0
  = (<["map_flags" := PtrUint32 31]> mapFields, inr 1%nat)
  /\ scanLines ["key_size:" +:+ TAB +:+ "010"] mapFields 0
     = (<["key_size" := PtrUint32 8]> mapFields, inr 1%nat).
Proof.
  split.
  - refine (proj1 (X15_base_prefixes mapFields ("map_flags:" +:+ TAB +:+ "0x1f")
                     "map_flags" "0x1f" 0 [] 0 [] [] [49; 102]
                     eq_refl eq_refl eq_refl eq_refl _)
                  120 (or_introl eq_refl) eq_refl eq_refl _).
    + discriminate.
    + vm_compute. reflexivity.
  - refine (proj2 (X15_base_prefixes mapFields ("key_size:" +:+ TAB +:+ "010")
                     "key_size" "010" 0 [] 0 [] [] [49; 48]
                     eq_refl eq_refl eq_refl eq_refl _) eq_refl eq_refl _).
    + discriminate.
    + vm_compute. reflexivity.
Defined.
